(** * FinanFlow: loans, installment schedules, accrual and the payment ledger

    A shallow embedding of the financial core of [main.py] and of the data
    model of [app/models.py], and the properties of it that the design
    document states.

    Modelling conventions.
    - Money.  The Python code computes on [float] and the columns are
      [Numeric(10, 2)]; amounts are modelled here as exact rationals ([Qc]),
      that is, by the real-number meaning of the arithmetic expressions.
      Neither binary rounding nor the rounding of the column type on storage
      is part of the model.
    - Dates.  A [datetime.date] is modelled by its proleptic Gregorian
      ordinal ([date.toordinal()]); the model's calendar does not stop at
      [date.max].
    - Storage.  The database is a record of tables, each a list of rows in
      insertion order; primary keys are drawn from per-table sequences.  A
      request handler is a function from the store (and the parsed form
      fields) to a response and a new store; an exception caught by the
      handler's [except] clause leaves the store as it was (rollback).
      [db.session.commit()] is taken to succeed: the integrity constraints
      of the schema (foreign keys, NOT NULL, uniqueness) are not modelled.
    - Forms.  A handler receives its form fields already parsed; a field
      that may be absent or empty is an [option].
    - Columns that no modelled computation reads (names, addresses,
      timestamps) are left out of the rows. *)

From Stdlib Require Import ZArith QArith Qcanon Qround Lia Lqa.
From stdpp Require Import base decidable option list numbers strings gmap pretty sorting.
From Equations Require Import Equations.

Open Scope Z_scope.

(** ** Money *)

Abbreviation money := Qc.

(** [float(n)] for an integer [n]. *)
Definition of_int (n : Z) : money := Qc_of_Z n.

(** Python 3 [round(x, 2)]: to the nearest multiple of 0.01, a tie going to
    the even multiple. *)
Definition round_half_even (x : money) : Z :=
  let n := Qfloor x in
  let r := (x - of_int n)%Qc in
  let half := (1 / 2)%Qc in
  if decide (r < half)%Qc then n
  else if decide (half < r)%Qc then n + 1
  else if Z.even n then n else n + 1.

Definition round2 (x : money) : money :=
  (of_int (round_half_even (x * of_int 100)) / of_int 100)%Qc.

(** ** Dates *)

Record date := Date { toordinal : Z }.

Global Instance date_eq_dec : EqDecision date.
Proof. solve_decision. Defined.

(** [date.weekday()]: Monday is 0 and Sunday is 6. *)
Definition weekday (d : date) : Z := (toordinal d + 6) mod 7.

(** [d + timedelta(days=n)] *)
Definition add_days (d : date) (n : Z) : date := Date (toordinal d + n).

(** [d1 < d2] on dates *)
Definition date_lt (d1 d2 : date) : Prop := toordinal d1 < toordinal d2.

Global Instance date_lt_dec : RelDecision date_lt.
Proof. intros d1 d2. unfold date_lt. apply _. Defined.

(** A [datetime] has microsecond resolution: it is represented by the
    microseconds elapsed since the midnight that begins the day of ordinal 0. *)
Record datetime := DateTime { microseconds : Z }.

Definition us_per_day : Z := 86400000000.

(** [datetime.combine(d, datetime.min.time())] *)
Definition combine_min (d : date) : datetime :=
  DateTime (toordinal d * us_per_day).

(** [a - b] on datetimes, a [timedelta] counted in microseconds. *)
Definition datetime_sub (a b : datetime) : Z := microseconds a - microseconds b.

(** [a > b] on datetimes *)
Definition datetime_gt (a b : datetime) : Prop := microseconds b < microseconds a.

Global Instance datetime_gt_dec : RelDecision datetime_gt.
Proof. intros a b. unfold datetime_gt. apply _. Defined.

(** [timedelta.days]: a timedelta is normalised with the floor division. *)
Definition timedelta_days (td : Z) : Z := td / us_per_day.

(** The [while data_vencimento_atual.weekday() == 6] loop of the two
    schedule generators: advance one day at a time while the date is a
    Sunday. *)
Definition inspect {A} (a : A) : {b | a = b} := exist _ a eq_refl.

Equations pular_domingos (d : date) : date
  by wf (Z.to_nat (weekday d / 6)) lt :=
  pular_domingos d with inspect (weekday d =? 6) := {
    | exist _ true _ => pular_domingos (add_days d 1)
    | exist _ false _ => d }.
Next Obligation.
  rename select (_ = true) into Hd. apply Z.eqb_eq in Hd.
  unfold weekday, add_days in *; simpl.
  replace (toordinal d + 1 + 6) with ((toordinal d + 6) + 1) by lia.
  rewrite Z.add_mod, Hd by lia. vm_compute. lia.
Qed.

(** ** The data model ([app/models.py]) *)

Inductive Status := Pendente | Pago.

Global Instance Status_eq_dec : EqDecision Status.
Proof. solve_decision. Defined.

(** [Customer], table [clientes]. *)
Module Customer.
Record t := mk {
    id : Z;
    empresa : string;
    client_id : option Z }.
End Customer.

(** [Loan], table [cobrancas]. *)
Module Loan.
Record t := mk {
    id : Z;
    cliente_id : Z;
    valor_original : money;
    valor_pago : money;
    desconto : money;
    valor_total : option money;
    taxa_juros : money;
    data_vencimento : date;
    data_pagamento : option date;
    status : Status;
    numero_parcelas : Z;
    client_id : option Z }.
End Loan.

(** [Installment], table [parcelas]. *)
Module Installment.
Record t := mk {
    id : Z;
    cobranca_id : Z;
    numero_parcela : Z;
    valor : money;
    data_vencimento : date;
    status : Status;
    valor_pago : money;
    data_pagamento : option date;
    forma_pagamento : option string;
    multa_manual : option money;
    client_id : option Z }.
End Installment.

(** [Payment], table [pagamentos]. *)
Module Payment.
Record t := mk {
    cobranca_id : Z;
    valor_pago : money;
    data_pagamento : date;
    observacao : string;
    forma_pagamento : string;
    usuario_id : option Z;
    client_id : Z }.
End Payment.

(** [PaymentHistory], table [historico_pagamentos]. *)
Module PaymentHistory.
Record t := mk {
    cobranca_id : Z;
    cliente_id : Z;
    valor_pago : money;
    forma_pagamento : string;
    observacoes : string;
    usuario_id : option Z;
    client_id : Z }.
End PaymentHistory.

(** [Configuration], table [configuracoes].  The text cell [valor] is
    represented by the number it spells. *)
Module Configuration.
Record t := mk {
    chave : string;
    valor : money;
    client_id : Z }.
End Configuration.

(** The store: the tables, and the sequences that number new loans and new
    installments. *)
Record DB := mkDB {
  clientes : list Customer.t;
  cobrancas : list Loan.t;
  parcelas : list Installment.t;
  pagamentos : list Payment.t;
  historico_pagamentos : list PaymentHistory.t;
  configuracoes : list Configuration.t;
  cobrancas_id_seq : Z;
  parcelas_id_seq : Z }.

Definition empty_db : DB := mkDB [] [] [] [] [] [] 1 1.

(** What a request reads besides the form: the clock and the session. *)
Record Request := mkRequest {
  today : date;
  session_usuario_id : option Z }.

(** [Loan.query.get_or_404(id)] and [Installment.query.get_or_404(id)] *)
Definition get_loan (db : DB) (id : Z) : option Loan.t :=
  List.find (fun l => bool_decide (Loan.id l = id)) (cobrancas db).

Definition get_installment (db : DB) (id : Z) : option Installment.t :=
  List.find (fun p => bool_decide (Installment.id p = id)) (parcelas db).

(** The relationship [loan.installments]: the rows of [parcelas] that
    reference the loan. *)
Definition installments_of (db : DB) (l : Loan.t) : list Installment.t :=
  List.filter (fun p => bool_decide (Installment.cobranca_id p = Loan.id l))
    (parcelas db).

(** The relationship [customer.loans]. *)
Definition loans_of (db : DB) (c : Customer.t) : list Loan.t :=
  List.filter (fun l => bool_decide (Loan.cliente_id l = Customer.id c))
    (cobrancas db).

(** ** Responses of the request handlers *)

Inductive Response :=
| Success              (* the handler committed its changes *)
| DomingoNaoPermitido  (* flash: the submitted due date is a Sunday *)
| TaxaInvalida         (* flash: 'Taxa de juros invalida. Use 30% ou 60%.' *)
| ValorInvalido        (* flash: a non-positive amount or a negative penalty *)
| CampoObrigatorio     (* flash: a required form field is missing *)
| ClienteNaoEncontrado (* flash: the loan has no customer *)
| ParcelaJaPaga        (* flash: 'Esta parcela ja foi paga.' *)
| NotFound             (* get_or_404 aborted with 404 *)
| Rollback             (* an exception reached [except Exception]: rollback *)
| ServerError.         (* an exception left the handler *)

(** ** Schedule generation *)

(** [Installment(numero_parcela=.., valor=.., data_vencimento=..,
    status='Pendente')], with the column defaults of the model and the keys
    given at flush. *)
Definition nova_parcela (id cobranca_id numero_parcela : Z) (valor : money)
    (data_vencimento : date) : Installment.t :=
  {| Installment.id := id;
     Installment.cobranca_id := cobranca_id;
     Installment.numero_parcela := numero_parcela;
     Installment.valor := valor;
     Installment.data_vencimento := data_vencimento;
     Installment.status := Pendente;
     Installment.valor_pago := 0%Qc;
     Installment.data_pagamento := None;
     Installment.forma_pagamento := None;
     Installment.multa_manual := None;
     Installment.client_id := None |}.

(** The loop [for i in range(numero_parcelas)] of both generators; [n]
    iterations remain, [i] is the loop index, [next_id] the next key of
    [parcelas]. *)
Fixpoint gerar_parcelas (n : nat) (i next_id cobranca_id : Z)
    (valor_parcela : money) (data_vencimento_atual : date)
    : list Installment.t :=
  match n with
  | O => []
  | S n' =>
      let data_vencimento_atual := pular_domingos data_vencimento_atual in
      nova_parcela next_id cobranca_id (i + 1) valor_parcela data_vencimento_atual
      :: gerar_parcelas n' (i + 1) (next_id + 1) cobranca_id valor_parcela
           (add_days data_vencimento_atual 1)
  end.

(** The form of [adicionar_cobranca]. *)
Record CobrancaForm := mkCobrancaForm {
  form_cliente_id : Z;
  form_valor_emprestimo : money;
  form_taxa_juros : money;
  form_data_vencimento : date }.

(** [adicionar_cobranca], POST. *)
Definition adicionar_cobranca (form : CobrancaForm) (db : DB) : Response * DB :=
  let valor_emprestimo := form_valor_emprestimo form in
  let taxa_juros := form_taxa_juros form in
  let data_venc := form_data_vencimento form in
  if decide (weekday data_venc = 6) then (DomingoNaoPermitido, db)
  else
    let numero_parcelas :=
      if decide (taxa_juros = of_int 30) then Some 10
      else if decide (taxa_juros = of_int 60) then Some 15
      else None in
    match numero_parcelas with
    | None => (TaxaInvalida, db)
    | Some numero_parcelas =>
        let valor_devido_total :=
          (valor_emprestimo * (1 + taxa_juros / of_int 100))%Qc in
        let valor_parcela := (valor_devido_total / of_int numero_parcelas)%Qc in
        let nova_cobranca :=
          {| Loan.id := cobrancas_id_seq db;
             Loan.cliente_id := form_cliente_id form;
             Loan.valor_original := valor_emprestimo;
             Loan.valor_pago := 0%Qc;
             Loan.desconto := 0%Qc;
             Loan.valor_total := Some valor_devido_total;
             Loan.taxa_juros := taxa_juros;
             Loan.data_vencimento := data_venc;
             Loan.data_pagamento := None;
             Loan.status := Pendente;
             Loan.numero_parcelas := numero_parcelas;
             Loan.client_id := None |} in
        let installments :=
          gerar_parcelas (Z.to_nat numero_parcelas) 0 (parcelas_id_seq db)
            (Loan.id nova_cobranca) valor_parcela data_venc in
        (Success,
         {| clientes := clientes db;
            cobrancas := cobrancas db ++ [nova_cobranca];
            parcelas := parcelas db ++ installments;
            pagamentos := pagamentos db;
            historico_pagamentos := historico_pagamentos db;
            configuracoes := configuracoes db;
            cobrancas_id_seq := cobrancas_id_seq db + 1;
            parcelas_id_seq := parcelas_id_seq db + numero_parcelas |})
    end.

(** The unit of work writes a changed row back under its primary key. *)
Definition update_loan (l' : Loan.t) (ls : list Loan.t) : list Loan.t :=
  List.map (fun l => if decide (Loan.id l = Loan.id l') then l' else l) ls.

Definition update_installment (p' : Installment.t) (ps : list Installment.t)
    : list Installment.t :=
  List.map (fun p => if decide (Installment.id p = Installment.id p') then p' else p) ps.

(** The form of [editar_cobranca]; every field may be missing or empty. *)
Record EditarForm := mkEditarForm {
  edit_valor_emprestimo : option money;
  edit_data_vencimento : option date;
  edit_taxa_juros : option money;
  edit_numero_parcelas : option Z }.

(** [editar_cobranca], POST: discards the installments and the payment
    history of the loan and generates the schedule again. *)
Definition editar_cobranca (id : Z) (form : EditarForm) (db : DB)
    : Response * DB :=
  match get_loan db id with
  | None => (NotFound, db)
  | Some cobranca =>
  match List.find (fun c => bool_decide (Customer.id c = Loan.cliente_id cobranca))
          (clientes db) with
  | None => (ClienteNaoEncontrado, db)
  | Some cliente =>
  match edit_valor_emprestimo form with
  | None => (CampoObrigatorio, db)
  | Some novo_valor_emprestimo =>
  if decide (novo_valor_emprestimo ≤ 0)%Qc then (ValorInvalido, db)
  else
  match edit_data_vencimento form with
  | None => (CampoObrigatorio, db)
  | Some nova_data_vencimento =>
  if decide (weekday nova_data_vencimento = 6) then (DomingoNaoPermitido, db)
  else
    let taxa_juros :=
      match edit_taxa_juros form with
      | Some t => t
      | None => Loan.taxa_juros cobranca
      end in
    let numero_parcelas :=
      if decide (taxa_juros = of_int 30) then 10
      else if decide (taxa_juros = of_int 60) then 15
      else match edit_numero_parcelas form with
           | Some n => n
           | None => Loan.numero_parcelas cobranca
           end in
    let valor_total :=
      (novo_valor_emprestimo * (1 + taxa_juros / of_int 100))%Qc in
    (* valor_total / numero_parcelas raises ZeroDivisionError for 0 *)
    if decide (numero_parcelas = 0) then (Rollback, db)
    else
      let valor_parcela := (valor_total / of_int numero_parcelas)%Qc in
      let installments :=
        gerar_parcelas (Z.to_nat numero_parcelas) 0 (parcelas_id_seq db) id
          valor_parcela nova_data_vencimento in
      let cobranca' :=
        {| Loan.id := Loan.id cobranca;
           Loan.cliente_id := Loan.cliente_id cobranca;
           Loan.valor_original := novo_valor_emprestimo;
           Loan.valor_pago := 0%Qc;
           Loan.desconto := Loan.desconto cobranca;
           Loan.valor_total := Some valor_total;
           Loan.taxa_juros := taxa_juros;
           Loan.data_vencimento := nova_data_vencimento;
           Loan.data_pagamento := Loan.data_pagamento cobranca;
           Loan.status := Pendente;
           Loan.numero_parcelas := numero_parcelas;
           Loan.client_id := Loan.client_id cobranca |} in
      (Success,
       {| clientes := clientes db;
          cobrancas := update_loan cobranca' (cobrancas db);
          parcelas :=
            List.filter
              (fun p => negb (bool_decide (Installment.cobranca_id p = id)))
              (parcelas db)
            ++ installments;
          pagamentos := pagamentos db;
          historico_pagamentos :=
            List.filter
              (fun h => negb (bool_decide (PaymentHistory.cobranca_id h = id)))
              (historico_pagamentos db);
          configuracoes := configuracoes db;
          cobrancas_id_seq := cobrancas_id_seq db;
          parcelas_id_seq := parcelas_id_seq db + Z.max 0 numero_parcelas |})
  end end end end.

(** The installment count that [editar_cobranca] derives from the tier, on
    its own. *)
Definition editar_numero_parcelas (form : EditarForm) (cobranca : Loan.t) : Z :=
  let taxa_juros := default (Loan.taxa_juros cobranca) (edit_taxa_juros form) in
  if decide (taxa_juros = of_int 30) then 10
  else if decide (taxa_juros = of_int 60) then 15
  else default (Loan.numero_parcelas cobranca) (edit_numero_parcelas form).

(** [cancelar_cobranca], POST: deletes the loan; the cascade of the model
    deletes its installments, payments and payment history. *)
Definition cancelar_cobranca (cobranca_id : Z) (db : DB) : Response * DB :=
  match get_loan db cobranca_id with
  | None => (NotFound, db)
  | Some cobranca =>
      (Success,
       {| clientes := clientes db;
          cobrancas :=
            List.filter (fun l => negb (bool_decide (Loan.id l = cobranca_id)))
              (cobrancas db);
          parcelas :=
            List.filter
              (fun p => negb (bool_decide (Installment.cobranca_id p = cobranca_id)))
              (parcelas db);
          pagamentos :=
            List.filter
              (fun p => negb (bool_decide (Payment.cobranca_id p = cobranca_id)))
              (pagamentos db);
          historico_pagamentos :=
            List.filter
              (fun h => negb (bool_decide (PaymentHistory.cobranca_id h = cobranca_id)))
              (historico_pagamentos db);
          configuracoes := configuracoes db;
          cobrancas_id_seq := cobrancas_id_seq db;
          parcelas_id_seq := parcelas_id_seq db |})
  end.

(** ** The payment ledger *)

(** [registrar_pagamento], POST: a free-form payment against a loan. *)
Definition registrar_pagamento (req : Request) (id : Z) (valor_a_pagar : money)
    (observacao_pagamento : string) (db : DB) : Response * DB :=
  match get_loan db id with
  | None => (NotFound, db)
  | Some cobranca =>
      if decide (valor_a_pagar ≤ 0)%Qc then (ValorInvalido, db)
      else
        let novo_pagamento :=
          {| Payment.cobranca_id := Loan.id cobranca;
             Payment.valor_pago := valor_a_pagar;
             Payment.data_pagamento := today req;
             Payment.observacao := observacao_pagamento;
             Payment.forma_pagamento := "Dinheiro";
             Payment.usuario_id := session_usuario_id req;
             Payment.client_id := Loan.cliente_id cobranca |} in
        let valor_atual := Loan.valor_pago cobranca in
        let cobranca' :=
          {| Loan.id := Loan.id cobranca;
             Loan.cliente_id := Loan.cliente_id cobranca;
             Loan.valor_original := Loan.valor_original cobranca;
             Loan.valor_pago := (valor_atual + valor_a_pagar)%Qc;
             Loan.desconto := Loan.desconto cobranca;
             Loan.valor_total := Loan.valor_total cobranca;
             Loan.taxa_juros := Loan.taxa_juros cobranca;
             Loan.data_vencimento := Loan.data_vencimento cobranca;
             Loan.data_pagamento := Loan.data_pagamento cobranca;
             Loan.status := Loan.status cobranca;
             Loan.numero_parcelas := Loan.numero_parcelas cobranca;
             Loan.client_id := Loan.client_id cobranca |} in
        let novo_historico :=
          {| PaymentHistory.cobranca_id := Loan.id cobranca;
             PaymentHistory.cliente_id := Loan.cliente_id cobranca;
             PaymentHistory.valor_pago := valor_a_pagar;
             PaymentHistory.forma_pagamento := "Dinheiro";
             PaymentHistory.observacoes := observacao_pagamento;
             PaymentHistory.usuario_id := session_usuario_id req;
             PaymentHistory.client_id := Loan.cliente_id cobranca |} in
        (Success,
         {| clientes := clientes db;
            cobrancas := update_loan cobranca' (cobrancas db);
            parcelas := parcelas db;
            pagamentos := pagamentos db ++ [novo_pagamento];
            historico_pagamentos := historico_pagamentos db ++ [novo_historico];
            configuracoes := configuracoes db;
            cobrancas_id_seq := cobrancas_id_seq db;
            parcelas_id_seq := parcelas_id_seq db |})
  end.

(** [marcar_parcela_paga], POST: settles one installment. *)
Definition marcar_parcela_paga (req : Request) (id : Z) (db : DB)
    : Response * DB :=
  match get_installment db id with
  | None => (NotFound, db)
  | Some parcela =>
  match get_loan db (Installment.cobranca_id parcela) with
  | None => (ServerError, db)    (* [parcela.loan] is None *)
  | Some cobranca =>
      if decide (Installment.status parcela = Pago) then (ParcelaJaPaga, db)
      else
        let parcela' :=
          {| Installment.id := Installment.id parcela;
             Installment.cobranca_id := Installment.cobranca_id parcela;
             Installment.numero_parcela := Installment.numero_parcela parcela;
             Installment.valor := Installment.valor parcela;
             Installment.data_vencimento := Installment.data_vencimento parcela;
             Installment.status := Pago;
             Installment.valor_pago := Installment.valor parcela;
             Installment.data_pagamento := Some (today req);
             Installment.forma_pagamento := Some "Dinheiro";
             Installment.multa_manual := Installment.multa_manual parcela;
             Installment.client_id := Installment.client_id parcela |} in
        let valor_atual_cobranca := Loan.valor_pago cobranca in
        let valor_parcela := Installment.valor parcela in
        let valor_pago' := (valor_atual_cobranca + valor_parcela)%Qc in
        let novo_historico :=
          {| PaymentHistory.cobranca_id := Loan.id cobranca;
             PaymentHistory.cliente_id := Loan.cliente_id cobranca;
             PaymentHistory.valor_pago := Installment.valor parcela;
             PaymentHistory.forma_pagamento := "Dinheiro";
             PaymentHistory.observacoes :=
               "Pagamento da parcela " +:+ pretty (Installment.numero_parcela parcela);
             PaymentHistory.usuario_id := session_usuario_id req;
             PaymentHistory.client_id := Loan.cliente_id cobranca |} in
        match Loan.valor_total cobranca with
        | None => (Rollback, db)   (* float(None) raises TypeError *)
        | Some valor_total =>
            let quitada := bool_decide (valor_total ≤ valor_pago')%Qc in
            let cobranca' :=
              {| Loan.id := Loan.id cobranca;
                 Loan.cliente_id := Loan.cliente_id cobranca;
                 Loan.valor_original := Loan.valor_original cobranca;
                 Loan.valor_pago := valor_pago';
                 Loan.desconto := Loan.desconto cobranca;
                 Loan.valor_total := Loan.valor_total cobranca;
                 Loan.taxa_juros := Loan.taxa_juros cobranca;
                 Loan.data_vencimento := Loan.data_vencimento cobranca;
                 Loan.data_pagamento :=
                   if quitada then Some (today req) else Loan.data_pagamento cobranca;
                 Loan.status := if quitada then Pago else Loan.status cobranca;
                 Loan.numero_parcelas := Loan.numero_parcelas cobranca;
                 Loan.client_id := Loan.client_id cobranca |} in
            (Success,
             {| clientes := clientes db;
                cobrancas := update_loan cobranca' (cobrancas db);
                parcelas := update_installment parcela' (parcelas db);
                pagamentos := pagamentos db;
                historico_pagamentos := historico_pagamentos db ++ [novo_historico];
                configuracoes := configuracoes db;
                cobrancas_id_seq := cobrancas_id_seq db;
                parcelas_id_seq := parcelas_id_seq db |})
        end
  end end.

(** [editar_multa_parcela], POST; an empty field clears the penalty. *)
Definition editar_multa_parcela (id : Z) (multa_input : option money) (db : DB)
    : Response * DB :=
  match get_installment db id with
  | None => (NotFound, db)
  | Some parcela =>
      let com_multa (m : option money) :=
        {| Installment.id := Installment.id parcela;
           Installment.cobranca_id := Installment.cobranca_id parcela;
           Installment.numero_parcela := Installment.numero_parcela parcela;
           Installment.valor := Installment.valor parcela;
           Installment.data_vencimento := Installment.data_vencimento parcela;
           Installment.status := Installment.status parcela;
           Installment.valor_pago := Installment.valor_pago parcela;
           Installment.data_pagamento := Installment.data_pagamento parcela;
           Installment.forma_pagamento := Installment.forma_pagamento parcela;
           Installment.multa_manual := m;
           Installment.client_id := Installment.client_id parcela |} in
      let commit (m : option money) :=
        {| clientes := clientes db;
           cobrancas := cobrancas db;
           parcelas := update_installment (com_multa m) (parcelas db);
           pagamentos := pagamentos db;
           historico_pagamentos := historico_pagamentos db;
           configuracoes := configuracoes db;
           cobrancas_id_seq := cobrancas_id_seq db;
           parcelas_id_seq := parcelas_id_seq db |} in
      match multa_input with
      | Some multa_valor =>
          if decide (multa_valor < 0)%Qc then (ValorInvalido, db)
          else (Success, commit (Some multa_valor))
      | None => (Success, commit None)
      end
  end.

(** [editar_data_parcela], POST. *)
Definition editar_data_parcela (id : Z) (nova_data : option date) (db : DB)
    : Response * DB :=
  match get_installment db id with
  | None => (NotFound, db)
  | Some parcela =>
      match nova_data with
      | None => (CampoObrigatorio, db)
      | Some nova_data =>
          if decide (weekday nova_data = 6) then (DomingoNaoPermitido, db)
          else
            let parcela' :=
              {| Installment.id := Installment.id parcela;
                 Installment.cobranca_id := Installment.cobranca_id parcela;
                 Installment.numero_parcela := Installment.numero_parcela parcela;
                 Installment.valor := Installment.valor parcela;
                 Installment.data_vencimento := nova_data;
                 Installment.status := Installment.status parcela;
                 Installment.valor_pago := Installment.valor_pago parcela;
                 Installment.data_pagamento := Installment.data_pagamento parcela;
                 Installment.forma_pagamento := Installment.forma_pagamento parcela;
                 Installment.multa_manual := Installment.multa_manual parcela;
                 Installment.client_id := Installment.client_id parcela |} in
            (Success,
             {| clientes := clientes db;
                cobrancas := cobrancas db;
                parcelas := update_installment parcela' (parcelas db);
                pagamentos := pagamentos db;
                historico_pagamentos := historico_pagamentos db;
                configuracoes := configuracoes db;
                cobrancas_id_seq := cobrancas_id_seq db;
                parcelas_id_seq := parcelas_id_seq db |})
      end
  end.

(** [deletar_cliente], POST: deletes the customer; the cascade deletes the
    customer's loans with their rows, and the customer's payment history. *)
Definition deletar_cliente (cliente_id : Z) (db : DB) : Response * DB :=
  match List.find (fun c => bool_decide (Customer.id c = cliente_id)) (clientes db) with
  | None => (ClienteNaoEncontrado, db)
  | Some cliente =>
      let do_cliente (cobranca_id : Z) : bool :=
        existsb (fun l => bool_decide (Loan.id l = cobranca_id)) (loans_of db cliente) in
      (Success,
       {| clientes :=
            List.filter (fun c => negb (bool_decide (Customer.id c = cliente_id)))
              (clientes db);
          cobrancas :=
            List.filter (fun l => negb (bool_decide (Loan.cliente_id l = cliente_id)))
              (cobrancas db);
          parcelas :=
            List.filter (fun p => negb (do_cliente (Installment.cobranca_id p)))
              (parcelas db);
          pagamentos :=
            List.filter (fun p => negb (do_cliente (Payment.cobranca_id p)))
              (pagamentos db);
          historico_pagamentos :=
            List.filter
              (fun h => negb (do_cliente (PaymentHistory.cobranca_id h)
                              || bool_decide (PaymentHistory.cliente_id h = cliente_id)))
              (historico_pagamentos db);
          configuracoes := configuracoes db;
          cobrancas_id_seq := cobrancas_id_seq db;
          parcelas_id_seq := parcelas_id_seq db |})
  end.

(** ** Requests as a transition system *)

(** The POST requests that touch loans and installments. *)
Inductive Op :=
| AdicionarCobranca (form : CobrancaForm)
| EditarCobranca (id : Z) (form : EditarForm)
| CancelarCobranca (cobranca_id : Z)
| RegistrarPagamento (id : Z) (valor_a_pagar : money) (observacao : string)
| MarcarParcelaPaga (id : Z)
| EditarMultaParcela (id : Z) (multa_input : option money)
| EditarDataParcela (id : Z) (nova_data : option date)
| DeletarCliente (cliente_id : Z).

Definition handle (req : Request) (op : Op) (db : DB) : Response * DB :=
  match op with
  | AdicionarCobranca form => adicionar_cobranca form db
  | EditarCobranca id form => editar_cobranca id form db
  | CancelarCobranca id => cancelar_cobranca id db
  | RegistrarPagamento id v obs => registrar_pagamento req id v obs db
  | MarcarParcelaPaga id => marcar_parcela_paga req id db
  | EditarMultaParcela id m => editar_multa_parcela id m db
  | EditarDataParcela id d => editar_data_parcela id d db
  | DeletarCliente id => deletar_cliente id db
  end.

(** The handlers that register and edit customers and settings write the
    tables [clientes] and [configuracoes] only; they are represented by their
    effect, an arbitrary new content of these two tables. *)
Definition with_clientes (cs : list Customer.t) (cfg : list Configuration.t)
    (db : DB) : DB :=
  {| clientes := cs;
     cobrancas := cobrancas db;
     parcelas := parcelas db;
     pagamentos := pagamentos db;
     historico_pagamentos := historico_pagamentos db;
     configuracoes := cfg;
     cobrancas_id_seq := cobrancas_id_seq db;
     parcelas_id_seq := parcelas_id_seq db |}.

(** The stores the application can be in, starting from empty tables. *)
Inductive reachable : DB -> Prop :=
| reach_empty : reachable empty_db
| reach_handle db req op : reachable db -> reachable (handle req op db).2
| reach_clientes db cs cfg : reachable db -> reachable (with_clientes cs cfg db).

(** The stores that requests produce from a given store. *)
Inductive reachable_from (db0 : DB) : DB -> Prop :=
| from_here : reachable_from db0 db0
| from_handle db req op :
    reachable_from db0 db -> reachable_from db0 (handle req op db).2
| from_clientes db cs cfg :
    reachable_from db0 db -> reachable_from db0 (with_clientes cs cfg db).

(** ** Read paths *)

(** [sum(xs)], and the loops [saldo += x]: a left fold from 0. *)
Definition sum_money (xs : list money) : money := foldl Qcplus 0%Qc xs.

(** [float(parcela.multa_manual or 0)] *)
Definition multa_or_0 (p : Installment.t) : money :=
  match Installment.multa_manual p with
  | Some m => m
  | None => 0%Qc
  end.

Definition is_pendente (p : Installment.t) : bool :=
  bool_decide (Installment.status p = Pendente).

Definition loan_pendente (l : Loan.t) : bool :=
  bool_decide (Loan.status l = Pendente).

(** [query(Installment).join(Loan)]: the pairs of an installment and a loan
    that it references. *)
Definition join_loan (db : DB) : list (Installment.t * Loan.t) :=
  flat_map
    (fun p =>
       List.map (fun l => (p, l))
         (List.filter (fun l => bool_decide (Loan.id l = Installment.cobranca_id p))
            (cobrancas db)))
    (parcelas db).

(** [.join(Loan).join(Customer)] *)
Definition join_loan_customer (db : DB)
    : list (Installment.t * Loan.t * Customer.t) :=
  flat_map
    (fun pl =>
       List.map (fun c => (pl, c))
         (List.filter (fun c => bool_decide (Customer.id c = Loan.cliente_id pl.2))
            (clientes db)))
    (join_loan db).

(** The pending installments of the pending loans, as [index] and
    [api_relatorios_kpis] select them. *)
Definition parcelas_pendentes_query (db : DB) : list Installment.t :=
  List.map fst
    (List.filter (fun pl => loan_pendente pl.2 && is_pendente pl.1) (join_loan db)).

(** [index], part 2, and [api_relatorios_kpis]: the total outstanding
    balance. *)
Definition saldo_devedor_total (db : DB) : money :=
  sum_money
    (List.map (fun parcela => (Installment.valor parcela + multa_or_0 parcela)%Qc)
       (parcelas_pendentes_query db)).

(** [index], part 3: the balance of one company, the sum of the amounts
    plus the sum of the manual penalties. *)
Definition kpi_saldo_devedor (db : DB) (emp : string) : money :=
  let rows :=
    List.filter
      (fun plc => bool_decide (Customer.empresa plc.2 = emp)
                  && loan_pendente plc.1.2 && is_pendente plc.1.1)
      (join_loan_customer db) in
  let saldo_emp := sum_money (List.map (fun plc => Installment.valor plc.1.1) rows) in
  let multas_emp := sum_money (List.map (fun plc => multa_or_0 plc.1.1) rows) in
  (saldo_emp + multas_emp)%Qc.

(** [index], part 1, and [api_relatorios_kpis]: the counts. *)
Record Stats := mkStats {
  total_clientes : nat;
  cobrancas_pendentes : nat;
  cobrancas_vencidas : nat;
  cobrancas_pagas : nat;
  stats_saldo_devedor_total : money }.

Definition stats (hoje : date) (db : DB) : Stats :=
  {| total_clientes := length (clientes db);
     cobrancas_pendentes :=
       length (List.filter (fun l => bool_decide (Loan.status l = Pendente)) (cobrancas db));
     cobrancas_vencidas :=
       length
         (List.filter
            (fun l => bool_decide (Loan.status l = Pendente)
                      && bool_decide (date_lt (Loan.data_vencimento l) hoje))
            (cobrancas db));
     cobrancas_pagas :=
       length (List.filter (fun l => bool_decide (Loan.status l = Pago)) (cobrancas db));
     stats_saldo_devedor_total := saldo_devedor_total db |}.

(** [index], part 4: [saldo_cob], the balance shown for a listed loan. *)
Definition saldo_cob (db : DB) (cob : Loan.t) : money :=
  sum_money
    (List.map (fun p => (Installment.valor p + multa_or_0 p)%Qc)
       (List.filter is_pendente (installments_of db cob))).

(** [index], part 5, and [listar_clientes]: the balance of a customer, over
    the pending installments of the customer's pending loans. *)
Definition saldo_devedor_cliente (db : DB) (cli : Customer.t) : money :=
  sum_money
    (List.map (fun cob => saldo_cob db cob)
       (List.filter loan_pendente (loans_of db cli))).

(** [sorted(cobranca.installments, key=lambda p: p.numero_parcela)] *)
Definition numero_parcela_le (p q : Installment.t) : Prop :=
  Installment.numero_parcela p <= Installment.numero_parcela q.

Global Instance numero_parcela_le_dec : RelDecision numero_parcela_le.
Proof. intros p q. unfold numero_parcela_le. apply _. Defined.

Definition sorted_by_numero_parcela (ps : list Installment.t) : list Installment.t :=
  merge_sort numero_parcela_le ps.

(** [visualizar_cliente]: [saldo_devedor_calculado], the balance shown for a
    loan on the customer page. *)
Definition saldo_devedor_calculado (db : DB) (cobranca : Loan.t) : money :=
  let parcelas := sorted_by_numero_parcela (installments_of db cobranca) in
  let saldo_devedor_cobranca :=
    foldl
      (fun saldo parcela =>
         let multa_manual := multa_or_0 parcela in
         let valor_atualizado := (Installment.valor parcela + multa_manual)%Qc in
         if is_pendente parcela then (saldo + valor_atualizado)%Qc else saldo)
      0%Qc parcelas in
  (saldo_devedor_cobranca - Loan.valor_pago cobranca)%Qc.

(** The balance rule in the words of the design document: the sum over the
    pending installments of the amount plus the manual penalty, the penalty
    counted when it is positive. *)
Definition spec_outstanding_balance (installments : list Installment.t) : money :=
  sum_money
    (List.map
       (fun p =>
          match Installment.status p with
          | Pendente =>
              (Installment.valor p
               + match Installment.multa_manual p with
                 | Some m => if decide (0 ≤ m)%Qc then m else 0
                 | None => 0
                 end)%Qc
          | Pago => 0%Qc
          end)
       installments).

(** ** The accrual calculator *)

(** The dictionary that [calcular_valor_atualizado] receives. *)
Module Cobranca.
Record t := mk {
  status : Status;
  data_vencimento : option date;
  valor_original : money;
  desconto : option money }.
End Cobranca.

Record ValorAtualizado := mkValorAtualizado {
  multa : money;
  juros : money;
  valor_total : money;
  dias_atraso : Z }.

(** [{row['chave']: row['valor'] for row in config_rows}] over
    [SELECT chave, valor FROM configuracoes]: a later row replaces an earlier
    one with the same key. *)
Definition load_config (config_rows : list Configuration.t) : gmap string money :=
  foldl (fun config row => <[Configuration.chave row := Configuration.valor row]> config)
    ∅ config_rows.

(** [int(text)]: the text must spell an integer, else [ValueError]. *)
Definition py_int (x : money) : option Z :=
  if decide (Qden (this x) = 1%positive) then Some (Qnum (this x)) else None.

(** [calcular_valor_atualizado]; [hoje] is [datetime.now()], and [None] is a
    [ValueError] raised by [int]. *)
Definition calcular_valor_atualizado (hoje : datetime) (db : DB) (cobranca : Cobranca.t)
    : option ValorAtualizado :=
  let desconto := default 0%Qc (Cobranca.desconto cobranca) in
  let sem_acrescimo :=
    Some {| multa := 0%Qc;
            juros := 0%Qc;
            valor_total := (Cobranca.valor_original cobranca - desconto)%Qc;
            dias_atraso := 0 |} in
  if decide (Cobranca.status cobranca = Pago) then sem_acrescimo
  else
    match Cobranca.data_vencimento cobranca with
    | None => sem_acrescimo
    | Some data_vencimento =>
        let data_venc := combine_min data_vencimento in
        if decide (datetime_gt hoje data_venc) then
          let dias_atraso := timedelta_days (datetime_sub hoje data_venc) in
          let config := load_config (configuracoes db) in
          match py_int (default (of_int 3) (config !! "dias_tolerancia")) with
          | None => None
          | Some dias_tolerancia =>
              if decide (dias_tolerancia < dias_atraso) then
                let taxa_multa := default (of_int 10) (config !! "taxa_multa") in
                let multa :=
                  (Cobranca.valor_original cobranca * (taxa_multa / of_int 100))%Qc in
                let taxa_juros := default (of_int 2) (config !! "taxa_juros_mensal") in
                let meses_atraso := (of_int dias_atraso / of_int 30)%Qc in
                let juros :=
                  (Cobranca.valor_original cobranca * (taxa_juros / of_int 100)
                   * meses_atraso)%Qc in
                Some {| multa := round2 multa;
                        juros := round2 juros;
                        valor_total :=
                          round2 (Cobranca.valor_original cobranca + multa + juros
                                  - desconto)%Qc;
                        dias_atraso := dias_atraso |}
              else sem_acrescimo
          end
        else sem_acrescimo
    end.

(** ** Invariants of the store *)

(** Keys are unique and below their sequences, an installment references a
    loan of the store, and every loan has a total due. *)
Definition wf_tables (ls : list Loan.t) (ps : list Installment.t) (seq_l seq_p : Z)
    : Prop :=
  NoDup (List.map Loan.id ls) /\
  NoDup (List.map Installment.id ps) /\
  (forall l, l ∈ ls -> Loan.id l < seq_l) /\
  (forall p, p ∈ ps -> Installment.id p < seq_p) /\
  (forall p, p ∈ ps -> exists l, l ∈ ls /\ Loan.id l = Installment.cobranca_id p) /\
  (forall l, l ∈ ls -> is_Some (Loan.valor_total l)).

Definition wf (db : DB) : Prop :=
  wf_tables (cobrancas db) (parcelas db) (cobrancas_id_seq db) (parcelas_id_seq db).

(** What a request may do to an installment row that it keeps: the key,
    the loan, the number and the amount stay; a paid row stays paid; the due
    date stays unless the request is the due-date edit of this row; the
    manual penalty stays or becomes one that is not negative. *)
Definition evolves (op : Op) (p0 p' : Installment.t) : Prop :=
  Installment.id p' = Installment.id p0 /\
  Installment.cobranca_id p' = Installment.cobranca_id p0 /\
  Installment.numero_parcela p' = Installment.numero_parcela p0 /\
  Installment.valor p' = Installment.valor p0 /\
  (Installment.status p0 = Pago -> Installment.status p' = Pago) /\
  (Installment.data_vencimento p' = Installment.data_vencimento p0
   \/ exists d, op = EditarDataParcela (Installment.id p0) (Some d) /\
                weekday d <> 6 /\ Installment.data_vencimento p' = d) /\
  (Installment.multa_manual p' = Installment.multa_manual p0
   \/ forall m, Installment.multa_manual p' = Some m -> (0 ≤ m)%Qc).

(** The amounts of the pending installments of a loan. *)
Definition pendentes_de (ps : list Installment.t) (cobranca_id : Z) : list money :=
  List.map Installment.valor
    (List.filter
       (fun p => bool_decide (Installment.cobranca_id p = cobranca_id) && is_pendente p)
       ps).

(** The relation that the ledger keeps between the total due, the paid
    amount and the status of a loan and its pending installments.  The
    installments of a loan have one sign, the sign of its total due.  When
    they are not negative, a paid loan has at least its total due paid; when
    they are not positive, the paid amount is at least the total due less
    what is pending. *)
Definition ledger_ok (total paid : money) (status : Status) (pendentes : list money)
    : Prop :=
  (Forall (fun v => (0 ≤ v)%Qc) pendentes /\ (status = Pago -> (total ≤ paid)%Qc))
  \/ (Forall (fun v => (v ≤ 0)%Qc) pendentes /\
      (total - sum_money pendentes ≤ paid)%Qc).

Definition ledger_tables (ls : list Loan.t) (ps : list Installment.t) : Prop :=
  forall l, l ∈ ls ->
    exists total, Loan.valor_total l = Some total /\
      ledger_ok total (Loan.valor_pago l) (Loan.status l) (pendentes_de ps (Loan.id l)).

Definition ledger (db : DB) : Prop := ledger_tables (cobrancas db) (parcelas db).

(** ** Tenants *)

(** The rows of a store that carry the identifier of a tenant. *)
Definition tenant_rows (tenant : Z) (db : DB) : DB :=
  {| clientes :=
       List.filter (fun c => bool_decide (Customer.client_id c = Some tenant)) (clientes db);
     cobrancas :=
       List.filter (fun l => bool_decide (Loan.client_id l = Some tenant)) (cobrancas db);
     parcelas :=
       List.filter (fun p => bool_decide (Installment.client_id p = Some tenant))
         (parcelas db);
     pagamentos :=
       List.filter (fun p => bool_decide (Payment.client_id p = tenant)) (pagamentos db);
     historico_pagamentos :=
       List.filter (fun h => bool_decide (PaymentHistory.client_id h = tenant))
         (historico_pagamentos db);
     configuracoes :=
       List.filter (fun c => bool_decide (Configuration.client_id c = tenant))
         (configuracoes db);
     cobrancas_id_seq := cobrancas_id_seq db;
     parcelas_id_seq := parcelas_id_seq db |}.

(** A store with the tenant identifier of every row replaced, row by row. *)
Record Retag := mkRetag {
  retag_customer : Customer.t -> option Z;
  retag_loan : Loan.t -> option Z;
  retag_installment : Installment.t -> option Z;
  retag_payment : Payment.t -> Z;
  retag_history : PaymentHistory.t -> Z;
  retag_configuration : Configuration.t -> Z }.

Definition retag_customer_row (r : Retag) (c : Customer.t) : Customer.t :=
  {| Customer.id := Customer.id c;
     Customer.empresa := Customer.empresa c;
     Customer.client_id := retag_customer r c |}.

Definition retag_loan_row (r : Retag) (l : Loan.t) : Loan.t :=
  {| Loan.id := Loan.id l;
     Loan.cliente_id := Loan.cliente_id l;
     Loan.valor_original := Loan.valor_original l;
     Loan.valor_pago := Loan.valor_pago l;
     Loan.desconto := Loan.desconto l;
     Loan.valor_total := Loan.valor_total l;
     Loan.taxa_juros := Loan.taxa_juros l;
     Loan.data_vencimento := Loan.data_vencimento l;
     Loan.data_pagamento := Loan.data_pagamento l;
     Loan.status := Loan.status l;
     Loan.numero_parcelas := Loan.numero_parcelas l;
     Loan.client_id := retag_loan r l |}.

Definition retag_installment_row (r : Retag) (p : Installment.t) : Installment.t :=
  {| Installment.id := Installment.id p;
     Installment.cobranca_id := Installment.cobranca_id p;
     Installment.numero_parcela := Installment.numero_parcela p;
     Installment.valor := Installment.valor p;
     Installment.data_vencimento := Installment.data_vencimento p;
     Installment.status := Installment.status p;
     Installment.valor_pago := Installment.valor_pago p;
     Installment.data_pagamento := Installment.data_pagamento p;
     Installment.forma_pagamento := Installment.forma_pagamento p;
     Installment.multa_manual := Installment.multa_manual p;
     Installment.client_id := retag_installment r p |}.

Definition retag_configuration_row (r : Retag) (c : Configuration.t) : Configuration.t :=
  {| Configuration.chave := Configuration.chave c;
     Configuration.valor := Configuration.valor c;
     Configuration.client_id := retag_configuration r c |}.

Definition retag (r : Retag) (db : DB) : DB :=
  {| clientes := List.map (retag_customer_row r) (clientes db);
     cobrancas := List.map (retag_loan_row r) (cobrancas db);
     parcelas := List.map (retag_installment_row r) (parcelas db);
     pagamentos :=
       List.map
         (fun p => {| Payment.cobranca_id := Payment.cobranca_id p;
                      Payment.valor_pago := Payment.valor_pago p;
                      Payment.data_pagamento := Payment.data_pagamento p;
                      Payment.observacao := Payment.observacao p;
                      Payment.forma_pagamento := Payment.forma_pagamento p;
                      Payment.usuario_id := Payment.usuario_id p;
                      Payment.client_id := retag_payment r p |})
         (pagamentos db);
     historico_pagamentos :=
       List.map
         (fun h => {| PaymentHistory.cobranca_id := PaymentHistory.cobranca_id h;
                      PaymentHistory.cliente_id := PaymentHistory.cliente_id h;
                      PaymentHistory.valor_pago := PaymentHistory.valor_pago h;
                      PaymentHistory.forma_pagamento := PaymentHistory.forma_pagamento h;
                      PaymentHistory.observacoes := PaymentHistory.observacoes h;
                      PaymentHistory.usuario_id := PaymentHistory.usuario_id h;
                      PaymentHistory.client_id := retag_history r h |})
         (historico_pagamentos db);
     configuracoes := List.map (retag_configuration_row r) (configuracoes db);
     cobrancas_id_seq := cobrancas_id_seq db;
     parcelas_id_seq := parcelas_id_seq db |}.

(** ** Sample data *)

(** 2024-06-01, a Saturday; 2024-06-02, a Sunday; 2024-06-03, a Monday. *)
Definition sabado : date := Date 739038.
Definition domingo : date := Date 739039.
Definition segunda : date := Date 739040.

Definition requisicao : Request := mkRequest segunda (Some 1).

(** One registered customer and no loan. *)
Definition db_cliente : DB :=
  with_clientes [Customer.mk 1 "FH1" None] [] empty_db.

(** A loan of 1000 at the 30% tier, first due on the Saturday. *)
Definition form_1000_30 : CobrancaForm :=
  mkCobrancaForm 1 (of_int 1000) (of_int 30) sabado.

Definition form_domingo : CobrancaForm :=
  mkCobrancaForm 1 (of_int 1000) (of_int 30) domingo.

Definition db_emprestimo : DB := (adicionar_cobranca form_1000_30 db_cliente).2.

(** An edit of that loan that submits a tier of 45% and 3 installments. *)
Definition form_editar_45 : EditarForm :=
  mkEditarForm (Some (of_int 1000)) (Some segunda) (Some (of_int 45)) (Some 3).

(** The sample loan after its first installment was settled. *)
Definition db_parcela_paga : DB := (marcar_parcela_paga requisicao 1 db_emprestimo).2.

(** The first installment of the sample loan, as generated. *)
Definition parcela_1 : Installment.t :=
  nova_parcela 1 1 1
    (of_int 1000 * (1 + of_int 30 / of_int 100) / of_int 10)%Qc sabado.

(** The same installment once settled on the Monday. *)
Definition parcela_1_paga : Installment.t :=
  {| Installment.id := 1;
     Installment.cobranca_id := 1;
     Installment.numero_parcela := 1;
     Installment.valor := (of_int 1000 * (1 + of_int 30 / of_int 100) / of_int 10)%Qc;
     Installment.data_vencimento := sabado;
     Installment.status := Pago;
     Installment.valor_pago :=
       (of_int 1000 * (1 + of_int 30 / of_int 100) / of_int 10)%Qc;
     Installment.data_pagamento := Some segunda;
     Installment.forma_pagamento := Some "Dinheiro";
     Installment.multa_manual := None;
     Installment.client_id := None |}.

(** The settings of one tenant: a tolerance of 3 days, a penalty of 10% and
    a monthly interest of 2%. *)
Definition db_configurado : DB :=
  with_clientes []
    [Configuration.mk "dias_tolerancia" (of_int 3) 1;
     Configuration.mk "taxa_multa" (of_int 10) 1;
     Configuration.mk "taxa_juros_mensal" (of_int 2) 1]
    empty_db.

(** An unpaid charge of 1000 due on the Saturday, and ten o'clock of the
    33rd day after it. *)
Definition cobranca_1000 : Cobranca.t :=
  Cobranca.mk Pendente (Some sabado) (of_int 1000) None.

Definition dia_33_10h : datetime :=
  DateTime ((toordinal sabado + 33) * us_per_day + 36000000000).

(** A run of requests. *)
Definition run (req : Request) (ops : list Op) (db : DB) : DB :=
  foldl (fun db op => (handle req op db).2) db ops.

(** The sample loan with its first nine installments settled, and with all
    ten settled. *)
Definition db_nove_pagas : DB :=
  run requisicao (List.map MarcarParcelaPaga (seqZ 1 9)) db_emprestimo.

Definition db_quitada : DB :=
  run requisicao (List.map MarcarParcelaPaga (seqZ 1 10)) db_emprestimo.

(** The sample loan after a free-form payment of its whole total due. *)
Definition db_pagamento_total : DB :=
  (registrar_pagamento requisicao 1 (of_int 1300) "" db_emprestimo).2.

(** The settled installment with its due date moved to the Monday. *)
Definition parcela_1_paga_segunda : Installment.t :=
  {| Installment.id := 1;
     Installment.cobranca_id := 1;
     Installment.numero_parcela := 1;
     Installment.valor := (of_int 1000 * (1 + of_int 30 / of_int 100) / of_int 10)%Qc;
     Installment.data_vencimento := segunda;
     Installment.status := Pago;
     Installment.valor_pago :=
       (of_int 1000 * (1 + of_int 30 / of_int 100) / of_int 10)%Qc;
     Installment.data_pagamento := Some segunda;
     Installment.forma_pagamento := Some "Dinheiro";
     Installment.multa_manual := None;
     Installment.client_id := None |}.

(** The sample loan, as generated. *)
Definition emprestimo_1 : Loan.t :=
  {| Loan.id := 1;
     Loan.cliente_id := 1;
     Loan.valor_original := of_int 1000;
     Loan.valor_pago := 0%Qc;
     Loan.desconto := 0%Qc;
     Loan.valor_total := Some (of_int 1000 * (1 + of_int 30 / of_int 100))%Qc;
     Loan.taxa_juros := of_int 30;
     Loan.data_vencimento := sabado;
     Loan.data_pagamento := None;
     Loan.status := Pendente;
     Loan.numero_parcelas := 10;
     Loan.client_id := None |}.

(** Two tenants.  Tenant 1 has a customer, a pending loan with one pending
    installment of 100, and a tolerance of 3 days; tenant 2 has the same
    with an installment of 500 and a tolerance of 10 days. *)
Definition linhas_tenant (tenant id : Z) (valor dias : Z) : DB :=
  {| clientes := [Customer.mk id "FH1" (Some tenant)];
     cobrancas :=
       [ {| Loan.id := id; Loan.cliente_id := id;
            Loan.valor_original := of_int valor; Loan.valor_pago := 0%Qc;
            Loan.desconto := 0%Qc; Loan.valor_total := Some (of_int valor);
            Loan.taxa_juros := of_int 30; Loan.data_vencimento := sabado;
            Loan.data_pagamento := None; Loan.status := Pendente;
            Loan.numero_parcelas := 1; Loan.client_id := Some tenant |} ];
     parcelas :=
       [ {| Installment.id := id; Installment.cobranca_id := id;
            Installment.numero_parcela := 1; Installment.valor := of_int valor;
            Installment.data_vencimento := sabado; Installment.status := Pendente;
            Installment.valor_pago := 0%Qc; Installment.data_pagamento := None;
            Installment.forma_pagamento := None; Installment.multa_manual := None;
            Installment.client_id := Some tenant |} ];
     pagamentos := [];
     historico_pagamentos := [];
     configuracoes := [Configuration.mk "dias_tolerancia" (of_int dias) tenant];
     cobrancas_id_seq := 3;
     parcelas_id_seq := 3 |}.

Definition db_um_tenant : DB := linhas_tenant 1 1 100 3.

Definition db_dois_tenants : DB :=
  {| clientes := clientes db_um_tenant ++ clientes (linhas_tenant 2 2 500 10);
     cobrancas := cobrancas db_um_tenant ++ cobrancas (linhas_tenant 2 2 500 10);
     parcelas := parcelas db_um_tenant ++ parcelas (linhas_tenant 2 2 500 10);
     pagamentos := [];
     historico_pagamentos := [];
     configuracoes :=
       configuracoes db_um_tenant ++ configuracoes (linhas_tenant 2 2 500 10);
     cobrancas_id_seq := 3;
     parcelas_id_seq := 3 |}.

(** ** The rows of a loan *)

(** The relationships [loan.payment_histories] and [loan.payments]. *)
Definition historico_de (db : DB) (cobranca_id : Z) : list PaymentHistory.t :=
  List.filter (fun h => bool_decide (PaymentHistory.cobranca_id h = cobranca_id))
    (historico_pagamentos db).

Definition pagamentos_de (db : DB) (cobranca_id : Z) : list Payment.t :=
  List.filter (fun p => bool_decide (Payment.cobranca_id p = cobranca_id))
    (pagamentos db).

(** A schedule without its keys: the number, the amount, the due date and
    the status of each installment. *)
Definition escalonamento (ps : list Installment.t)
    : list (Z * money * date * Status) :=
  List.map
    (fun p => (Installment.numero_parcela p, Installment.valor p,
               Installment.data_vencimento p, Installment.status p))
    ps.

(** The payment rows and the history rows reference a loan of the store, and
    a history row carries the customer of its loan. *)
Definition refs (db : DB) : Prop :=
  (forall h, h ∈ historico_pagamentos db ->
     exists l, l ∈ cobrancas db /\ Loan.id l = PaymentHistory.cobranca_id h
               /\ Loan.cliente_id l = PaymentHistory.cliente_id h) /\
  (forall p, p ∈ pagamentos db ->
     exists l, l ∈ cobrancas db /\ Loan.id l = Payment.cobranca_id p).

(** The paid amount of a loan is what its history rows add up to. *)
Definition historico_soma (db : DB) : Prop :=
  forall l, l ∈ cobrancas db ->
    Loan.valor_pago l
    = sum_money (List.map PaymentHistory.valor_pago (historico_de db (Loan.id l))).

(** [empresas] in [index]: the companies of the dashboard. *)
Definition empresas : list string := ["FH1"; "FH2"; "FH3"; "FH4"].

(** The payment fields of an installment agree with its status: a pending
    installment has nothing paid, no payment date and no payment method; a
    paid one has its amount paid, a payment date and the method 'Dinheiro'.
    A manual penalty is not negative. *)
Definition parcela_coerente (p : Installment.t) : Prop :=
  match Installment.status p with
  | Pendente =>
      Installment.valor_pago p = 0%Qc /\
      Installment.data_pagamento p = None /\
      Installment.forma_pagamento p = None
  | Pago =>
      Installment.valor_pago p = Installment.valor p /\
      is_Some (Installment.data_pagamento p) /\
      Installment.forma_pagamento p = Some "Dinheiro"
  end /\
  forall m, Installment.multa_manual p = Some m -> (0 ≤ m)%Qc.

(** ** Users, sessions and access control *)

(** This part of the application has its own tables.  Two library functions
    are taken as given: [check_password_hash] and [generate_password_hash]
    of [werkzeug.security]; the salt that the latter draws at random is an
    argument here.  A [commit] that the database may refuse (a uniqueness, a
    NOT NULL or a foreign-key violation) is decided by an argument of the
    handler:
    [true] for a commit that succeeds, [false] for one that raises. *)

(** [Client], table [clients]: the tenants. *)
Module Client.
Record t := mk {
    id : Z;
    name : string;
    plan : string }.
End Client.

(** [User], table [usuarios]. *)
Module User.
Record t := mk {
    id : Z;
    nome : string;
    email : string;
    senha : string;
    tipo : string;
    nivel : string;
    client_id : option Z }.
End User.

Record Contas := mkContas {
  clients : list Client.t;
  usuarios : list User.t;
  clients_id_seq : Z;
  usuarios_id_seq : Z }.

Definition contas_vazias : Contas := mkContas [] [] 1 1.

(** The Flask [session], a dictionary: the keys that [login] sets, [None]
    for an absent key. *)
Record Session := mkSession {
  usuario_id : option Z;
  usuario_nome : option string;
  usuario_tipo : option string;
  usuario_nivel : option string }.

(** [session.clear()] *)
Definition session_clear : Session := mkSession None None None None.

(** [User.query.get(id)] *)
Definition get_user (contas : Contas) (id : Z) : option User.t :=
  List.find (fun u => bool_decide (User.id u = id)) (usuarios contas).

(** The flash messages of the decorators that redirect to the dashboard. *)
Inductive Negado :=
| ApenasAdministradoresPodemAcessar  (* [admin_required]: 'Acesso negado. ...' *)
| AcessoNaoAutorizado                (* [gerente_required] *)
| AcessoNaoAutorizadoApenasAdministradores.  (* [adm_required] *)

(** What a decorated view returns: the redirect of a decorator, or what the
    view itself returns. *)
Inductive Resultado (A : Type) :=
| RedirectLogin (category : string)  (* flash 'Por favor, faca login ...' *)
| RedirectIndex (flash : Negado)
| Retorno (a : A).

Arguments RedirectLogin {A} category.
Arguments RedirectIndex {A} flash.
Arguments Retorno {A} a.

(** A view reads the session and the store. *)
Definition View (A : Type) : Type := Session -> Contas -> Resultado A.

Definition login_required {A} (f : View A) : View A :=
  fun session contas =>
    match usuario_id session with
    | None => RedirectLogin "warning"
    | Some _ => f session contas
    end.

Definition admin_required {A} (f : View A) : View A :=
  fun session contas =>
    match usuario_id session with
    | None => RedirectLogin "warning"
    | Some _ =>
        if decide (usuario_tipo session <> Some "admin")
        then RedirectIndex ApenasAdministradoresPodemAcessar
        else f session contas
    end.

Definition gerente_required {A} (f : View A) : View A :=
  fun session contas =>
    match usuario_id session with
    | None => RedirectLogin "critical"
    | Some id =>
        match get_user contas id with
        | None => RedirectIndex AcessoNaoAutorizado
        | Some usuario =>
            if decide (User.nivel usuario ∉ ["Gerente"; "ADM"])
            then RedirectIndex AcessoNaoAutorizado
            else f session contas
        end
    end.

Definition adm_required {A} (f : View A) : View A :=
  fun session contas =>
    match usuario_id session with
    | None => RedirectLogin "warning"
    | Some id =>
        match get_user contas id with
        | None => RedirectIndex AcessoNaoAutorizadoApenasAdministradores
        | Some usuario =>
            if decide (User.nivel usuario <> "ADM")
            then RedirectIndex AcessoNaoAutorizadoApenasAdministradores
            else f session contas
        end
    end.

(** [utility_processor]: what the templates ask about the session. *)
Definition get_user_nivel (session : Session) : string :=
  default "Operador" (usuario_nivel session).

Definition can_access_reports (session : Session) : bool :=
  bool_decide (usuario_nivel session ∈ [Some "Gerente"; Some "ADM"]).

Definition can_access_admin (session : Session) : bool :=
  bool_decide (usuario_nivel session = Some "ADM").

Inductive LoginResponse :=
| BemVindo                  (* the session is set; redirect to the dashboard *)
| EmailOuSenhaIncorretos.   (* flash; the login page again *)

Inductive UsuarioResponse :=
| UsuarioSalvo           (* committed; redirect to the list of users *)
| EmailJaCadastrado      (* IntegrityError: rollback, the form again *)
| UsuarioNaoEncontrado   (* flash; redirect to the list of users *)
| UsuarioExcluido        (* committed *)
| ErroAoExcluir          (* an exception at commit: rollback *)
| CampoAusente.          (* [request.form[key]] on an absent key: 400 *)

Section Senhas.
Variable check_password_hash : string -> string -> bool.
Variable generate_password_hash : string -> string -> string.

(** [login], POST. *)
Definition login (email senha : string) (contas : Contas) (session : Session)
    : LoginResponse * Session :=
  match List.find (fun u => bool_decide (User.email u = email)) (usuarios contas) with
  | None => (EmailOuSenhaIncorretos, session)
  | Some usuario =>
      if check_password_hash (User.senha usuario) senha then
        (* [usuario.nivel or 'Operador'] *)
        let nivel :=
          if decide (User.nivel usuario = "") then "Operador" else User.nivel usuario in
        let tipo := if decide (nivel = "ADM") then "admin" else "operador" in
        (BemVindo,
         {| usuario_id := Some (User.id usuario);
            usuario_nome := Some (User.nome usuario);
            usuario_tipo := Some tipo;
            usuario_nivel := Some nivel |})
      else (EmailOuSenhaIncorretos, session)
  end.

(** [logout] *)
Definition logout (session : Session) : Session := session_clear.

(** [adicionar_usuario], POST.  The key that the INSERT draws from the
    sequence is not given back when the commit is refused. *)
Definition adicionar_usuario (form : gmap string string) (salt : string)
    (commit : bool) (contas : Contas) : UsuarioResponse * Contas :=
  match form !! "nome", form !! "email", form !! "senha" with
  | Some nome, Some email, Some senha =>
      let nivel := default "Operador" (form !! "nivel") in
      let tipo := if decide (nivel = "ADM") then "admin" else "operador" in
      let senha_hash := generate_password_hash salt senha in
      let novo_usuario :=
        {| User.id := usuarios_id_seq contas;
           User.nome := nome;
           User.email := email;
           User.senha := senha_hash;
           User.tipo := tipo;
           User.nivel := nivel;
           User.client_id := None |} in
      if commit then
        (UsuarioSalvo,
         {| clients := clients contas;
            usuarios := usuarios contas ++ [novo_usuario];
            clients_id_seq := clients_id_seq contas;
            usuarios_id_seq := usuarios_id_seq contas + 1 |})
      else
        (EmailJaCadastrado,
         {| clients := clients contas;
            usuarios := usuarios contas;
            clients_id_seq := clients_id_seq contas;
            usuarios_id_seq := usuarios_id_seq contas + 1 |})
  | _, _, _ => (CampoAusente, contas)
  end.

(** The unit of work writes a changed user back under its key. *)
Definition update_user (u' : User.t) (us : list User.t) : list User.t :=
  List.map (fun u => if decide (User.id u = User.id u') then u' else u) us.

(** [editar_usuario], POST; the password changes when the form has one. *)
Definition editar_usuario (usuario_id : Z) (form : gmap string string)
    (salt : string) (commit : bool) (contas : Contas) : UsuarioResponse * Contas :=
  match get_user contas usuario_id with
  | None => (UsuarioNaoEncontrado, contas)
  | Some usuario =>
      match form !! "nome", form !! "email" with
      | Some nome, Some email =>
          let nivel := default "Operador" (form !! "nivel") in
          let tipo := if decide (nivel = "ADM") then "admin" else "operador" in
          let senha :=
            match form !! "senha" with
            | Some nova =>
                if decide (nova = "") then User.senha usuario
                else generate_password_hash salt nova
            | None => User.senha usuario
            end in
          let usuario' :=
            {| User.id := User.id usuario;
               User.nome := nome;
               User.email := email;
               User.senha := senha;
               User.tipo := tipo;
               User.nivel := nivel;
               User.client_id := User.client_id usuario |} in
          if commit then
            (UsuarioSalvo,
             {| clients := clients contas;
                usuarios := update_user usuario' (usuarios contas);
                clients_id_seq := clients_id_seq contas;
                usuarios_id_seq := usuarios_id_seq contas |})
          else (EmailJaCadastrado, contas)
      | _, _ => (CampoAusente, contas)
      end
  end.

(** [excluir_usuario], POST. *)
Definition excluir_usuario (usuario_id : Z) (commit : bool) (contas : Contas)
    : UsuarioResponse * Contas :=
  match get_user contas usuario_id with
  | None => (UsuarioNaoEncontrado, contas)
  | Some usuario =>
      if commit then
        (UsuarioExcluido,
         {| clients := clients contas;
            usuarios :=
              List.filter (fun u => negb (bool_decide (User.id u = usuario_id)))
                (usuarios contas);
            clients_id_seq := clients_id_seq contas;
            usuarios_id_seq := usuarios_id_seq contas |})
      else (ErroAoExcluir, contas)
  end.

(** [criar_dados_iniciais] of [setup_inicial.py]: the first tenant and its
    administrator, unless a tenant exists. *)
Definition criar_dados_iniciais (salt : string) (contas : Contas) : Contas :=
  match clients contas with
  | _ :: _ => contas
  | [] =>
      let empresa :=
        {| Client.id := clients_id_seq contas;
           Client.name := "Minha Empresa SaaS";
           Client.plan := "free" |} in
      let admin :=
        {| User.id := usuarios_id_seq contas;
           User.nome := "Administrador";
           User.email := "admin@teste.com";
           User.senha := generate_password_hash salt "123456";
           User.tipo := "admin";
           User.nivel := "ADM";
           User.client_id := Some (Client.id empresa) |} in
      {| clients := clients contas ++ [empresa];
         usuarios := usuarios contas ++ [admin];
         clients_id_seq := clients_id_seq contas + 1;
         usuarios_id_seq := usuarios_id_seq contas + 1 |}
  end.

(** The requests that write the table of the users. *)
Inductive OpConta :=
| CriarDadosIniciais (salt : string)
| AdicionarUsuario (form : gmap string string) (salt : string) (commit : bool)
| EditarUsuario (usuario_id : Z) (form : gmap string string) (salt : string)
    (commit : bool)
| ExcluirUsuario (usuario_id : Z) (commit : bool).

Definition handle_conta (op : OpConta) (contas : Contas) : Contas :=
  match op with
  | CriarDadosIniciais salt => criar_dados_iniciais salt contas
  | AdicionarUsuario form salt commit => (adicionar_usuario form salt commit contas).2
  | EditarUsuario id form salt commit => (editar_usuario id form salt commit contas).2
  | ExcluirUsuario id commit => (excluir_usuario id commit contas).2
  end.

(** The stores of users that the requests produce from empty tables. *)
Inductive contas_reachable : Contas -> Prop :=
| contas_empty : contas_reachable contas_vazias
| contas_step contas op :
    contas_reachable contas -> contas_reachable (handle_conta op contas).
End Senhas.

(** ** Customers: registration and editing *)

(** The text fields of the customer forms are Python [str] values, sequences
    of code points.  Two library functions are taken as given:
    [secure_filename] of [werkzeug.utils], and the class of the characters
    that the pattern [\d] of [re] matches on a [str] (the decimal digits of
    Unicode), by its characteristic function [isdecimal]. *)
Definition str : Type := list N.

(** ['FH1'] *)
Definition fh1 : str := [70%N; 72%N; 49%N].

(** [Customer], table [clientes], with the columns of the forms. *)
Module Cliente.
Record t := mk {
    id : Z;
    nome : str;
    cpf_cnpj : str;
    rg : str;
    email : str;
    telefone : str;
    telefone_secundario : str;
    chave_pix : str;
    endereco : str;
    cidade : str;
    estado : str;
    cep : str;
    referencia : str;
    telefone_referencia : str;
    endereco_referencia : str;
    observacoes : str;
    empresa : str }.
End Cliente.

(** [Document], table [documentos]. *)
Module Document.
Record t := mk {
    cliente_id : Z;
    nome_ficheiro : str }.
End Document.

Record Cadastro := mkCadastro {
  cad_clientes : list Cliente.t;
  cad_documentos : list Document.t;
  cad_clientes_id_seq : Z }.

Definition cadastro_vazio : Cadastro := mkCadastro [] [] 1.

(** The dictionary [dados] that both handlers build from the form. *)
Module Dados.
Record t := mk {
    nome : str;
    cpf_cnpj : str;
    rg : str;
    email : str;
    telefone : str;
    telefone_secundario : str;
    chave_pix : str;
    endereco : str;
    cidade : str;
    estado : str;
    cep : str;
    referencia : str;
    telefone_referencia : str;
    endereco_referencia : str;
    observacoes : str;
    empresa : str }.
End Dados.

(** The flash messages of the two handlers. *)
Inductive FlashCliente :=
| CpfCnpjObrigatorio
| RgObrigatorio
| ChavePixObrigatoria
| NomeReferenciaObrigatorio
| TelefoneReferenciaObrigatorio
| EnderecoReferenciaObrigatorio
| EnderecoObrigatorio
| CidadeObrigatoria
| EstadoObrigatorio
| CepObrigatorio
| CpfCnpjInvalido
| EmpresaObrigatoria
| CpfCnpjJaCadastrado.

Inductive ClienteResponse :=
| ClienteSalvo                          (* committed; redirect to the list *)
| ClienteFormulario (flash : FlashCliente)  (* the form again, with a flash *)
| ClienteCampoAusente                   (* [request.form[key]], absent key: 400 *)
| ClienteNaoExiste.                     (* [get_or_404]: 404 *)

(** [Customer.query.get_or_404(cliente_id)] *)
Definition get_cliente (cad : Cadastro) (cliente_id : Z) : option Cliente.t :=
  List.find (fun c => bool_decide (Cliente.id c = cliente_id)) (cad_clientes cad).

(** The dictionary [dados]; [None] when [request.form['nome']] or
    [request.form['telefone']] raises. *)
Definition ler_dados (form : gmap string str) : option Dados.t :=
  match form !! "nome", form !! "telefone" with
  | Some nome, Some telefone =>
      Some {| Dados.nome := nome;
              Dados.cpf_cnpj := default [] (form !! "cpf_cnpj");
              Dados.rg := default [] (form !! "rg");
              Dados.email := default [] (form !! "email");
              Dados.telefone := telefone;
              Dados.telefone_secundario := default [] (form !! "telefone_secundario");
              Dados.chave_pix := default [] (form !! "chave_pix");
              Dados.endereco := default [] (form !! "endereco");
              Dados.cidade := default [] (form !! "cidade");
              Dados.estado := default [] (form !! "estado");
              Dados.cep := default [] (form !! "cep");
              Dados.referencia := default [] (form !! "referencia");
              Dados.telefone_referencia := default [] (form !! "telefone_referencia");
              Dados.endereco_referencia := default [] (form !! "endereco_referencia");
              Dados.observacoes := default [] (form !! "observacoes");
              Dados.empresa := default fh1 (form !! "empresa") |}
  | _, _ => None
  end.

(** [not s] on a [str] *)
Definition vazio (s : str) : bool := bool_decide (s = []).

Section Cadastro.
Variable isdecimal : N -> bool.
Variable secure_filename : str -> str.

(** [validar_cpf_cnpj]: [re.sub(r'\D', '', documento)] keeps the decimal
    digits. *)
Definition validar_cpf_cnpj (documento : str) : bool :=
  let documento := List.filter isdecimal documento in
  if decide (length documento = 11%nat) then bool_decide (length documento = 11%nat)
  else if decide (length documento = 14%nat) then bool_decide (length documento = 14%nat)
  else false.

(** The uploads of a request: for each file with a name, a row of
    [documentos] under the secured name. *)
Definition novos_documentos (cliente_id : Z) (files : list str) : list Document.t :=
  List.map (fun filename => Document.mk cliente_id (secure_filename filename))
    (List.filter (fun filename => negb (vazio filename)) files).

(** [adicionar_cliente], POST.  The documents are stored after the commit
    of the customer. *)
Definition adicionar_cliente (form : gmap string str) (files : list str)
    (commit : bool) (cad : Cadastro) : ClienteResponse * Cadastro :=
  match ler_dados form with
  | None => (ClienteCampoAusente, cad)
  | Some dados =>
      if vazio (Dados.cpf_cnpj dados) then (ClienteFormulario CpfCnpjObrigatorio, cad)
      else if vazio (Dados.rg dados) then (ClienteFormulario RgObrigatorio, cad)
      else if vazio (Dados.chave_pix dados)
      then (ClienteFormulario ChavePixObrigatoria, cad)
      else if vazio (Dados.referencia dados)
      then (ClienteFormulario NomeReferenciaObrigatorio, cad)
      else if vazio (Dados.telefone_referencia dados)
      then (ClienteFormulario TelefoneReferenciaObrigatorio, cad)
      else if vazio (Dados.endereco_referencia dados)
      then (ClienteFormulario EnderecoReferenciaObrigatorio, cad)
      else if vazio (Dados.endereco dados)
      then (ClienteFormulario EnderecoObrigatorio, cad)
      else if vazio (Dados.cidade dados) then (ClienteFormulario CidadeObrigatoria, cad)
      else if vazio (Dados.estado dados) then (ClienteFormulario EstadoObrigatorio, cad)
      else if vazio (Dados.cep dados) then (ClienteFormulario CepObrigatorio, cad)
      else if negb (vazio (Dados.cpf_cnpj dados))
              && negb (validar_cpf_cnpj (Dados.cpf_cnpj dados))
      then (ClienteFormulario CpfCnpjInvalido, cad)
      else if vazio (Dados.empresa dados)
      then (ClienteFormulario EmpresaObrigatoria, cad)
      else
        let novo_cliente :=
          {| Cliente.id := cad_clientes_id_seq cad;
             Cliente.nome := Dados.nome dados;
             Cliente.cpf_cnpj := Dados.cpf_cnpj dados;
             Cliente.rg := Dados.rg dados;
             Cliente.email := Dados.email dados;
             Cliente.telefone := Dados.telefone dados;
             Cliente.telefone_secundario := Dados.telefone_secundario dados;
             Cliente.chave_pix := Dados.chave_pix dados;
             Cliente.endereco := Dados.endereco dados;
             Cliente.cidade := Dados.cidade dados;
             Cliente.estado := Dados.estado dados;
             Cliente.cep := Dados.cep dados;
             Cliente.referencia := Dados.referencia dados;
             Cliente.telefone_referencia := Dados.telefone_referencia dados;
             Cliente.endereco_referencia := Dados.endereco_referencia dados;
             Cliente.observacoes := Dados.observacoes dados;
             Cliente.empresa := Dados.empresa dados |} in
        if commit then
          let novo_cliente_id := Cliente.id novo_cliente in
          (ClienteSalvo,
           {| cad_clientes := cad_clientes cad ++ [novo_cliente];
              cad_documentos :=
                cad_documentos cad ++ novos_documentos novo_cliente_id files;
              cad_clientes_id_seq := cad_clientes_id_seq cad + 1 |})
        else
          (* IntegrityError: rollback; the key drawn is not given back *)
          (ClienteFormulario CpfCnpjJaCadastrado,
           {| cad_clientes := cad_clientes cad;
              cad_documentos := cad_documentos cad;
              cad_clientes_id_seq := cad_clientes_id_seq cad + 1 |})
  end.

(** The unit of work writes a changed customer back under its key. *)
Definition update_cliente (c' : Cliente.t) (cs : list Cliente.t) : list Cliente.t :=
  List.map (fun c => if decide (Cliente.id c = Cliente.id c') then c' else c) cs.

(** [editar_cliente], POST.  The documents are stored, on a connection of
    their own, before the commit of the customer. *)
Definition editar_cliente (cliente_id : Z) (form : gmap string str)
    (files : list str) (commit : bool) (cad : Cadastro) : ClienteResponse * Cadastro :=
  match get_cliente cad cliente_id with
  | None => (ClienteNaoExiste, cad)
  | Some cliente =>
  match ler_dados form with
  | None => (ClienteCampoAusente, cad)
  | Some dados =>
      if vazio (Dados.cpf_cnpj dados) then (ClienteFormulario CpfCnpjObrigatorio, cad)
      else if vazio (Dados.rg dados) then (ClienteFormulario RgObrigatorio, cad)
      else if vazio (Dados.chave_pix dados)
      then (ClienteFormulario ChavePixObrigatoria, cad)
      else if vazio (Dados.referencia dados)
      then (ClienteFormulario NomeReferenciaObrigatorio, cad)
      else if vazio (Dados.telefone_referencia dados)
      then (ClienteFormulario TelefoneReferenciaObrigatorio, cad)
      else if vazio (Dados.endereco_referencia dados)
      then (ClienteFormulario EnderecoReferenciaObrigatorio, cad)
      else if vazio (Dados.endereco dados)
      then (ClienteFormulario EnderecoObrigatorio, cad)
      else if vazio (Dados.cidade dados) then (ClienteFormulario CidadeObrigatoria, cad)
      else if vazio (Dados.estado dados) then (ClienteFormulario EstadoObrigatorio, cad)
      else if vazio (Dados.cep dados) then (ClienteFormulario CepObrigatorio, cad)
      else if negb (vazio (Dados.cpf_cnpj dados))
              && negb (validar_cpf_cnpj (Dados.cpf_cnpj dados))
      then (ClienteFormulario CpfCnpjInvalido, cad)
      else if vazio (Dados.empresa dados)
      then (ClienteFormulario EmpresaObrigatoria, cad)
      else
        let cliente' :=
          {| Cliente.id := Cliente.id cliente;
             Cliente.nome := Dados.nome dados;
             Cliente.cpf_cnpj := Dados.cpf_cnpj dados;
             Cliente.rg := Dados.rg dados;
             Cliente.email := Dados.email dados;
             Cliente.telefone := Dados.telefone dados;
             Cliente.telefone_secundario := Dados.telefone_secundario dados;
             Cliente.chave_pix := Dados.chave_pix dados;
             Cliente.endereco := Dados.endereco dados;
             Cliente.cidade := Dados.cidade dados;
             Cliente.estado := Dados.estado dados;
             Cliente.cep := Dados.cep dados;
             Cliente.referencia := Dados.referencia dados;
             Cliente.telefone_referencia := Dados.telefone_referencia dados;
             Cliente.endereco_referencia := Dados.endereco_referencia dados;
             Cliente.observacoes := Dados.observacoes dados;
             Cliente.empresa := Dados.empresa dados |} in
        let documentos' := cad_documentos cad ++ novos_documentos cliente_id files in
        if commit then
          (ClienteSalvo,
           {| cad_clientes := update_cliente cliente' (cad_clientes cad);
              cad_documentos := documentos';
              cad_clientes_id_seq := cad_clientes_id_seq cad |})
        else
          (* IntegrityError: the session is rolled back, the documents stay *)
          (ClienteFormulario CpfCnpjJaCadastrado,
           {| cad_clientes := cad_clientes cad;
              cad_documentos := documentos';
              cad_clientes_id_seq := cad_clientes_id_seq cad |})
  end end.

(** The requests that write the table of the customers; a deletion, by the
    cascade of the model, takes the documents of the customer with it. *)
Inductive OpCadastro :=
| AdicionarCliente (form : gmap string str) (files : list str) (commit : bool)
| EditarCliente (cliente_id : Z) (form : gmap string str) (files : list str)
    (commit : bool)
| ExcluirCliente (cliente_id : Z).

Definition handle_cadastro (op : OpCadastro) (cad : Cadastro) : Cadastro :=
  match op with
  | AdicionarCliente form files commit => (adicionar_cliente form files commit cad).2
  | EditarCliente id form files commit => (editar_cliente id form files commit cad).2
  | ExcluirCliente id =>
      match get_cliente cad id with
      | None => cad
      | Some _ =>
          {| cad_clientes :=
               List.filter (fun c => negb (bool_decide (Cliente.id c = id)))
                 (cad_clientes cad);
             cad_documentos :=
               List.filter (fun d => negb (bool_decide (Document.cliente_id d = id)))
                 (cad_documentos cad);
             cad_clientes_id_seq := cad_clientes_id_seq cad |}
      end
  end.

Inductive cadastro_reachable : Cadastro -> Prop :=
| cadastro_empty : cadastro_reachable cadastro_vazio
| cadastro_step cad op :
    cadastro_reachable cad -> cadastro_reachable (handle_cadastro op cad).
End Cadastro.

(** What both handlers require of [dados] before they store it: the
    required fields are not empty and the document number passes
    [validar_cpf_cnpj]. *)
Definition cliente_valido (isdecimal : N -> bool) (c : Cliente.t) : Prop :=
  Cliente.cpf_cnpj c <> [] /\ Cliente.rg c <> [] /\ Cliente.chave_pix c <> [] /\
  Cliente.referencia c <> [] /\ Cliente.telefone_referencia c <> [] /\
  Cliente.endereco_referencia c <> [] /\ Cliente.endereco c <> [] /\
  Cliente.cidade c <> [] /\ Cliente.estado c <> [] /\ Cliente.cep c <> [] /\
  Cliente.empresa c <> [] /\
  validar_cpf_cnpj isdecimal (Cliente.cpf_cnpj c) = true.

(** ** Further sample data *)

(** An edit of the sample loan that submits its own principal, tier and
    first due date again. *)
Definition form_editar_30 : EditarForm :=
  mkEditarForm (Some (of_int 1000)) (Some sabado) (Some (of_int 30)) None.

(** Stand-ins for the two functions of [werkzeug.security] in the examples:
    the hash keeps the password as it is. *)
Definition hash_exemplo (salt senha : string) : string := senha.

Definition check_exemplo (pwhash senha : string) : bool := bool_decide (pwhash = senha).

(** The store of users after [criar_dados_iniciais], and the session of the
    administrator. *)
Definition contas_iniciais : Contas := criar_dados_iniciais hash_exemplo "sal" contas_vazias.

Definition session_admin : Session :=
  (login check_exemplo "admin@teste.com" "123456" contas_iniciais session_clear).2.

(** The form that registers an operator, and the store with that user. *)
Definition form_operador : gmap string string :=
  {[ "nome" := "Ana"; "email" := "ana@teste.com"; "senha" := "segredo" ]}.

Definition contas_operador : Contas :=
  (adicionar_usuario hash_exemplo form_operador "sal" true contas_iniciais).2.

(** The form that makes the administrator an operator. *)
Definition form_rebaixar : gmap string string :=
  {[ "nome" := "Administrador"; "email" := "admin@teste.com"; "nivel" := "Operador" ]}.

(** The decimal digits of ASCII, which [\d] matches among others, and a
    stand-in for [secure_filename] in the examples. *)
Definition isdecimal_ascii (c : N) : bool := ((48 <=? c) && (c <=? 57))%N.

Definition secure_filename_exemplo (filename : str) : str := filename.

(** A form of [adicionar_cliente] with every required field: the name 'Ana',
    the document number '123.456.789-01', and 'x' elsewhere. *)
Definition form_cliente : gmap string str :=
  {[ "nome" := [65; 110; 97]%N;
     "telefone" := [57]%N;
     "cpf_cnpj" := [49; 50; 51; 46; 52; 53; 54; 46; 55; 56; 57; 45; 48; 49]%N;
     "rg" := [120]%N;
     "chave_pix" := [120]%N;
     "referencia" := [120]%N;
     "telefone_referencia" := [120]%N;
     "endereco_referencia" := [120]%N;
     "endereco" := [120]%N;
     "cidade" := [120]%N;
     "estado" := [120]%N;
     "cep" := [120]%N ]}.

(** The store after that registration, with one upload 'a'. *)
Definition cadastro_ana : Cadastro :=
  (adicionar_cliente isdecimal_ascii secure_filename_exemplo form_cliente [[97%N]] true
     cadastro_vazio).2.

(** * Properties *)

(** ** Arithmetic on money *)

Lemma this_plus (x y : Qc) : (this (x + y) == this x + this y)%Q.
Proof. apply Qred_correct. Qed.

Lemma this_minus (x y : Qc) : (this (x - y) == this x - this y)%Q.
Proof.
  unfold Qcminus. rewrite this_plus. unfold Qcopp, Q2Qc; simpl.
  rewrite Qred_correct. reflexivity.
Qed.

Lemma this_mult (x y : Qc) : (this (x * y) == this x * this y)%Q.
Proof. apply Qred_correct. Qed.

(** Linear goals over [Qc] are sent to [lra] over [Q]. *)
Ltac qc_to_q :=
  repeat match goal with
         | H : @eq Qc ?x ?y |- _ =>
             assert (this x == this y)%Q by (rewrite H; reflexivity); clear H
         | H : ~ Qcle _ _ |- _ => apply Qcnot_le_lt in H
         | H : ~ Qclt _ _ |- _ => apply Qcnot_lt_le in H
         end;
  try apply Qc_is_canon;
  unfold Qcle, Qclt in *;
  repeat (first [ rewrite this_plus in * | rewrite this_minus in *
                | rewrite this_mult in * ]);
  simpl in *;
  repeat match goal with
         | H : context [Qred _] |- _ => rewrite Qred_correct in H
         end;
  rewrite ?Qred_correct.

Ltac qc_lra := qc_to_q; lra.

(** ** The calendar rule *)

Lemma weekday_range d : 0 <= weekday d < 7.
Proof. unfold weekday. apply Z.mod_pos_bound. lia. Qed.

Lemma weekday_add_days_1 d : weekday (add_days d 1) = (weekday d + 1) mod 7.
Proof.
  unfold weekday, add_days; simpl.
  replace (toordinal d + 1 + 6) with ((toordinal d + 6) + 1) by lia.
  rewrite Z.add_mod by lia. reflexivity.
Qed.

Lemma weekday_after_sunday d : weekday d = 6 -> weekday (add_days d 1) = 0.
Proof. intros H. rewrite weekday_add_days_1, H. reflexivity. Qed.

Lemma add_days_add_days d a b : add_days (add_days d a) b = add_days d (a + b).
Proof. unfold add_days; simpl. f_equal. lia. Qed.

(** One turn of the loop. *)
Lemma pular_domingos_step d :
  pular_domingos d
  = if decide (weekday d = 6) then pular_domingos (add_days d 1) else d.
Proof.
  funelim (pular_domingos d); clear H; case_decide as Hw; try reflexivity.
  - pose proof (proj1 (Z.eqb_eq _ _) e). contradiction.
  - pose proof (proj1 (Z.eqb_neq _ _) e). contradiction.
Qed.

Lemma pular_domingos_allowed d : weekday d <> 6 -> pular_domingos d = d.
Proof. intros H. rewrite pular_domingos_step. case_decide; [contradiction | reflexivity]. Qed.

(** The loop leaves a Sunday for the Monday after it. *)
Lemma pular_domingos_sunday d : weekday d = 6 -> pular_domingos d = add_days d 1.
Proof.
  intros H. rewrite pular_domingos_step. case_decide; [| contradiction].
  apply pular_domingos_allowed. rewrite (weekday_after_sunday _ H). lia.
Qed.

Lemma pular_domingos_not_sunday d : weekday (pular_domingos d) <> 6.
Proof.
  destruct (decide (weekday d = 6)) as [H | H].
  - rewrite (pular_domingos_sunday _ H), (weekday_after_sunday _ H). lia.
  - rewrite (pular_domingos_allowed _ H). exact H.
Qed.

(** ** The generated schedule *)

Section Schedule.
Variables (cobranca_id : Z) (valor_parcela : money).

Lemma gerar_parcelas_length n i next_id d :
  length (gerar_parcelas n i next_id cobranca_id valor_parcela d) = n.
Proof. revert i next_id d. induction n as [| n IH]; intros; simpl; [| rewrite IH]; reflexivity. Qed.

(** The fields that do not depend on the calendar. *)
Lemma gerar_parcelas_lookup n i next_id d (k : nat) p :
  gerar_parcelas n i next_id cobranca_id valor_parcela d !! k = Some p ->
  Installment.id p = next_id + Z.of_nat k /\
  Installment.cobranca_id p = cobranca_id /\
  Installment.numero_parcela p = i + Z.of_nat k + 1 /\
  Installment.valor p = valor_parcela /\
  Installment.status p = Pendente /\
  Installment.valor_pago p = 0%Qc /\
  Installment.multa_manual p = None.
Proof.
  revert i next_id d k p.
  induction n as [| n IH]; intros i next_id d k p Hk; [discriminate |].
  destruct k as [| k]; simpl in Hk.
  - injection Hk as <-. simpl. repeat split; try reflexivity; lia.
  - apply IH in Hk. destruct Hk as (H1 & H2 & H3 & H4).
    repeat split; try tauto; lia.
Qed.

Lemma gerar_parcelas_numeros n i next_id d :
  List.map Installment.numero_parcela
    (gerar_parcelas n i next_id cobranca_id valor_parcela d)
  = seqZ (i + 1) (Z.of_nat n).
Proof.
  revert i next_id d. induction n as [| n IH]; intros i next_id d; [reflexivity |].
  rewrite (seqZ_cons (i + 1) (Z.of_nat (S n))) by lia.
  replace (Z.pred (Z.of_nat (S n))) with (Z.of_nat n) by lia.
  replace (Z.succ (i + 1)) with (i + 1 + 1) by lia.
  simpl gerar_parcelas. rewrite List.map_cons, IH. reflexivity.
Qed.

(** The first due date is the start date passed through the skip loop. *)
Lemma gerar_parcelas_first n i next_id d p :
  gerar_parcelas n i next_id cobranca_id valor_parcela d !! 0%nat = Some p ->
  Installment.data_vencimento p = pular_domingos d.
Proof. destruct n; [discriminate |]. simpl. intros [= <-]. reflexivity. Qed.

(** Each further due date is the day after the previous assigned date,
    passed through the skip loop. *)
Lemma gerar_parcelas_next n i next_id d (k : nat) p q :
  gerar_parcelas n i next_id cobranca_id valor_parcela d !! k = Some p ->
  gerar_parcelas n i next_id cobranca_id valor_parcela d !! S k = Some q ->
  Installment.data_vencimento q
  = pular_domingos (add_days (Installment.data_vencimento p) 1).
Proof.
  revert i next_id d k p q.
  induction n as [| n IH]; intros i next_id d k p q Hp Hq; [discriminate |].
  destruct k as [| k].
  - simpl in Hp. injection Hp as <-. simpl in Hq.
    apply gerar_parcelas_first in Hq. exact Hq.
  - simpl in Hp, Hq. eapply IH; eassumption.
Qed.

Lemma gerar_parcelas_no_sunday n i next_id d p :
  p ∈ gerar_parcelas n i next_id cobranca_id valor_parcela d ->
  weekday (Installment.data_vencimento p) <> 6.
Proof.
  revert i next_id d p. induction n as [| n IH]; intros i next_id d p Hp; simpl in Hp.
  - inversion Hp.
  - apply elem_of_cons in Hp as [-> | Hp].
    + simpl. apply pular_domingos_not_sunday.
    + eapply IH; eassumption.
Qed.
End Schedule.

(** ** Sums of money *)

Lemma foldl_Qcplus (a : money) xs : foldl Qcplus a xs = (a + sum_money xs)%Qc.
Proof.
  unfold sum_money. revert a. induction xs as [| x xs IH]; intros a; simpl.
  - ring.
  - rewrite (IH (a + x)%Qc), (IH (0 + x)%Qc). ring.
Qed.

Lemma sum_money_nil : sum_money [] = 0%Qc.
Proof. reflexivity. Qed.

Lemma sum_money_cons x xs : sum_money (x :: xs) = (x + sum_money xs)%Qc.
Proof. unfold sum_money at 1. simpl. rewrite foldl_Qcplus. ring. Qed.

Lemma sum_money_app xs ys : sum_money (xs ++ ys) = (sum_money xs + sum_money ys)%Qc.
Proof.
  induction xs as [| x xs IH]; simpl.
  - rewrite sum_money_nil. ring.
  - rewrite !sum_money_cons, IH. ring.
Qed.

Lemma sum_money_Permutation xs ys : xs ≡ₚ ys -> sum_money xs = sum_money ys.
Proof.
  induction 1 as [| x xs ys _ IH | x y xs | xs ys zs _ IH1 _ IH2].
  - reflexivity.
  - rewrite !sum_money_cons, IH. reflexivity.
  - rewrite !sum_money_cons. ring.
  - congruence.
Qed.

Lemma of_int_succ (n : Z) : of_int (n + 1) = (of_int n + 1)%Qc.
Proof.
  apply Qc_is_canon. rewrite this_plus. unfold of_int, Qc_of_Z; simpl.
  rewrite inject_Z_plus. reflexivity.
Qed.

Lemma of_int_0 : of_int 0 = 0%Qc.
Proof. apply Qc_is_canon. reflexivity. Qed.

(** A list of [n] equal amounts sums to [n] times the amount. *)
Lemma sum_money_const (v : money) xs :
  Forall (fun x => x = v) xs -> sum_money xs = (of_int (Z.of_nat (length xs)) * v)%Qc.
Proof.
  induction 1 as [| x xs -> _ IH].
  - rewrite sum_money_nil. change (of_int (Z.of_nat (length []))) with (of_int 0).
    rewrite of_int_0. ring.
  - rewrite sum_money_cons, IH. simpl length.
    replace (Z.of_nat (S (length xs))) with (Z.of_nat (length xs) + 1) by lia.
    rewrite of_int_succ. ring.
Qed.

Lemma of_int_neq_0 (n : Z) : n <> 0 -> of_int n <> 0%Qc.
Proof.
  intros Hn H. apply (f_equal this) in H. unfold of_int, Qc_of_Z in H; simpl in H.
  injection H as H. contradiction.
Qed.

Lemma sum_gerar_parcelas n i next_id cobranca_id (total : money) d :
  n <> 0%nat ->
  sum_money
    (List.map Installment.valor
       (gerar_parcelas n i next_id cobranca_id (total / of_int (Z.of_nat n))%Qc d))
  = total.
Proof.
  intros Hn.
  rewrite (sum_money_const (total / of_int (Z.of_nat n))%Qc).
  - rewrite length_map, gerar_parcelas_length. field. apply of_int_neq_0. lia.
  - apply Forall_forall. intros x Hx. apply list_elem_of_In in Hx.
    apply in_map_iff in Hx as (p & <- & Hp). apply list_elem_of_In in Hp.
    apply list_elem_of_lookup in Hp as [k Hk].
    apply gerar_parcelas_lookup in Hk. tauto.
Qed.

(** ** Schedule generation: [adicionar_cobranca] *)

(** The outcome of [adicionar_cobranca] on an accepted form. *)
Lemma adicionar_cobranca_accepted form db (N : Z) :
  weekday (form_data_vencimento form) <> 6 ->
  (form_taxa_juros form = of_int 30 /\ N = 10
   \/ form_taxa_juros form = of_int 60 /\ N = 15) ->
  let total := (form_valor_emprestimo form
                * (1 + form_taxa_juros form / of_int 100))%Qc in
  let ps := gerar_parcelas (Z.to_nat N) 0 (parcelas_id_seq db) (cobrancas_id_seq db)
              (total / of_int N)%Qc (form_data_vencimento form) in
  exists loan,
    adicionar_cobranca form db
    = (Success,
       {| clientes := clientes db;
          cobrancas := cobrancas db ++ [loan];
          parcelas := parcelas db ++ ps;
          pagamentos := pagamentos db;
          historico_pagamentos := historico_pagamentos db;
          configuracoes := configuracoes db;
          cobrancas_id_seq := cobrancas_id_seq db + 1;
          parcelas_id_seq := parcelas_id_seq db + N |}) /\
    Loan.id loan = cobrancas_id_seq db /\
    Loan.cliente_id loan = form_cliente_id form /\
    Loan.valor_original loan = form_valor_emprestimo form /\
    Loan.valor_total loan = Some total /\
    Loan.valor_pago loan = 0%Qc /\
    Loan.status loan = Pendente /\
    Loan.numero_parcelas loan = N.
Proof.
  intros Hday Htaxa total ps. unfold adicionar_cobranca.
  destruct (decide (weekday (form_data_vencimento form) = 6)) as [? | _]; [contradiction |].
  destruct Htaxa as [[Ht ->] | [Ht ->]]; subst total ps; rewrite Ht.
  - rewrite decide_True by reflexivity.
    eexists. split; [reflexivity |]. simpl. repeat split; reflexivity.
  - rewrite decide_False by (intros H; discriminate H).
    rewrite decide_True by reflexivity.
    eexists. split; [reflexivity |]. simpl. repeat split; reflexivity.
Qed.





(** The schedule of the sample loan: it starts on Saturday 2024-06-01, and
    the Sundays 2024-06-02 and 2024-06-09 are skipped. *)
Example schedule_from_saturday :
  List.map (fun p => (Installment.numero_parcela p,
                      toordinal (Installment.data_vencimento p),
                      weekday (Installment.data_vencimento p)))
    (parcelas db_emprestimo)
  = [(1, 739038, 5); (2, 739040, 0); (3, 739041, 1); (4, 739042, 2);
     (5, 739043, 3); (6, 739044, 4); (7, 739045, 5); (8, 739047, 0);
     (9, 739048, 1); (10, 739049, 2)].
Proof. vm_compute. reflexivity. Qed.

(** ** Lookups by primary key *)

Lemma get_loan_Some db id l :
  get_loan db id = Some l -> Loan.id l = id /\ l ∈ cobrancas db.
Proof.
  unfold get_loan. intros H. apply List.find_some in H as [Hin Hid].
  apply bool_decide_eq_true in Hid. split; [exact Hid |].
  apply list_elem_of_In. exact Hin.
Qed.

Lemma get_installment_Some db id p :
  get_installment db id = Some p -> Installment.id p = id /\ p ∈ parcelas db.
Proof.
  unfold get_installment. intros H. apply List.find_some in H as [Hin Hid].
  apply bool_decide_eq_true in Hid. split; [exact Hid |].
  apply list_elem_of_In. exact Hin.
Qed.

Lemma filter_all_true {A} (f : A -> bool) (xs : list A) :
  (forall x, x ∈ xs -> f x = true) -> List.filter f xs = xs.
Proof.
  induction xs as [| x xs IH]; intros H; simpl; [reflexivity |].
  rewrite (H x) by (left; reflexivity). f_equal. apply IH.
  intros y Hy. apply H. right. exact Hy.
Qed.

Lemma filter_all_false {A} (f : A -> bool) (xs : list A) :
  (forall x, x ∈ xs -> f x = false) -> List.filter f xs = [].
Proof.
  induction xs as [| x xs IH]; intros H; simpl; [reflexivity |].
  rewrite (H x) by (left; reflexivity). apply IH.
  intros y Hy. apply H. right. exact Hy.
Qed.

Lemma elem_of_filter_bool {A} (f : A -> bool) (xs : list A) x :
  x ∈ List.filter f xs <-> x ∈ xs /\ f x = true.
Proof. rewrite !list_elem_of_In. apply List.filter_In. Qed.

(** After a regeneration the loan owns the generated installments and no
    other. *)
Lemma installments_after_regeneration (id : Z) (old ps : list Installment.t) :
  (forall p, p ∈ ps -> Installment.cobranca_id p = id) ->
  List.filter (fun p => bool_decide (Installment.cobranca_id p = id))
    (List.filter (fun p => negb (bool_decide (Installment.cobranca_id p = id))) old ++ ps)
  = ps.
Proof.
  intros Hps. rewrite List.filter_app, filter_all_false, filter_all_true.
  - reflexivity.
  - intros p Hp. apply bool_decide_eq_true. auto.
  - intros p Hp. apply elem_of_filter_bool in Hp as [_ Hp].
    apply negb_true_iff in Hp. exact Hp.
Qed.

(** ** Rate tiers *)

(** The outcome of [editar_cobranca] once the loan, its customer, the
    amount and the date are accepted. *)
Lemma editar_cobranca_accepted id form db cobranca valor data :
  get_loan db id = Some cobranca ->
  is_Some (List.find (fun c => bool_decide (Customer.id c = Loan.cliente_id cobranca))
             (clientes db)) ->
  edit_valor_emprestimo form = Some valor -> (0 < valor)%Qc ->
  edit_data_vencimento form = Some data -> weekday data <> 6 ->
  let n := editar_numero_parcelas form cobranca in
  (n = 0 -> editar_cobranca id form db = (Rollback, db)) /\
  (n <> 0 ->
   exists db' ps,
     editar_cobranca id form db = (Success, db') /\
     parcelas db'
     = List.filter (fun p => negb (bool_decide (Installment.cobranca_id p = id)))
         (parcelas db) ++ ps /\
     installments_of db' cobranca = ps /\
     length ps = Z.to_nat n).
Proof.
  intros Hloan [cliente Hcli] Hvalor Hpos Hdata Hday n.
  unfold editar_cobranca. rewrite Hloan, Hcli, Hvalor, Hdata.
  rewrite decide_False by (apply Qclt_not_le; exact Hpos).
  rewrite decide_False by exact Hday.
  assert (Hn : (if decide (match edit_taxa_juros form with
                           | Some t => t | None => Loan.taxa_juros cobranca end
                           = of_int 30) then 10
                else if decide (match edit_taxa_juros form with
                                | Some t => t | None => Loan.taxa_juros cobranca end
                                = of_int 60) then 15
                else match edit_numero_parcelas form with
                     | Some k => k | None => Loan.numero_parcelas cobranca end) = n).
  { subst n. unfold editar_numero_parcelas.
    destruct (edit_taxa_juros form), (edit_numero_parcelas form); reflexivity. }
  rewrite Hn. split; intros H0.
  - rewrite decide_True by exact H0. reflexivity.
  - rewrite decide_False by exact H0.
    eexists _, _. split; [reflexivity |]. cbn [parcelas].
    split; [reflexivity |]. split; [| apply gerar_parcelas_length].
    unfold installments_of. cbn [parcelas].
    apply get_loan_Some in Hloan as [-> _].
    apply installments_after_regeneration.
    intros p Hp. apply list_elem_of_lookup in Hp as [k Hk].
    apply gerar_parcelas_lookup in Hk. tauto.
Qed.




(** ** Updates by primary key *)

Lemma map_id_update_loan l' ls :
  List.map Loan.id (update_loan l' ls) = List.map Loan.id ls.
Proof.
  unfold update_loan. rewrite List.map_map. apply List.map_ext.
  intros l. case_decide; congruence.
Qed.

Lemma map_id_update_installment p' ps :
  List.map Installment.id (update_installment p' ps) = List.map Installment.id ps.
Proof.
  unfold update_installment. rewrite List.map_map. apply List.map_ext.
  intros p. case_decide; congruence.
Qed.

Lemma elem_of_map_list {A B} (f : A -> B) (xs : list A) y :
  y ∈ List.map f xs <-> exists x, f x = y /\ x ∈ xs.
Proof.
  rewrite list_elem_of_In, List.in_map_iff.
  split; intros (x & ? & ?); exists x; rewrite ?list_elem_of_In in *; auto.
Qed.

Lemma elem_of_update_loan l l' ls :
  l ∈ update_loan l' ls ->
  l = l' /\ (exists l0, l0 ∈ ls /\ Loan.id l0 = Loan.id l')
  \/ l ∈ ls /\ Loan.id l <> Loan.id l'.
Proof.
  unfold update_loan. intros H. apply elem_of_map_list in H as (l0 & Hl & Hin).
  case_decide; subst; eauto.
Qed.

Lemma elem_of_update_installment p p' ps :
  p ∈ update_installment p' ps ->
  p = p' /\ (exists p0, p0 ∈ ps /\ Installment.id p0 = Installment.id p')
  \/ p ∈ ps /\ Installment.id p <> Installment.id p'.
Proof.
  unfold update_installment. intros H. apply elem_of_map_list in H as (p0 & Hp & Hin).
  case_decide; subst; eauto.
Qed.

(** With unique keys, a key names one row. *)
Lemma loan_id_inj ls l1 l2 :
  NoDup (List.map Loan.id ls) -> l1 ∈ ls -> l2 ∈ ls -> Loan.id l1 = Loan.id l2 -> l1 = l2.
Proof.
  induction ls as [| l ls IH]; intros Hnd H1 H2 Heq; [inversion H1 |].
  simpl in Hnd. apply NoDup_cons in Hnd as [Hnotin Hnd].
  apply elem_of_cons in H1 as [-> | H1]; apply elem_of_cons in H2 as [-> | H2].
  - reflexivity.
  - exfalso. apply Hnotin. rewrite Heq. apply elem_of_map_list. eauto.
  - exfalso. apply Hnotin. rewrite <- Heq. apply elem_of_map_list. eauto.
  - auto.
Qed.

Lemma installment_id_inj ps p1 p2 :
  NoDup (List.map Installment.id ps) -> p1 ∈ ps -> p2 ∈ ps ->
  Installment.id p1 = Installment.id p2 -> p1 = p2.
Proof.
  induction ps as [| p ps IH]; intros Hnd H1 H2 Heq; [inversion H1 |].
  simpl in Hnd. apply NoDup_cons in Hnd as [Hnotin Hnd].
  apply elem_of_cons in H1 as [-> | H1]; apply elem_of_cons in H2 as [-> | H2].
  - reflexivity.
  - exfalso. apply Hnotin. rewrite Heq. apply elem_of_map_list. eauto.
  - exfalso. apply Hnotin. rewrite <- Heq. apply elem_of_map_list. eauto.
  - auto.
Qed.

Lemma get_loan_elem db l :
  NoDup (List.map Loan.id (cobrancas db)) -> l ∈ cobrancas db ->
  get_loan db (Loan.id l) = Some l.
Proof.
  intros Hnd Hin. unfold get_loan.
  destruct (List.find _ (cobrancas db)) as [l0 |] eqn:Hfind.
  - apply List.find_some in Hfind as [Hin0 Hid]. apply bool_decide_eq_true in Hid.
    apply list_elem_of_In in Hin0. f_equal. eapply loan_id_inj; eauto.
  - apply list_elem_of_In in Hin. eapply List.find_none in Hfind; [| exact Hin].
    apply bool_decide_eq_false in Hfind. contradiction.
Qed.

Lemma get_installment_elem db p :
  NoDup (List.map Installment.id (parcelas db)) -> p ∈ parcelas db ->
  get_installment db (Installment.id p) = Some p.
Proof.
  intros Hnd Hin. unfold get_installment.
  destruct (List.find _ (parcelas db)) as [p0 |] eqn:Hfind.
  - apply List.find_some in Hfind as [Hin0 Hid]. apply bool_decide_eq_true in Hid.
    apply list_elem_of_In in Hin0. f_equal. eapply installment_id_inj; eauto.
  - apply list_elem_of_In in Hin. eapply List.find_none in Hfind; [| exact Hin].
    apply bool_decide_eq_false in Hfind. contradiction.
Qed.

Lemma gerar_parcelas_ids n i next_id cobranca_id valor_parcela d :
  List.map Installment.id (gerar_parcelas n i next_id cobranca_id valor_parcela d)
  = seqZ next_id (Z.of_nat n).
Proof.
  revert i next_id d. induction n as [| n IH]; intros i next_id d; [reflexivity |].
  rewrite (seqZ_cons next_id (Z.of_nat (S n))) by lia.
  replace (Z.pred (Z.of_nat (S n))) with (Z.of_nat n) by lia.
  replace (Z.succ next_id) with (next_id + 1) by lia.
  simpl gerar_parcelas. rewrite List.map_cons, IH. reflexivity.
Qed.

Lemma gerar_parcelas_elem n i next_id cobranca_id valor_parcela d p :
  p ∈ gerar_parcelas n i next_id cobranca_id valor_parcela d ->
  next_id <= Installment.id p < next_id + Z.of_nat n /\
  Installment.cobranca_id p = cobranca_id /\
  Installment.valor p = valor_parcela /\
  Installment.status p = Pendente /\
  Installment.multa_manual p = None.
Proof.
  intros Hp. apply list_elem_of_lookup in Hp as [k Hk].
  pose proof (lookup_lt_Some _ _ _ Hk) as Hlt. rewrite gerar_parcelas_length in Hlt.
  apply gerar_parcelas_lookup in Hk. repeat split; try tauto; lia.
Qed.

(** ** Well-formed stores *)

Lemma elem_of_update_loan_intro l l' ls :
  l ∈ ls -> (if decide (Loan.id l = Loan.id l') then l' else l) ∈ update_loan l' ls.
Proof. intros H. unfold update_loan. apply elem_of_map_list. eauto. Qed.

Lemma elem_of_update_installment_intro p p' ps :
  p ∈ ps ->
  (if decide (Installment.id p = Installment.id p') then p' else p)
  ∈ update_installment p' ps.
Proof. intros H. unfold update_installment. apply elem_of_map_list. eauto. Qed.

Lemma wf_update_loan l' ls ps seq_l seq_p :
  wf_tables ls ps seq_l seq_p -> is_Some (Loan.valor_total l') ->
  wf_tables (update_loan l' ls) ps seq_l seq_p.
Proof.
  intros (Hl & Hp & Hsl & Hsp & Hfk & Ht) Htotal. repeat split.
  - rewrite map_id_update_loan. exact Hl.
  - exact Hp.
  - intros l Hin. apply elem_of_update_loan in Hin as [[-> (l0 & Hin & <-)] | [Hin _]]; auto.
  - exact Hsp.
  - intros p Hin. destruct (Hfk p Hin) as (l & Hlin & Hid).
    eexists. split; [apply elem_of_update_loan_intro; exact Hlin |].
    case_decide; congruence.
  - intros l Hin. apply elem_of_update_loan in Hin as [[-> _] | [Hin _]]; auto.
Qed.

Lemma wf_update_installment p' ls ps seq_l seq_p :
  wf_tables ls ps seq_l seq_p ->
  (exists l, l ∈ ls /\ Loan.id l = Installment.cobranca_id p') ->
  wf_tables ls (update_installment p' ps) seq_l seq_p.
Proof.
  intros (Hl & Hp & Hsl & Hsp & Hfk & Ht) Hfk'. repeat split; try assumption.
  - rewrite map_id_update_installment. exact Hp.
  - intros p Hin.
    apply elem_of_update_installment in Hin as [[-> (p0 & Hin & <-)] | [Hin _]]; auto.
  - intros p Hin. apply elem_of_update_installment in Hin as [[-> _] | [Hin _]]; auto.
Qed.

Lemma NoDup_map_filter {A B} (f : A -> B) (g : A -> bool) xs :
  NoDup (List.map f xs) -> NoDup (List.map f (List.filter g xs)).
Proof.
  induction xs as [| x xs IH]; intros Hnd; simpl; [constructor |].
  simpl in Hnd. apply NoDup_cons in Hnd as [Hnotin Hnd].
  destruct (g x); [| auto]. simpl. apply NoDup_cons. split; [| auto].
  intros Hin. apply Hnotin. apply elem_of_map_list in Hin as (y & Hy & Hin).
  apply elem_of_filter_bool in Hin as [Hin _]. apply elem_of_map_list. eauto.
Qed.

(** Deleting loans together with the installments that reference them. *)
Lemma wf_filter (fl : Loan.t -> bool) (fp : Installment.t -> bool) ls ps seq_l seq_p :
  wf_tables ls ps seq_l seq_p ->
  (forall p l, p ∈ ps -> l ∈ ls -> Loan.id l = Installment.cobranca_id p ->
               fp p = true -> fl l = true) ->
  wf_tables (List.filter fl ls) (List.filter fp ps) seq_l seq_p.
Proof.
  intros (Hl & Hp & Hsl & Hsp & Hfk & Ht) Hkeep. repeat split.
  - apply NoDup_map_filter. exact Hl.
  - apply NoDup_map_filter. exact Hp.
  - intros l Hin. apply elem_of_filter_bool in Hin as [Hin _]. auto.
  - intros p Hin. apply elem_of_filter_bool in Hin as [Hin _]. auto.
  - intros p Hin. apply elem_of_filter_bool in Hin as [Hin Hfp].
    destruct (Hfk p Hin) as (l & Hlin & Hid). exists l. split; [| exact Hid].
    apply elem_of_filter_bool. split; [exact Hlin |]. eapply Hkeep; eauto.
  - intros l Hin. apply elem_of_filter_bool in Hin as [Hin _]. auto.
Qed.

Lemma wf_add_loan l ls ps seq_l seq_p :
  wf_tables ls ps seq_l seq_p -> Loan.id l = seq_l -> is_Some (Loan.valor_total l) ->
  wf_tables (ls ++ [l]) ps (seq_l + 1) seq_p.
Proof.
  intros (Hl & Hp & Hsl & Hsp & Hfk & Ht) Hid Htotal. repeat split; try assumption.
  - rewrite List.map_app. apply NoDup_app. split; [exact Hl |]. split.
    + intros x Hx Hx'. simpl in Hx'. apply list_elem_of_singleton in Hx'. subst x.
      apply elem_of_map_list in Hx as (l0 & Hl0 & Hin). apply Hsl in Hin. lia.
    + simpl. apply NoDup_singleton.
  - intros l0 Hin. apply elem_of_app in Hin as [Hin | Hin].
    + apply Hsl in Hin. lia.
    + apply list_elem_of_singleton in Hin. subst. lia.
  - intros p Hin. destruct (Hfk p Hin) as (l0 & Hlin & Hid0).
    exists l0. split; [apply elem_of_app; left; exact Hlin | exact Hid0].
  - intros l0 Hin. apply elem_of_app in Hin as [Hin | Hin]; [auto |].
    apply list_elem_of_singleton in Hin. subst. exact Htotal.
Qed.

Lemma wf_add_installments new (n : nat) ls ps seq_l seq_p seq_p' :
  wf_tables ls ps seq_l seq_p ->
  List.map Installment.id new = seqZ seq_p (Z.of_nat n) ->
  (forall p, p ∈ new -> exists l, l ∈ ls /\ Loan.id l = Installment.cobranca_id p) ->
  seq_p + Z.of_nat n <= seq_p' ->
  wf_tables ls (ps ++ new) seq_l seq_p'.
Proof.
  intros (Hl & Hp & Hsl & Hsp & Hfk & Ht) Hids Hnew Hseq. repeat split; try assumption.
  - rewrite List.map_app. apply NoDup_app. split; [exact Hp |]. split.
    + intros x Hx Hx'. rewrite Hids in Hx'. apply elem_of_seqZ in Hx'.
      apply elem_of_map_list in Hx as (p0 & Hp0 & Hin). apply Hsp in Hin. lia.
    + rewrite Hids. apply NoDup_seqZ.
  - intros p Hin. apply elem_of_app in Hin as [Hin | Hin].
    + apply Hsp in Hin. lia.
    + assert (Hx : Installment.id p ∈ List.map Installment.id new)
        by (apply elem_of_map_list; eauto).
      rewrite Hids in Hx. apply elem_of_seqZ in Hx. lia.
  - intros p Hin. apply elem_of_app in Hin as [Hin | Hin]; auto.
Qed.

Lemma wf_filter_installments (fp : Installment.t -> bool) ls ps seq_l seq_p :
  wf_tables ls ps seq_l seq_p -> wf_tables ls (List.filter fp ps) seq_l seq_p.
Proof.
  intros (Hl & Hp & Hsl & Hsp & Hfk & Ht). repeat split; try assumption.
  - apply NoDup_map_filter. exact Hp.
  - intros p Hin. apply elem_of_filter_bool in Hin as [Hin _]. auto.
  - intros p Hin. apply elem_of_filter_bool in Hin as [Hin _]. auto.
Qed.

Lemma wf_adicionar_cobranca form db : wf db -> wf (adicionar_cobranca form db).2.
Proof.
  intros Hwf. unfold adicionar_cobranca.
  destruct (decide (weekday (form_data_vencimento form) = 6)); [exact Hwf |].
  assert (Hgen : forall N loan v, 0 <= N -> Loan.id loan = cobrancas_id_seq db ->
            is_Some (Loan.valor_total loan) ->
            wf_tables (cobrancas db ++ [loan])
              (parcelas db ++ gerar_parcelas (Z.to_nat N) 0 (parcelas_id_seq db)
                                (Loan.id loan) v (form_data_vencimento form))
              (cobrancas_id_seq db + 1) (parcelas_id_seq db + N)).
  { intros N loan v HN Hid Htotal.
    apply (wf_add_installments _ (Z.to_nat N) _ _ _ (parcelas_id_seq db)).
    - apply wf_add_loan; assumption.
    - apply gerar_parcelas_ids.
    - intros p Hp. apply gerar_parcelas_elem in Hp as (_ & Hc & _).
      exists loan. split; [| congruence]. apply elem_of_app. right. constructor.
    - lia. }
  destruct (decide (form_taxa_juros form = of_int 30)).
  { apply Hgen; [lia | reflexivity | eexists; reflexivity]. }
  destruct (decide (form_taxa_juros form = of_int 60)).
  { apply Hgen; [lia | reflexivity | eexists; reflexivity]. }
  exact Hwf.
Qed.

Lemma wf_editar_cobranca id form db : wf db -> wf (editar_cobranca id form db).2.
Proof.
  intros Hwf. unfold editar_cobranca.
  destruct (get_loan db id) as [cobranca |] eqn:Hloan; [| exact Hwf].
  destruct (List.find _ (clientes db)); [| exact Hwf].
  destruct (edit_valor_emprestimo form) as [valor |]; [| exact Hwf].
  destruct (decide (valor ≤ 0)%Qc); [exact Hwf |].
  destruct (edit_data_vencimento form) as [data |]; [| exact Hwf].
  destruct (decide (weekday data = 6)); [exact Hwf |].
  match goal with |- context [decide (?n = 0)] => set (N := n) end.
  destruct (decide (N = 0)); [exact Hwf |].
  apply get_loan_Some in Hloan as [Hid Hin].
  unfold wf. cbn [snd cobrancas parcelas cobrancas_id_seq parcelas_id_seq].
  apply (wf_add_installments _ (Z.to_nat N) _ _ _ (parcelas_id_seq db)).
  - apply wf_update_loan; [| eexists; reflexivity].
    apply wf_filter_installments. exact Hwf.
  - apply gerar_parcelas_ids.
  - intros p Hp. apply gerar_parcelas_elem in Hp as (_ & Hc & _).
    eexists. split; [apply elem_of_update_loan_intro; exact Hin |].
    rewrite decide_True by reflexivity. simpl. congruence.
  - lia.
Qed.

Lemma wf_cancelar_cobranca id db : wf db -> wf (cancelar_cobranca id db).2.
Proof.
  intros Hwf. unfold cancelar_cobranca.
  destruct (get_loan db id); [| exact Hwf].
  apply wf_filter; [exact Hwf |].
  intros p l _ _ Hid Hp. apply negb_true_iff, bool_decide_eq_false in Hp.
  apply negb_true_iff, bool_decide_eq_false. congruence.
Qed.

Lemma wf_deletar_cliente id db : wf db -> wf (deletar_cliente id db).2.
Proof.
  intros Hwf. unfold deletar_cliente.
  destruct (List.find _ (clientes db)) as [cliente |] eqn:Hcli; [| exact Hwf].
  apply List.find_some in Hcli as [_ Hcid]. apply bool_decide_eq_true in Hcid.
  apply wf_filter; [exact Hwf |].
  intros p l _ Hl Hid Hp. apply negb_true_iff in Hp.
  apply negb_true_iff, bool_decide_eq_false. intros Hc.
  assert (Hex : existsb (fun l0 => bool_decide (Loan.id l0 = Installment.cobranca_id p))
                  (loans_of db cliente) = true); [| congruence].
  apply List.existsb_exists. exists l. split; [| apply bool_decide_eq_true; exact Hid].
  apply list_elem_of_In. apply elem_of_filter_bool. split; [exact Hl |].
  apply bool_decide_eq_true. congruence.
Qed.

Lemma wf_registrar_pagamento req id valor obs db :
  wf db -> wf (registrar_pagamento req id valor obs db).2.
Proof.
  intros Hwf. unfold registrar_pagamento.
  destruct (get_loan db id) as [cobranca |] eqn:Hloan; [| exact Hwf].
  destruct (decide (valor ≤ 0)%Qc); [exact Hwf |].
  apply get_loan_Some in Hloan as [_ Hin].
  apply wf_update_loan; [exact Hwf |]. simpl.
  destruct Hwf as (_ & _ & _ & _ & _ & Ht). auto.
Qed.

Lemma wf_marcar_parcela_paga req id db : wf db -> wf (marcar_parcela_paga req id db).2.
Proof.
  intros Hwf. unfold marcar_parcela_paga.
  destruct (get_installment db id) as [parcela |] eqn:Hp; [| exact Hwf].
  destruct (get_loan db (Installment.cobranca_id parcela)) as [cobranca |] eqn:Hloan;
    [| exact Hwf].
  destruct (decide (Installment.status parcela = Pago)); [exact Hwf |].
  destruct (Loan.valor_total cobranca) as [total |] eqn:Ht; [| exact Hwf].
  apply get_loan_Some in Hloan as [Hid Hin].
  apply wf_update_loan; [| simpl; eauto].
  apply wf_update_installment; [exact Hwf |]. simpl. eauto.
Qed.

Lemma wf_editar_multa_parcela id multa db : wf db -> wf (editar_multa_parcela id multa db).2.
Proof.
  intros Hwf. unfold editar_multa_parcela.
  destruct (get_installment db id) as [parcela |] eqn:Hp; [| exact Hwf].
  apply get_installment_Some in Hp as [_ Hin].
  pose proof Hwf as (_ & _ & _ & _ & Hfk & _).
  destruct multa as [m |]; [destruct (decide (m < 0)%Qc); [exact Hwf |] |];
    (apply wf_update_installment; [exact Hwf | simpl; auto]).
Qed.

Lemma wf_editar_data_parcela id data db : wf db -> wf (editar_data_parcela id data db).2.
Proof.
  intros Hwf. unfold editar_data_parcela.
  destruct (get_installment db id) as [parcela |] eqn:Hp; [| exact Hwf].
  apply get_installment_Some in Hp as [_ Hin].
  pose proof Hwf as (_ & _ & _ & _ & Hfk & _).
  destruct data as [d |]; [| exact Hwf].
  destruct (decide (weekday d = 6)); [exact Hwf |].
  apply wf_update_installment; [exact Hwf | simpl; auto].
Qed.

Create HintDb store.

#[local] Hint Resolve wf_adicionar_cobranca wf_editar_cobranca wf_cancelar_cobranca
  wf_deletar_cliente wf_registrar_pagamento wf_marcar_parcela_paga
  wf_editar_multa_parcela wf_editar_data_parcela : store.

Lemma wf_handle req op db : wf db -> wf (handle req op db).2.
Proof. destruct op; simpl; auto with store. Qed.

Lemma wf_empty_db : wf empty_db.
Proof.
  repeat split; simpl; try constructor; intros x Hx; inversion Hx.
Qed.

#[local] Hint Resolve wf_handle wf_empty_db : store.

(** Every store that the application reaches is well formed. *)
Lemma reachable_wf db : reachable db -> wf db.
Proof. induction 1; auto with store. Qed.

(** ** Settling an installment: [marcar_parcela_paga] *)

Lemma get_installment_update p' db id p :
  Installment.id p' = id -> get_installment db id = Some p ->
  List.find (fun q => bool_decide (Installment.id q = id))
    (update_installment p' (parcelas db)) = Some p'.
Proof.
  unfold get_installment. intros Hid.
  induction (parcelas db) as [| q qs IH]; simpl; [discriminate |].
  destruct (bool_decide (Installment.id q = id)) eqn:Hq.
  - intros _. apply bool_decide_eq_true in Hq.
    rewrite decide_True by congruence. rewrite bool_decide_eq_true_2 by exact Hid.
    reflexivity.
  - intros H. apply bool_decide_eq_false in Hq.
    rewrite decide_False by congruence. rewrite bool_decide_eq_false_2 by exact Hq.
    auto.
Qed.

Lemma get_loan_update l' db id l :
  Loan.id l' = id -> get_loan db id = Some l ->
  List.find (fun q => bool_decide (Loan.id q = id))
    (update_loan l' (cobrancas db)) = Some l'.
Proof.
  unfold get_loan. intros Hid.
  induction (cobrancas db) as [| q qs IH]; simpl; [discriminate |].
  destruct (bool_decide (Loan.id q = id)) eqn:Hq.
  - intros _. apply bool_decide_eq_true in Hq.
    rewrite decide_True by congruence. rewrite bool_decide_eq_true_2 by exact Hid.
    reflexivity.
  - intros H. apply bool_decide_eq_false in Hq.
    rewrite decide_False by congruence. rewrite bool_decide_eq_false_2 by exact Hq.
    auto.
Qed.

(** In a well-formed store an installment has its loan, and the loan a
    total due. *)
Lemma wf_loan_of_installment db p :
  wf db -> p ∈ parcelas db ->
  exists l t, get_loan db (Installment.cobranca_id p) = Some l /\
              Loan.valor_total l = Some t.
Proof.
  intros (Hl & _ & _ & _ & Hfk & Ht) Hp.
  destruct (Hfk p Hp) as (l & Hin & Hid). destruct (Ht l Hin) as [t Htl].
  exists l, t. split; [| exact Htl]. rewrite <- Hid. apply get_loan_elem; assumption.
Qed.


Lemma reachable_db_emprestimo : reachable db_emprestimo.
Proof.
  exact (reach_handle db_cliente requisicao (AdicionarCobranca form_1000_30)
           (reach_clientes empty_db _ _ reach_empty)).
Qed.

Lemma reachable_db_parcela_paga : reachable db_parcela_paga.
Proof.
  exact (reach_handle db_emprestimo requisicao (MarcarParcelaPaga 1)
           reachable_db_emprestimo).
Qed.


(** The note of the history row of the sample settlement. *)
Example observacoes_parcela_1 :
  List.map PaymentHistory.observacoes (historico_pagamentos db_parcela_paga)
  = ["Pagamento da parcela 1"].
Proof. vm_compute. reflexivity. Qed.

(** ** The tenant field of the audit rows *)

(** C10.  Whenever [registrar_pagamento] or [marcar_parcela_paga] writes
    audit rows (the requests that do not succeed write none and leave the
    store as it was), the field [client_id] of every new [Payment] and
    [PaymentHistory] row holds [cliente_id] of the loan, the key of the
    borrowing customer, and not the loan's own [client_id]. *)
Theorem audit_rows_store_cliente_id req db :
  (forall id valor obs,
     let r := registrar_pagamento req id valor obs db in
     (r.1 <> Success /\ r.2 = db)
     \/ exists cobranca pagamento historico,
          r.1 = Success /\
          get_loan db id = Some cobranca /\
          pagamentos r.2 = pagamentos db ++ [pagamento] /\
          historico_pagamentos r.2 = historico_pagamentos db ++ [historico] /\
          Payment.client_id pagamento = Loan.cliente_id cobranca /\
          PaymentHistory.client_id historico = Loan.cliente_id cobranca) /\
  (forall id,
     let r := marcar_parcela_paga req id db in
     (r.1 <> Success /\ r.2 = db)
     \/ exists parcela cobranca historico,
          r.1 = Success /\
          get_installment db id = Some parcela /\
          get_loan db (Installment.cobranca_id parcela) = Some cobranca /\
          pagamentos r.2 = pagamentos db /\
          historico_pagamentos r.2 = historico_pagamentos db ++ [historico] /\
          PaymentHistory.client_id historico = Loan.cliente_id cobranca).
Proof.
  split.
  - intros id valor obs. unfold registrar_pagamento.
    destruct (get_loan db id) as [cobranca |] eqn:Hloan;
      [| left; split; [discriminate | reflexivity]].
    destruct (decide (valor ≤ 0)%Qc); [left; split; [discriminate | reflexivity] |].
    right. eexists cobranca, _, _. repeat split; reflexivity.
  - intros id. unfold marcar_parcela_paga.
    destruct (get_installment db id) as [parcela |] eqn:Hparcela;
      [| left; split; [discriminate | reflexivity]].
    destruct (get_loan db (Installment.cobranca_id parcela)) as [cobranca |] eqn:Hloan;
      [| left; split; [discriminate | reflexivity]].
    destruct (decide (Installment.status parcela = Pago));
      [left; split; [discriminate | reflexivity] |].
    destruct (Loan.valor_total cobranca);
      [| left; split; [discriminate | reflexivity]].
    right. eexists parcela, cobranca, _. repeat split; try reflexivity. exact Hloan.
Qed.

(** On the sample loan: the history row of the settlement carries the key 1
    of the customer, while the loan itself has no tenant. *)
Example client_id_of_sample_history :
  List.map PaymentHistory.client_id (historico_pagamentos db_parcela_paga) = [1] /\
  List.map Loan.cliente_id (cobrancas db_parcela_paga) = [1] /\
  List.map Loan.client_id (cobrancas db_parcela_paga) = [None].
Proof. vm_compute. repeat split; reflexivity. Qed.

(** ** The accrual calculator *)

Lemma timedelta_days_pos td : 0 < timedelta_days td -> 0 < td.
Proof.
  unfold timedelta_days, us_per_day. intros H.
  destruct (Z_lt_le_dec 0 td) as [Hlt | Hle]; [exact Hlt |].
  assert (td / 86400000000 <= 0) by (apply Z.div_le_upper_bound; lia). lia.
Qed.



(** The boundary of the tolerance: nothing accrues on the 3rd day, and the
    penalty and the interest accrue on the 4th. *)
Example accrual_grace_boundary :
  calcular_valor_atualizado (DateTime ((toordinal sabado + 3) * us_per_day + 1))
    db_configurado cobranca_1000
  = Some (mkValorAtualizado 0%Qc 0%Qc (of_int 1000 - 0)%Qc 0) /\
  exists r,
    calcular_valor_atualizado (DateTime ((toordinal sabado + 4) * us_per_day + 1))
      db_configurado cobranca_1000 = Some r /\
    multa r = of_int 100 /\ juros r = (of_int 267 / of_int 100)%Qc /\
    dias_atraso r = 4.
Proof.
  split; [reflexivity |]. eexists. split; [reflexivity |].
  repeat split; apply Qc_is_canon; reflexivity.
Qed.

(** ** What requests do to installment rows *)

Lemma evolves_refl op p : evolves op p p.
Proof. unfold evolves. tauto. Qed.

(** A row of the new store comes from a row of the old store with the same
    key, or it is a pending row with a key drawn from the sequence. *)
Lemma handle_installment_origin req op db p' :
  p' ∈ parcelas (handle req op db).2 ->
  (exists p0, p0 ∈ parcelas db /\ evolves op p0 p')
  \/ (parcelas_id_seq db <= Installment.id p' /\ Installment.status p' = Pendente
      /\ Installment.multa_manual p' = None).
Proof.
  assert (Hsame : p' ∈ parcelas db ->
            (exists p0, p0 ∈ parcelas db /\ evolves op p0 p')
            \/ (parcelas_id_seq db <= Installment.id p'
                /\ Installment.status p' = Pendente
                /\ Installment.multa_manual p' = None))
    by (intros H; left; exists p'; split; [exact H | apply evolves_refl]).
  assert (Hnew : forall n i cid v d,
            p' ∈ gerar_parcelas n i (parcelas_id_seq db) cid v d ->
            (exists p0, p0 ∈ parcelas db /\ evolves op p0 p')
            \/ (parcelas_id_seq db <= Installment.id p'
                /\ Installment.status p' = Pendente
                /\ Installment.multa_manual p' = None)).
  { intros n i cid v d H. apply gerar_parcelas_elem in H. right. split; [lia | tauto]. }
  assert (Hfilter : forall f, p' ∈ List.filter f (parcelas db) -> p' ∈ parcelas db)
    by (intros f H; apply elem_of_filter_bool in H; tauto).
  destruct op; simpl.
  - unfold adicionar_cobranca.
    destruct (decide (weekday (form_data_vencimento form) = 6)); [auto |].
    destruct (decide (form_taxa_juros form = of_int 30));
      [cbn [snd parcelas]; intros Hel; apply elem_of_app in Hel as [Hel | Hel]; eauto |].
    destruct (decide (form_taxa_juros form = of_int 60));
      [cbn [snd parcelas]; intros Hel; apply elem_of_app in Hel as [Hel | Hel]; eauto | auto].
  - unfold editar_cobranca.
    destruct (get_loan db id); [| auto].
    destruct (List.find _ (clientes db)); [| auto].
    destruct (edit_valor_emprestimo form); [| auto].
    case_decide; [auto |].
    destruct (edit_data_vencimento form); [| auto].
    case_decide; [auto |]. case_decide; [auto |]. simpl.
    intros Hel; apply elem_of_app in Hel as [Hel | Hel]; eauto.
  - unfold cancelar_cobranca. destruct (get_loan db cobranca_id); simpl; eauto.
  - unfold registrar_pagamento. destruct (get_loan db id); [| auto].
    case_decide; auto.
  - unfold marcar_parcela_paga.
    destruct (get_installment db id) as [parcela |] eqn:Hp; [| auto].
    destruct (get_loan db _); [| auto]. case_decide as Hst; [auto |].
    destruct (Loan.valor_total _); [| auto]. simpl. intros Hel.
    apply get_installment_Some in Hp as [_ Hin].
    apply elem_of_update_installment in Hel as [[-> _] | [Hel _]]; [| auto].
    left. exists parcela. split; [exact Hin |]. unfold evolves; simpl. tauto.
  - unfold editar_multa_parcela.
    destruct (get_installment db id) as [parcela |] eqn:Hp; [| auto].
    apply get_installment_Some in Hp as [_ Hin].
    destruct multa_input as [m |]; [case_decide as Hm; [auto |] |]; simpl; intros Hel;
      (apply elem_of_update_installment in Hel as [[-> _] | [Hel _]]; [| auto]);
      left; exists parcela; (split; [exact Hin |]); unfold evolves; simpl;
      repeat split; try tauto; right; intros m0 [= <-].
    apply Qcnot_lt_le. exact Hm.
  - unfold editar_data_parcela.
    destruct (get_installment db id) as [parcela |] eqn:Hp; [| auto].
    apply get_installment_Some in Hp as [Hid Hin].
    destruct nova_data as [d |]; [| auto]. case_decide as Hd; [auto |]. simpl. intros Hel.
    apply elem_of_update_installment in Hel as [[-> _] | [Hel _]]; [| auto].
    left. exists parcela. split; [exact Hin |]. unfold evolves; simpl.
    repeat split; try tauto. right. exists d. rewrite Hid. auto.
  - unfold deletar_cliente. destruct (List.find _ (clientes db)); simpl; eauto.
Qed.

Lemma handle_parcelas_id_seq req op db :
  parcelas_id_seq db <= parcelas_id_seq (handle req op db).2.
Proof.
  destruct op; simpl.
  - unfold adicionar_cobranca. repeat (case_decide; simpl; try lia).
  - unfold editar_cobranca.
    repeat (match goal with
            | |- context [match ?x with _ => _ end] => destruct x
            end; simpl; try lia).
  - unfold cancelar_cobranca. destruct (get_loan db cobranca_id); simpl; lia.
  - unfold registrar_pagamento. destruct (get_loan db id); [| simpl; lia].
    case_decide; simpl; lia.
  - unfold marcar_parcela_paga.
    repeat (match goal with
            | |- context [match ?x with _ => _ end] => destruct x
            end; simpl; try lia).
  - unfold editar_multa_parcela.
    repeat (match goal with
            | |- context [match ?x with _ => _ end] => destruct x
            end; simpl; try lia).
  - unfold editar_data_parcela.
    repeat (match goal with
            | |- context [match ?x with _ => _ end] => destruct x
            end; simpl; try lia).
  - unfold deletar_cliente. destruct (List.find _ (clientes db)); simpl; lia.
Qed.

(** ** Paid installments *)

(** The claim C9 fails on the due-date edit: the first installment of the
    sample loan is paid and due on the Saturday, and [editar_data_parcela]
    moves its due date to the Monday. *)
Lemma editar_data_parcela_moves_paid_installment :
  Installment.status <$> get_installment db_parcela_paga 1 = Some Pago /\
  Installment.data_vencimento <$> get_installment db_parcela_paga 1 = Some sabado /\
  let r := editar_data_parcela 1 (Some segunda) db_parcela_paga in
  r.1 = Success /\
  Installment.status <$> get_installment r.2 1 = Some Pago /\
  Installment.data_vencimento <$> get_installment r.2 1 = Some segunda /\
  Installment.data_vencimento <$> get_installment r.2 1
  <> Installment.data_vencimento <$> get_installment db_parcela_paga 1.
Proof. vm_compute. repeat split; try reflexivity. discriminate. Qed.

(** C9, amended.  For an installment that is paid in a reachable store: a
    request that keeps the row leaves its amount and its paid status as they
    are, and leaves its due date as it is unless the request is the due-date
    edit of this very installment, which sets the submitted date, not a
    Sunday, on paid and pending installments alike; and in every store
    reached later, the row with this key, as long as it exists (the
    regeneration and the cancellation of the loan and the deletion of the
    customer delete it), has the same amount and is paid. *)
Theorem paid_installment_fields db p :
  reachable db -> p ∈ parcelas db -> Installment.status p = Pago ->
  (forall req op p',
     p' ∈ parcelas (handle req op db).2 -> Installment.id p' = Installment.id p ->
     Installment.valor p' = Installment.valor p /\
     Installment.status p' = Pago /\
     (Installment.data_vencimento p' = Installment.data_vencimento p
      \/ exists d, op = EditarDataParcela (Installment.id p) (Some d) /\
                   weekday d <> 6 /\ Installment.data_vencimento p' = d)) /\
  (forall db' p',
     reachable_from db db' ->
     p' ∈ parcelas db' -> Installment.id p' = Installment.id p ->
     Installment.valor p' = Installment.valor p /\ Installment.status p' = Pago).
Proof.
  intros Hreach Hin Hpago. apply reachable_wf in Hreach.
  pose proof Hreach as (_ & Hnd & _ & Hseq & _).
  split.
  - intros req op p' Hin' Hid.
    apply handle_installment_origin in Hin' as [(p0 & Hin0 & Hev) | [Hge _]].
    + assert (p0 = p) as ->.
      { eapply installment_id_inj; eauto. destruct Hev as (Hev & _). congruence. }
      destruct Hev as (_ & _ & _ & Hv & Hst & Hd & _). auto.
    + apply Hseq in Hin. lia.
  - intros db' p' Hfrom.
    assert (Hinv : Installment.id p < parcelas_id_seq db' /\
              forall q, q ∈ parcelas db' -> Installment.id q = Installment.id p ->
                        Installment.valor q = Installment.valor p
                        /\ Installment.status q = Pago); [| apply Hinv].
    clear p'. induction Hfrom as [| db1 req op _ [IHseq IH] | db1 cs cfg _ IH].
    + split; [auto |]. intros q Hq Hid.
      assert (q = p) as -> by (eapply installment_id_inj; eauto). auto.
    + split; [pose proof (handle_parcelas_id_seq req op db1); lia |].
      intros q Hq Hid.
      apply handle_installment_origin in Hq as [(q0 & Hin0 & Hev) | [Hge _]]; [| lia].
      destruct Hev as (Hid0 & _ & _ & Hv & Hst & _).
      destruct (IH q0 Hin0) as [Hv0 Hst0]; [congruence |].
      split; [congruence | auto].
    + exact IH.
Qed.

Lemma paid_installment_fields_witness :
  Installment.valor parcela_1_paga_segunda = Installment.valor parcela_1_paga /\
  Installment.status parcela_1_paga_segunda = Pago /\
  (Installment.data_vencimento parcela_1_paga_segunda
   = Installment.data_vencimento parcela_1_paga
   \/ exists d,
        EditarDataParcela 1 (Some segunda)
        = EditarDataParcela (Installment.id parcela_1_paga) (Some d) /\
        weekday d <> 6 /\ Installment.data_vencimento parcela_1_paga_segunda = d).
Proof.
  apply (proj1 (paid_installment_fields db_parcela_paga parcela_1_paga
                  reachable_db_parcela_paga
                  ltac:(apply (list_elem_of_lookup_2 _ 0%nat); vm_compute; reflexivity)
                  ltac:(reflexivity))
           requisicao (EditarDataParcela 1 (Some segunda)) parcela_1_paga_segunda).
  - apply (list_elem_of_lookup_2 _ 0%nat). vm_compute. reflexivity.
  - reflexivity.
Defined.

(** ** The ledger invariant *)

Lemma sum_money_nonpos vals : Forall (fun v => (v ≤ 0)%Qc) vals -> (sum_money vals ≤ 0)%Qc.
Proof.
  induction 1 as [| v vals Hv _ IH].
  - rewrite sum_money_nil. apply Qcle_refl.
  - rewrite sum_money_cons. qc_lra.
Qed.

(** A paid loan has at least its total due paid. *)
Lemma ledger_ok_Pago total paid vals : ledger_ok total paid Pago vals -> (total ≤ paid)%Qc.
Proof.
  intros [[_ H] | [Hneg H]]; [auto |].
  apply sum_money_nonpos in Hneg. qc_lra.
Qed.

Lemma ledger_ok_more_paid total paid paid' status vals :
  (paid ≤ paid')%Qc -> ledger_ok total paid status vals -> ledger_ok total paid' status vals.
Proof.
  intros Hle [[Hpos H] | [Hneg H]]; [left | right]; split; try assumption.
  - intros Hs. specialize (H Hs). qc_lra.
  - qc_lra.
Qed.

(** A newly generated schedule: [n] installments of [total / n] each. *)
Lemma ledger_ok_generated (total : money) (N : Z) :
  ledger_ok total 0%Qc Pendente (List.repeat (total / of_int N)%Qc (Z.to_nat N)).
Proof.
  destruct (decide (N <= 0)) as [HN | HN].
  { replace (Z.to_nat N) with 0%nat by lia. left. split; [constructor | discriminate]. }
  destruct (decide (0 ≤ total / of_int N)%Qc) as [Hpos | Hneg].
  - left. split; [| discriminate].
    apply Forall_forall. intros v Hv. apply list_elem_of_In, List.repeat_spec in Hv.
    subst. exact Hpos.
  - right. split.
    + apply Forall_forall. intros v Hv. apply list_elem_of_In, List.repeat_spec in Hv.
      subst. apply Qclt_le_weak, Qcnot_le_lt. exact Hneg.
    + rewrite (sum_money_const (total / of_int N)%Qc).
      * rewrite List.repeat_length, Z2Nat.id by lia.
        assert (of_int N * (total / of_int N) = total)%Qc as ->
          by (field; apply of_int_neq_0; lia).
        qc_lra.
      * apply Forall_forall. intros v Hv.
        apply list_elem_of_In, List.repeat_spec in Hv. exact Hv.
Qed.

(** *** Pending amounts under the changes of the table *)

Lemma pendentes_de_app ps qs cid :
  pendentes_de (ps ++ qs) cid = pendentes_de ps cid ++ pendentes_de qs cid.
Proof. unfold pendentes_de. rewrite List.filter_app, List.map_app. reflexivity. Qed.

Lemma pendentes_de_none ps cid :
  (forall p, p ∈ ps -> Installment.cobranca_id p <> cid) -> pendentes_de ps cid = [].
Proof.
  intros H. unfold pendentes_de. rewrite filter_all_false; [reflexivity |].
  intros p Hp. apply andb_false_iff. left. apply bool_decide_eq_false. auto.
Qed.

Lemma filter_filter_keep {A} (f g : A -> bool) (xs : list A) :
  (forall x, x ∈ xs -> g x = true -> f x = true) ->
  List.filter g (List.filter f xs) = List.filter g xs.
Proof.
  induction xs as [| x xs IH]; intros H; simpl; [reflexivity |].
  assert (IH' : List.filter g (List.filter f xs) = List.filter g xs)
    by (apply IH; intros y Hy; apply H; right; exact Hy).
  destruct (f x) eqn:Hf; simpl.
  - rewrite IH'. reflexivity.
  - destruct (g x) eqn:Hg; [| exact IH'].
    rewrite (H x) in Hf by (try left; auto). discriminate.
Qed.

(** Deleting rows of other loans does not change the pending amounts. *)
Lemma pendentes_de_filter (f : Installment.t -> bool) ps cid :
  (forall p, p ∈ ps -> Installment.cobranca_id p = cid -> f p = true) ->
  pendentes_de (List.filter f ps) cid = pendentes_de ps cid.
Proof.
  intros H. unfold pendentes_de. f_equal. apply filter_filter_keep.
  intros p Hp Hg. apply andb_true_iff in Hg as [Hg _].
  apply bool_decide_eq_true in Hg. auto.
Qed.

Lemma pendentes_de_filter_out ps cid :
  pendentes_de
    (List.filter (fun p => negb (bool_decide (Installment.cobranca_id p = cid))) ps) cid
  = [].
Proof.
  apply pendentes_de_none. intros p Hp. apply elem_of_filter_bool in Hp as [_ Hp].
  apply negb_true_iff, bool_decide_eq_false in Hp. exact Hp.
Qed.

Lemma pendentes_de_gerar_parcelas n i next_id cid v d :
  pendentes_de (gerar_parcelas n i next_id cid v d) cid = List.repeat v n.
Proof.
  revert i next_id d. induction n as [| n IH]; intros i next_id d; [reflexivity |].
  unfold pendentes_de in *. simpl.
  rewrite bool_decide_eq_true_2 by reflexivity. simpl. rewrite IH. reflexivity.
Qed.

Lemma map_filter_map {A B} (u : A -> A) (g : A -> bool) (v : A -> B) xs :
  (forall x, x ∈ xs -> g (u x) = g x /\ v (u x) = v x) ->
  List.map v (List.filter g (List.map u xs)) = List.map v (List.filter g xs).
Proof.
  induction xs as [| x xs IH]; intros H; [reflexivity |]. simpl.
  destruct (H x) as [Hg Hv]; [left |]. rewrite Hg.
  assert (IH' : List.map v (List.filter g (List.map u xs)) = List.map v (List.filter g xs))
    by (apply IH; intros y Hy; apply H; right; exact Hy).
  destruct (g x); simpl; rewrite IH'; congruence.
Qed.

(** Writing back a row that keeps its loan, its status and its amount. *)
Lemma pendentes_de_update_same p' ps cid :
  (forall q, q ∈ ps -> Installment.id q = Installment.id p' ->
             Installment.cobranca_id q = Installment.cobranca_id p' /\
             Installment.status q = Installment.status p' /\
             Installment.valor q = Installment.valor p') ->
  pendentes_de (update_installment p' ps) cid = pendentes_de ps cid.
Proof.
  intros H. unfold pendentes_de, update_installment. apply map_filter_map.
  intros q Hq. case_decide as Hid; [| split; reflexivity].
  destruct (H q Hq Hid) as (Hc & Hs & Hv). unfold is_pendente.
  rewrite Hc, Hs, Hv. split; reflexivity.
Qed.

Lemma update_installment_absent p' ps :
  (forall q, q ∈ ps -> Installment.id q <> Installment.id p') ->
  update_installment p' ps = ps.
Proof.
  intros H. unfold update_installment. rewrite <- (List.map_id ps) at 2.
  apply List.map_ext_in. intros q Hq. apply list_elem_of_In in Hq.
  rewrite decide_False by auto. reflexivity.
Qed.

(** Settling a pending row takes its amount out of the pending amounts of
    its loan. *)
Lemma pendentes_de_settle p p' ps :
  NoDup (List.map Installment.id ps) -> p ∈ ps ->
  Installment.status p = Pendente ->
  Installment.id p' = Installment.id p ->
  Installment.status p' = Pago ->
  pendentes_de ps (Installment.cobranca_id p)
  ≡ₚ Installment.valor p
     :: pendentes_de (update_installment p' ps) (Installment.cobranca_id p).
Proof.
  intros Hnd Hin Hst Hid Hst'.
  induction ps as [| q qs IH]; [inversion Hin |].
  simpl in Hnd. apply NoDup_cons in Hnd as [Hnotin Hnd].
  apply elem_of_cons in Hin as [<- | Hin].
  - unfold pendentes_de. unfold update_installment at 1. simpl.
    rewrite decide_True by congruence.
    assert (Hp : is_pendente p = true)
      by (unfold is_pendente; apply bool_decide_eq_true; exact Hst).
    assert (Hp' : is_pendente p' = false)
      by (unfold is_pendente; apply bool_decide_eq_false; congruence).
    rewrite Hp, Hp', andb_false_r.
    rewrite (bool_decide_eq_true_2 (Installment.cobranca_id p = _)) by reflexivity.
    simpl.
    fold (update_installment p' qs). rewrite update_installment_absent; [reflexivity |].
    intros r Hr Heq. apply Hnotin. apply elem_of_map_list. exists r. split; [congruence | auto].
  - specialize (IH Hnd Hin).
    assert (Hne : Installment.id q <> Installment.id p').
    { intros Heq. apply Hnotin. apply elem_of_map_list. exists p. split; [congruence | auto]. }
    unfold pendentes_de in *. unfold update_installment in *. simpl.
    rewrite decide_False by exact Hne.
    destruct (bool_decide (Installment.cobranca_id q = Installment.cobranca_id p)
              && is_pendente q); simpl.
    + rewrite IH. apply perm_swap.
    + exact IH.
Qed.

Lemma pendentes_de_settle_other p p' ps cid :
  NoDup (List.map Installment.id ps) -> p ∈ ps ->
  Installment.id p' = Installment.id p ->
  Installment.cobranca_id p' = Installment.cobranca_id p ->
  Installment.valor p' = Installment.valor p ->
  Installment.cobranca_id p <> cid ->
  pendentes_de (update_installment p' ps) cid = pendentes_de ps cid.
Proof.
  intros Hnd Hin Hid Hc Hv Hne. unfold pendentes_de, update_installment.
  apply map_filter_map. intros q Hq. case_decide as Hq'; [| split; reflexivity].
  assert (q = p) as -> by (eapply installment_id_inj; eauto; congruence).
  rewrite Hc, Hv. rewrite !bool_decide_eq_false_2 by exact Hne. split; reflexivity.
Qed.

(** *** The invariant under the requests *)

Lemma ledger_generate ls ps seq_l seq_p l' (N : Z) (total : money) d :
  wf_tables ls ps seq_l seq_p -> ledger_tables ls ps ->
  (exists l, l ∈ ls /\ Loan.id l = Loan.id l') ->
  Loan.valor_total l' = Some total -> Loan.valor_pago l' = 0%Qc ->
  Loan.status l' = Pendente ->
  ledger_tables (update_loan l' ls)
    (List.filter (fun p => negb (bool_decide (Installment.cobranca_id p = Loan.id l'))) ps
     ++ gerar_parcelas (Z.to_nat N) 0 seq_p (Loan.id l') (total / of_int N)%Qc d).
Proof.
  intros Hwf Hledger Hex Htotal Hpago Hstatus r Hr.
  apply elem_of_update_loan in Hr as [[-> _] | [Hr Hne]].
  - exists total. split; [exact Htotal |].
    rewrite pendentes_de_app, pendentes_de_filter_out, pendentes_de_gerar_parcelas.
    rewrite Hpago, Hstatus. apply ledger_ok_generated.
  - destruct (Hledger r Hr) as (t & Ht & Hok). exists t. split; [exact Ht |].
    rewrite pendentes_de_app, pendentes_de_filter.
    + rewrite (pendentes_de_none (gerar_parcelas _ _ _ _ _ _)), app_nil_r; [exact Hok |].
      intros p Hp. apply gerar_parcelas_elem in Hp. intros Heq. apply Hne.
      destruct Hp as (_ & Hc & _). congruence.
    + intros p _ Hc. apply negb_true_iff, bool_decide_eq_false. congruence.
Qed.

Lemma ledger_add ls ps seq_l seq_p l' (N : Z) (total : money) d :
  wf_tables ls ps seq_l seq_p -> ledger_tables ls ps ->
  Loan.id l' = seq_l ->
  Loan.valor_total l' = Some total -> Loan.valor_pago l' = 0%Qc ->
  Loan.status l' = Pendente ->
  ledger_tables (ls ++ [l'])
    (ps ++ gerar_parcelas (Z.to_nat N) 0 seq_p (Loan.id l') (total / of_int N)%Qc d).
Proof.
  intros (_ & _ & Hsl & _ & Hfk & _) Hledger Hid Htotal Hpago Hstatus r Hr.
  apply elem_of_app in Hr as [Hr | Hr].
  - destruct (Hledger r Hr) as (t & Ht & Hok). exists t. split; [exact Ht |].
    rewrite pendentes_de_app.
    rewrite (pendentes_de_none (gerar_parcelas _ _ _ _ _ _)), app_nil_r; [exact Hok |].
    intros p Hp. apply gerar_parcelas_elem in Hp. destruct Hp as (_ & Hc & _).
    apply Hsl in Hr. lia.
  - apply list_elem_of_singleton in Hr. subst r.
    exists total. split; [exact Htotal |].
    rewrite pendentes_de_app, pendentes_de_gerar_parcelas.
    rewrite (pendentes_de_none ps); [simpl; rewrite Hpago, Hstatus; apply ledger_ok_generated |].
    intros p Hp. destruct (Hfk p Hp) as (l0 & Hl0 & Hid0). apply Hsl in Hl0. lia.
Qed.

Lemma ledger_filter (fl : Loan.t -> bool) (fp : Installment.t -> bool) ls ps :
  ledger_tables ls ps ->
  (forall l p, l ∈ ls -> fl l = true -> p ∈ ps ->
               Installment.cobranca_id p = Loan.id l -> fp p = true) ->
  ledger_tables (List.filter fl ls) (List.filter fp ps).
Proof.
  intros Hledger Hkeep r Hr. apply elem_of_filter_bool in Hr as [Hr Hfl].
  destruct (Hledger r Hr) as (t & Ht & Hok). exists t. split; [exact Ht |].
  rewrite pendentes_de_filter; [exact Hok |]. intros p Hp Hc. eauto.
Qed.

Lemma ledger_update_loan ls ps seq_l seq_p l l' :
  wf_tables ls ps seq_l seq_p -> ledger_tables ls ps -> l ∈ ls ->
  Loan.id l' = Loan.id l ->
  (forall total, Loan.valor_total l = Some total ->
     ledger_ok total (Loan.valor_pago l) (Loan.status l) (pendentes_de ps (Loan.id l)) ->
     Loan.valor_total l' = Some total /\
     ledger_ok total (Loan.valor_pago l') (Loan.status l') (pendentes_de ps (Loan.id l))) ->
  ledger_tables (update_loan l' ls) ps.
Proof.
  intros (Hnd & _) Hledger Hl Hid Hstep r Hr.
  apply elem_of_update_loan in Hr as [[-> _] | [Hr _]]; [| auto].
  destruct (Hledger l Hl) as (t & Ht & Hok). exists t. rewrite Hid. auto.
Qed.

Lemma ledger_update_installment_same ls ps seq_l seq_p p p' :
  wf_tables ls ps seq_l seq_p -> ledger_tables ls ps -> p ∈ ps ->
  Installment.id p' = Installment.id p ->
  Installment.cobranca_id p' = Installment.cobranca_id p ->
  Installment.status p' = Installment.status p ->
  Installment.valor p' = Installment.valor p ->
  ledger_tables ls (update_installment p' ps).
Proof.
  intros (_ & Hnd & _) Hledger Hp Hid Hc Hs Hv r Hr.
  destruct (Hledger r Hr) as (t & Ht & Hok). exists t. split; [exact Ht |].
  rewrite pendentes_de_update_same; [exact Hok |].
  intros q Hq Hqid. assert (q = p) as -> by (eapply installment_id_inj; eauto; congruence).
  auto.
Qed.

Lemma ledger_ok_settle (total paid v : money) status pend pend' :
  pend ≡ₚ v :: pend' ->
  ledger_ok total paid status pend ->
  ledger_ok total (paid + v)%Qc
    (if bool_decide (total ≤ paid + v)%Qc then Pago else status) pend'.
Proof.
  intros Hperm [[Hpos Hpaid] | [Hneg Hpaid]].
  - rewrite Hperm in Hpos. apply Forall_cons in Hpos as [Hv Hpos].
    left. split; [exact Hpos |]. case_bool_decide as Hq; [auto |].
    intros Hs. specialize (Hpaid Hs). qc_lra.
  - rewrite (sum_money_Permutation _ _ Hperm), sum_money_cons in Hpaid.
    rewrite Hperm in Hneg. apply Forall_cons in Hneg as [Hv Hneg].
    right. split; [exact Hneg |]. qc_lra.
Qed.

Lemma ledger_settle ls ps seq_l seq_p p p' l l' total :
  wf_tables ls ps seq_l seq_p -> ledger_tables ls ps ->
  p ∈ ps -> Installment.status p = Pendente ->
  l ∈ ls -> Loan.id l = Installment.cobranca_id p -> Loan.valor_total l = Some total ->
  Installment.id p' = Installment.id p ->
  Installment.cobranca_id p' = Installment.cobranca_id p ->
  Installment.valor p' = Installment.valor p ->
  Installment.status p' = Pago ->
  Loan.id l' = Loan.id l -> Loan.valor_total l' = Some total ->
  Loan.valor_pago l' = (Loan.valor_pago l + Installment.valor p)%Qc ->
  Loan.status l'
  = (if bool_decide (total ≤ Loan.valor_pago l + Installment.valor p)%Qc
     then Pago else Loan.status l) ->
  ledger_tables (update_loan l' ls) (update_installment p' ps).
Proof.
  intros (_ & Hnd & _) Hledger Hp Hst Hl Hlid Htotal Hid Hc Hv Hst' Hlid' Htotal'
    Hpaid Hstatus r Hr.
  apply elem_of_update_loan in Hr as [[-> _] | [Hr Hne]].
  - exists total. split; [exact Htotal' |].
    destruct (Hledger l Hl) as (t & Ht & Hok).
    assert (t = total) as -> by congruence.
    rewrite Hpaid, Hstatus, Hlid', Hlid. rewrite Hlid in Hok.
    eapply ledger_ok_settle; [| exact Hok].
    apply pendentes_de_settle; assumption.
  - destruct (Hledger r Hr) as (t & Ht & Hok). exists t. split; [exact Ht |].
    rewrite (pendentes_de_settle_other p); try assumption. congruence.
Qed.

Lemma ledger_handle req op db : wf db -> ledger db -> ledger (handle req op db).2.
Proof.
  intros Hwf Hledger. destruct op; simpl.
  - unfold adicionar_cobranca.
    destruct (decide (weekday (form_data_vencimento form) = 6)); [exact Hledger |].
    destruct (decide (form_taxa_juros form = of_int 30));
      [eapply (ledger_add _ _ _ _ _ 10); eauto; reflexivity |].
    destruct (decide (form_taxa_juros form = of_int 60));
      [eapply (ledger_add _ _ _ _ _ 15); eauto; reflexivity | exact Hledger].
  - unfold editar_cobranca.
    destruct (get_loan db id) as [cobranca |] eqn:Hloan; [| exact Hledger].
    destruct (List.find _ (clientes db)); [| exact Hledger].
    destruct (edit_valor_emprestimo form) as [valor |]; [| exact Hledger].
    destruct (decide (valor ≤ 0)%Qc); [exact Hledger |].
    destruct (edit_data_vencimento form) as [data |]; [| exact Hledger].
    destruct (decide (weekday data = 6)); [exact Hledger |].
    match goal with |- context [decide (?n = 0)] => set (N := n) end.
    destruct (decide (N = 0)); [exact Hledger |].
    apply get_loan_Some in Hloan as [Hid Hin]. subst id.
    unfold ledger. cbn [snd cobrancas parcelas].
    eapply (ledger_generate _ _ _ _
              {| Loan.id := Loan.id cobranca; Loan.valor_pago := 0%Qc |} N);
      eauto; reflexivity.
  - unfold cancelar_cobranca. destruct (get_loan db cobranca_id); [| exact Hledger].
    apply ledger_filter; [exact Hledger |].
    intros l p _ Hl _ Hc. apply negb_true_iff, bool_decide_eq_false in Hl.
    apply negb_true_iff, bool_decide_eq_false. congruence.
  - unfold registrar_pagamento.
    destruct (get_loan db id) as [cobranca |] eqn:Hloan; [| exact Hledger].
    destruct (decide (valor_a_pagar ≤ 0)%Qc) as [| Hpos]; [exact Hledger |].
    apply get_loan_Some in Hloan as [_ Hin].
    eapply (ledger_update_loan _ _ _ _ cobranca);
      [exact Hwf | exact Hledger | exact Hin | reflexivity |].
    intros total Ht Hok. split; [exact Ht |]. simpl.
    eapply ledger_ok_more_paid; [| exact Hok]. qc_lra.
  - unfold marcar_parcela_paga.
    destruct (get_installment db id) as [parcela |] eqn:Hp; [| exact Hledger].
    destruct (get_loan db (Installment.cobranca_id parcela)) as [cobranca |] eqn:Hloan;
      [| exact Hledger].
    destruct (decide (Installment.status parcela = Pago)) as [| Hst]; [exact Hledger |].
    destruct (Loan.valor_total cobranca) as [total |] eqn:Ht; [| exact Hledger].
    apply get_loan_Some in Hloan as [Hlid Hlin].
    apply get_installment_Some in Hp as [_ Hpin].
    eapply (ledger_settle _ _ _ _ parcela _ cobranca _ total); eauto;
      try reflexivity.
    destruct (Installment.status parcela); [reflexivity | contradiction].
  - unfold editar_multa_parcela.
    destruct (get_installment db id) as [parcela |] eqn:Hp; [| exact Hledger].
    apply get_installment_Some in Hp as [_ Hpin].
    destruct multa_input as [m |]; [destruct (decide (m < 0)%Qc); [exact Hledger |] |];
      (eapply ledger_update_installment_same; eauto; reflexivity).
  - unfold editar_data_parcela.
    destruct (get_installment db id) as [parcela |] eqn:Hp; [| exact Hledger].
    apply get_installment_Some in Hp as [_ Hpin].
    destruct nova_data as [d |]; [| exact Hledger].
    destruct (decide (weekday d = 6)); [exact Hledger |].
    eapply ledger_update_installment_same; eauto; reflexivity.
  - unfold deletar_cliente.
    destruct (List.find _ (clientes db)) as [cliente |] eqn:Hcli; [| exact Hledger].
    apply List.find_some in Hcli as [_ Hcid]. apply bool_decide_eq_true in Hcid.
    apply ledger_filter; [exact Hledger |].
    intros l p Hl Hfl Hp Hc. apply negb_true_iff, bool_decide_eq_false in Hfl.
    apply negb_true_iff. apply not_true_is_false. intros Hex.
    apply List.existsb_exists in Hex as (l0 & Hl0 & Hid0).
    apply bool_decide_eq_true in Hid0. apply list_elem_of_In in Hl0.
    apply elem_of_filter_bool in Hl0 as [Hl0 Hcli0]. apply bool_decide_eq_true in Hcli0.
    assert (l0 = l) as ->.
    { destruct Hwf as (Hnd & _). eapply loan_id_inj; eauto. congruence. }
    congruence.
Qed.

Lemma reachable_ledger db : reachable db -> ledger db.
Proof.
  induction 1 as [| db req op Hreach IH | db cs cfg _ IH].
  - intros l Hl. inversion Hl.
  - apply ledger_handle; [apply reachable_wf; exact Hreach | exact IH].
  - exact IH.
Qed.

(** ** Loan status and paid amount *)

Lemma reachable_run req ops db : reachable db -> reachable (run req ops db).
Proof.
  unfold run. revert db. induction ops as [| op ops IH]; intros db H; simpl; [exact H |].
  apply IH. apply reach_handle. exact H.
Qed.

(** A loan of the new store comes from the loan of the old store with the
    same key, which, when paid, stays paid unless the request regenerates
    its schedule; or it is a new loan. *)
Lemma handle_loan_origin req op db l' :
  l' ∈ cobrancas (handle req op db).2 ->
  (exists l0, l0 ∈ cobrancas db /\ Loan.id l0 = Loan.id l' /\
              ((Loan.status l0 = Pago -> Loan.status l' = Pago)
               \/ exists form, op = EditarCobranca (Loan.id l') form))
  \/ cobrancas_id_seq db <= Loan.id l'.
Proof.
  assert (Hsame : l' ∈ cobrancas db ->
            (exists l0, l0 ∈ cobrancas db /\ Loan.id l0 = Loan.id l' /\
                        ((Loan.status l0 = Pago -> Loan.status l' = Pago)
                         \/ exists form, op = EditarCobranca (Loan.id l') form))
            \/ cobrancas_id_seq db <= Loan.id l')
    by (intros H; left; exists l'; auto).
  assert (Hfilter : forall f, l' ∈ List.filter f (cobrancas db) -> l' ∈ cobrancas db)
    by (intros f H; apply elem_of_filter_bool in H; tauto).
  destruct op; simpl.
  - unfold adicionar_cobranca.
    destruct (decide (weekday (form_data_vencimento form) = 6)); [auto |].
    assert (Hnew : forall l, Loan.id l = cobrancas_id_seq db ->
              l' ∈ cobrancas db ++ [l] ->
              (exists l0, l0 ∈ cobrancas db /\ Loan.id l0 = Loan.id l' /\
                 ((Loan.status l0 = Pago -> Loan.status l' = Pago)
                  \/ exists form0, AdicionarCobranca form
                                   = EditarCobranca (Loan.id l') form0))
              \/ cobrancas_id_seq db <= Loan.id l').
    { intros l Hid Hel. apply elem_of_app in Hel as [Hel | Hel]; [auto |].
      apply list_elem_of_singleton in Hel. subst. right. lia. }
    destruct (decide (form_taxa_juros form = of_int 30));
      [cbn [snd cobrancas]; apply Hnew; reflexivity |].
    destruct (decide (form_taxa_juros form = of_int 60));
      [cbn [snd cobrancas]; apply Hnew; reflexivity | auto].
  - unfold editar_cobranca.
    destruct (get_loan db id) as [cobranca |] eqn:Hloan; [| auto].
    destruct (List.find _ (clientes db)); [| auto].
    destruct (edit_valor_emprestimo form); [| auto].
    case_decide; [auto |].
    destruct (edit_data_vencimento form); [| auto].
    case_decide; [auto |]. case_decide; [auto |]. cbn [snd cobrancas]. intros Hel.
    apply get_loan_Some in Hloan as [Hid Hin].
    apply elem_of_update_loan in Hel as [[-> _] | [Hel _]]; [| auto].
    left. exists cobranca. split; [exact Hin |]. split; [reflexivity |].
    right. exists form. simpl. rewrite Hid. reflexivity.
  - unfold cancelar_cobranca. destruct (get_loan db cobranca_id); simpl; eauto.
  - unfold registrar_pagamento.
    destruct (get_loan db id) as [cobranca |] eqn:Hloan; [| auto].
    case_decide; [auto |]. cbn [snd cobrancas]. intros Hel.
    apply get_loan_Some in Hloan as [Hid Hin].
    apply elem_of_update_loan in Hel as [[-> _] | [Hel _]]; [| auto].
    left. exists cobranca. split; [exact Hin |]. split; [reflexivity |]. left. auto.
  - unfold marcar_parcela_paga.
    destruct (get_installment db id) as [parcela |]; [| auto].
    destruct (get_loan db _) as [cobranca |] eqn:Hloan; [| auto].
    case_decide; [auto |].
    destruct (Loan.valor_total _); [| auto]. cbn [snd cobrancas]. intros Hel.
    apply get_loan_Some in Hloan as [Hid Hin].
    apply elem_of_update_loan in Hel as [[-> _] | [Hel _]]; [| auto].
    left. exists cobranca. split; [exact Hin |]. split; [reflexivity |]. left.
    simpl. intros ->. destruct (bool_decide _); reflexivity.
  - unfold editar_multa_parcela. destruct (get_installment db id); [| auto].
    destruct multa_input; [case_decide |]; auto.
  - unfold editar_data_parcela. destruct (get_installment db id); [| auto].
    destruct nova_data; [case_decide |]; auto.
  - unfold deletar_cliente. destruct (List.find _ (clientes db)); simpl; eauto.
Qed.

Lemma reachable_db_pagamento_total : reachable db_pagamento_total.
Proof.
  exact (reach_handle db_emprestimo requisicao
           (RegistrarPagamento 1 (of_int 1300) "") reachable_db_emprestimo).
Qed.



Lemma reachable_db_quitada : reachable db_quitada.
Proof. apply reachable_run. exact reachable_db_emprestimo. Qed.


(** The closure boundary on the sample loan of 10 installments of 130:
    with nine settled the loan is pending with 1170 paid, and the tenth
    settlement closes it. *)
Example loan_closure_boundary :
  List.map (fun l => (Loan.status l, Qnum (this (Loan.valor_pago l))))
    (cobrancas db_nove_pagas) = [(Pendente, 1170)] /\
  List.map (fun l => (Loan.status l, Qnum (this (Loan.valor_pago l))))
    (cobrancas db_quitada) = [(Pago, 1300)].
Proof. split; vm_compute; reflexivity. Qed.

(** ** The outstanding balance on the read paths *)

(** A loop [if g(p): saldo += f(p)] adds up [f] over the rows that pass [g]. *)
Lemma foldl_conditional_sum {A} (g : A -> bool) (f : A -> money) (a : money) xs :
  foldl (fun saldo x => if g x then (saldo + f x)%Qc else saldo) a xs
  = (a + sum_money (List.map f (List.filter g xs)))%Qc.
Proof.
  revert a. induction xs as [| x xs IH]; intros a; simpl.
  - rewrite sum_money_nil. ring.
  - rewrite IH. destruct (g x); simpl; [rewrite sum_money_cons; ring | reflexivity].
Qed.

Lemma sum_filter_Permutation {A} (g : A -> bool) (f : A -> money) xs ys :
  xs ≡ₚ ys ->
  sum_money (List.map f (List.filter g xs)) = sum_money (List.map f (List.filter g ys)).
Proof.
  induction 1 as [| x xs ys _ IH | x y xs | xs ys zs _ IH1 _ IH2]; simpl.
  - reflexivity.
  - destruct (g x); simpl; rewrite ?sum_money_cons, IH; reflexivity.
  - destruct (g x), (g y); simpl; rewrite ?sum_money_cons; try reflexivity. ring.
  - congruence.
Qed.

(** The customer page shows the balance of the other read paths less the
    paid amount of the loan. *)
Lemma saldo_devedor_calculado_saldo_cob db cobranca :
  saldo_devedor_calculado db cobranca
  = (saldo_cob db cobranca - Loan.valor_pago cobranca)%Qc.
Proof.
  unfold saldo_devedor_calculado, saldo_cob, sorted_by_numero_parcela.
  rewrite (foldl_conditional_sum is_pendente
             (fun p => (Installment.valor p + multa_or_0 p)%Qc)).
  rewrite (sum_filter_Permutation _ _ _ (installments_of db cobranca))
    by apply merge_sort_Permutation.
  ring.
Qed.

(** With manual penalties that are absent or not negative, as
    [editar_multa_parcela] leaves them, the balance of [index] is the balance
    of the design document. *)
Lemma saldo_cob_spec db cob :
  (forall p m, p ∈ installments_of db cob -> Installment.multa_manual p = Some m ->
               (0 ≤ m)%Qc) ->
  saldo_cob db cob = spec_outstanding_balance (installments_of db cob).
Proof.
  unfold saldo_cob, spec_outstanding_balance.
  induction (installments_of db cob) as [| p ps IH]; intros H; [reflexivity |].
  assert (IH' : sum_money
            (List.map (fun p => (Installment.valor p + multa_or_0 p)%Qc)
               (List.filter is_pendente ps))
          = sum_money
              (List.map
                 (fun p => match Installment.status p with
                           | Pendente =>
                               (Installment.valor p
                                + match Installment.multa_manual p with
                                  | Some m => if decide (0 ≤ m)%Qc then m else 0
                                  | None => 0
                                  end)%Qc
                           | Pago => 0%Qc
                           end) ps))
    by (apply IH; intros q m Hq; apply H; right; exact Hq).
  simpl. unfold is_pendente at 1. rewrite (sum_money_cons _ (List.map _ ps)), <- IH'.
  destruct (Installment.status p) eqn:Hs; simpl.
  - rewrite sum_money_cons. f_equal. f_equal. unfold multa_or_0.
    destruct (Installment.multa_manual p) as [m |] eqn:Hm; [| reflexivity].
    rewrite decide_True; [reflexivity |]. eapply H; [left | exact Hm].
  - ring.
Qed.

(** In a reachable store no manual penalty is negative. *)
Lemma reachable_multa_manual db :
  reachable db ->
  forall p m, p ∈ parcelas db -> Installment.multa_manual p = Some m -> (0 ≤ m)%Qc.
Proof.
  induction 1 as [| db req op _ IH | db cs cfg _ IH]; intros p m Hp Hm.
  - inversion Hp.
  - apply handle_installment_origin in Hp as [(p0 & Hin0 & Hev) | (_ & _ & Hnone)].
    + destruct Hev as (_ & _ & _ & _ & _ & _ & [Heq | Hpos]); [| auto].
      apply (IH p0 m Hin0). congruence.
    + congruence.
  - exact (IH p m Hp Hm).
Qed.

(** On every reachable store the balance that the dashboard shows for a loan
    is the balance of the design document. *)
Lemma saldo_cob_refines_spec db cob :
  reachable db -> saldo_cob db cob = spec_outstanding_balance (installments_of db cob).
Proof.
  intros Hreach. apply saldo_cob_spec. intros p m Hp Hm.
  apply (reachable_multa_manual db Hreach p m); [| exact Hm].
  unfold installments_of in Hp. apply elem_of_filter_bool in Hp. tauto.
Qed.

Lemma sum_money_map_plus {A} (f g : A -> money) xs :
  sum_money (List.map (fun x => (f x + g x)%Qc) xs)
  = (sum_money (List.map f xs) + sum_money (List.map g xs))%Qc.
Proof.
  induction xs as [| x xs IH]; simpl.
  - rewrite sum_money_nil. ring.
  - rewrite !sum_money_cons, IH. ring.
Qed.

Lemma sum_money_map_0 {A} (xs : list A) : sum_money (List.map (fun _ => 0%Qc) xs) = 0%Qc.
Proof.
  induction xs as [| x xs IH]; simpl; [reflexivity |].
  rewrite sum_money_cons, IH. ring.
Qed.

Lemma sum_money_filter {A} (g : A -> bool) (f : A -> money) xs :
  sum_money (List.map f (List.filter g xs))
  = sum_money (List.map (fun x => if g x then f x else 0%Qc) xs).
Proof.
  induction xs as [| x xs IH]; simpl; [reflexivity |].
  rewrite sum_money_cons, <- IH. destruct (g x); simpl.
  - rewrite sum_money_cons. reflexivity.
  - ring.
Qed.

Lemma sum_money_flat_map {A B} (k : A -> list B) (h : B -> money) xs :
  sum_money (List.map h (flat_map k xs))
  = sum_money (List.map (fun x => sum_money (List.map h (k x))) xs).
Proof.
  induction xs as [| x xs IH]; simpl; [reflexivity |].
  rewrite List.map_app, sum_money_app, sum_money_cons, IH. reflexivity.
Qed.

(** The order of two nested sums does not matter. *)
Lemma sum_money_swap {A B} (F : A -> B -> money) xs ys :
  sum_money (List.map (fun x => sum_money (List.map (F x) ys)) xs)
  = sum_money (List.map (fun y => sum_money (List.map (fun x => F x y) xs)) ys).
Proof.
  induction xs as [| x xs IH]; simpl.
  - rewrite sum_money_nil. symmetry. apply sum_money_map_0.
  - rewrite sum_money_cons, IH, <- sum_money_map_plus.
    f_equal. apply List.map_ext. intros y. rewrite sum_money_cons. reflexivity.
Qed.

(** The total of the dashboard and of the reports is the sum, over the
    pending loans, of the balance that the dashboard shows for each loan. *)
Lemma saldo_devedor_total_per_loan db :
  saldo_devedor_total db
  = sum_money (List.map (saldo_cob db) (List.filter loan_pendente (cobrancas db))).
Proof.
  set (f := fun p => (Installment.valor p + multa_or_0 p)%Qc).
  set (F := fun p l =>
              if bool_decide (Loan.id l = Installment.cobranca_id p)
                 && loan_pendente l && is_pendente p
              then f p else 0%Qc).
  transitivity
    (sum_money (List.map (fun p => sum_money (List.map (F p) (cobrancas db)))
                  (parcelas db))).
  - unfold saldo_devedor_total, parcelas_pendentes_query, join_loan.
    rewrite List.map_map, sum_money_filter, sum_money_flat_map.
    f_equal. apply List.map_ext. intros p.
    rewrite List.map_map. simpl.
    rewrite (sum_money_filter
               (fun l => bool_decide (Loan.id l = Installment.cobranca_id p))
               (fun l => if loan_pendente l && is_pendente p then f p else 0%Qc)).
    f_equal. apply List.map_ext. intros l. unfold F.
    destruct (bool_decide _), (loan_pendente l), (is_pendente p); reflexivity.
  - rewrite sum_money_swap, (sum_money_filter loan_pendente).
    f_equal. apply List.map_ext. intros l. unfold saldo_cob, installments_of.
    destruct (loan_pendente l) eqn:Hl.
    + rewrite sum_money_filter.
      rewrite (sum_money_filter
                 (fun p => bool_decide (Installment.cobranca_id p = Loan.id l))
                 (fun p => if is_pendente p then f p else 0%Qc)).
      f_equal. apply List.map_ext. intros p. unfold F. rewrite Hl.
      destruct (decide (Loan.id l = Installment.cobranca_id p)) as [Heq | Hne].
      * rewrite !bool_decide_eq_true_2 by congruence. reflexivity.
      * rewrite !bool_decide_eq_false_2 by congruence. reflexivity.
    + rewrite <- (sum_money_map_0 (parcelas db)). f_equal. apply List.map_ext.
      intros p. unfold F. rewrite Hl, andb_false_r. reflexivity.
Qed.

(** The balance of a company adds the amounts and the penalties of the same
    rows. *)
Lemma kpi_saldo_devedor_rows db emp :
  kpi_saldo_devedor db emp
  = sum_money
      (List.map (fun plc => (Installment.valor plc.1.1 + multa_or_0 plc.1.1)%Qc)
         (List.filter
            (fun plc => bool_decide (Customer.empresa plc.2 = emp)
                        && loan_pendente plc.1.2 && is_pendente plc.1.1)
            (join_loan_customer db))).
Proof. unfold kpi_saldo_devedor. rewrite sum_money_map_plus. reflexivity. Qed.

(** C1.  On the sample loan with its first installment settled, the loan is
    pending and nine installments of 130 are pending: the balance of the
    design document, the balance of the loan on the dashboard, the balance
    of the customer, the total of the dashboard and of the reports and the
    balance of the company are all 1170, and the customer page shows 1040,
    the balance less the 130 already paid. *)
Theorem customer_page_balance_diverges :
  exists cob,
    get_loan db_parcela_paga 1 = Some cob /\
    Loan.status cob = Pendente /\
    spec_outstanding_balance (installments_of db_parcela_paga cob) = of_int 1170 /\
    saldo_cob db_parcela_paga cob = of_int 1170 /\
    saldo_devedor_cliente db_parcela_paga (Customer.mk 1 "FH1" None) = of_int 1170 /\
    saldo_devedor_total db_parcela_paga = of_int 1170 /\
    kpi_saldo_devedor db_parcela_paga "FH1" = of_int 1170 /\
    saldo_devedor_calculado db_parcela_paga cob = of_int 1040.
Proof.
  eexists. split; [vm_compute; reflexivity |]. split; [reflexivity |].
  repeat split; apply Qc_is_canon; vm_compute; reflexivity.
Qed.

(** ** Tenants *)


Lemma filter_map_comm {A B} (g : B -> bool) (r : A -> B) xs :
  List.filter g (List.map r xs) = List.map r (List.filter (fun x => g (r x)) xs).
Proof.
  induction xs as [| x xs IH]; simpl; [reflexivity |].
  destruct (g (r x)); simpl; rewrite IH; reflexivity.
Qed.

Lemma flat_map_map_l {A B C} (f : B -> list C) (r : A -> B) xs :
  flat_map f (List.map r xs) = flat_map (fun x => f (r x)) xs.
Proof. induction xs as [| x xs IH]; simpl; [| rewrite IH]; reflexivity. Qed.

Lemma map_flat_map {A B C} (h : B -> C) (k : A -> list B) xs :
  List.map h (flat_map k xs) = flat_map (fun x => List.map h (k x)) xs.
Proof.
  induction xs as [| x xs IH]; simpl; [reflexivity |].
  rewrite List.map_app, IH. reflexivity.
Qed.

Section Retag.
Variable r : Retag.
Variable db : DB.

Lemma join_loan_retag :
  join_loan (retag r db)
  = List.map (fun pl => (retag_installment_row r pl.1, retag_loan_row r pl.2))
      (join_loan db).
Proof.
  unfold join_loan. cbn [retag parcelas cobrancas].
  rewrite flat_map_map_l, map_flat_map. apply List.flat_map_ext. intros p.
  rewrite filter_map_comm, !List.map_map. reflexivity.
Qed.

Lemma join_loan_customer_retag :
  join_loan_customer (retag r db)
  = List.map (fun plc => (retag_installment_row r plc.1.1, retag_loan_row r plc.1.2,
                          retag_customer_row r plc.2))
      (join_loan_customer db).
Proof.
  unfold join_loan_customer. rewrite join_loan_retag. cbn [retag clientes].
  rewrite flat_map_map_l, map_flat_map. apply List.flat_map_ext. intros [p l].
  rewrite filter_map_comm, !List.map_map. reflexivity.
Qed.

Lemma parcelas_pendentes_query_retag :
  parcelas_pendentes_query (retag r db)
  = List.map (retag_installment_row r) (parcelas_pendentes_query db).
Proof.
  unfold parcelas_pendentes_query. rewrite join_loan_retag, filter_map_comm.
  rewrite !List.map_map. reflexivity.
Qed.

Lemma saldo_devedor_total_retag :
  saldo_devedor_total (retag r db) = saldo_devedor_total db.
Proof.
  unfold saldo_devedor_total. rewrite parcelas_pendentes_query_retag, List.map_map.
  reflexivity.
Qed.

Lemma kpi_saldo_devedor_retag emp :
  kpi_saldo_devedor (retag r db) emp = kpi_saldo_devedor db emp.
Proof.
  unfold kpi_saldo_devedor. rewrite join_loan_customer_retag, filter_map_comm.
  rewrite !List.map_map. reflexivity.
Qed.

Lemma stats_retag hoje : stats hoje (retag r db) = stats hoje db.
Proof.
  unfold stats. rewrite saldo_devedor_total_retag. cbn [retag clientes cobrancas].
  rewrite !filter_map_comm, !length_map. reflexivity.
Qed.

Lemma load_config_retag :
  load_config (configuracoes (retag r db)) = load_config (configuracoes db).
Proof.
  unfold load_config. cbn [retag configuracoes].
  generalize (∅ : gmap string money).
  induction (configuracoes db) as [| c cs IH]; intros m; simpl; [reflexivity |].
  apply IH.
Qed.

Lemma calcular_valor_atualizado_retag hoje cobranca :
  calcular_valor_atualizado hoje (retag r db) cobranca
  = calcular_valor_atualizado hoje db cobranca.
Proof. unfold calcular_valor_atualizado. rewrite load_config_retag. reflexivity. Qed.

Lemma saldo_cob_retag cob :
  saldo_cob (retag r db) (retag_loan_row r cob) = saldo_cob db cob.
Proof.
  unfold saldo_cob, installments_of. cbn [retag parcelas].
  rewrite !filter_map_comm, List.map_map. reflexivity.
Qed.
End Retag.


(** * Further properties of the handlers *)

(** ** The due dates of a schedule in closed form *)

Lemma add_days_0 d : add_days d 0 = d.
Proof. destruct d as [o]. unfold add_days. simpl. f_equal. lia. Qed.

(** The day after the [k]-th working day from [d], passed through the skip
    loop, is the [k+1]-th working day from [d]. *)
Lemma pular_domingos_working_day d (k : Z) :
  weekday d <> 6 -> 0 <= k ->
  pular_domingos (add_days (add_days d (k + (weekday d + k) / 6)) 1)
  = add_days d (k + 1 + (weekday d + (k + 1)) / 6).
Proof.
  intros Hd Hk. pose proof (weekday_range d) as Hw.
  rewrite add_days_add_days.
  set (e := add_days d (k + (weekday d + k) / 6 + 1)).
  assert (He : weekday e = (weekday d + k) mod 6 + 1).
  { unfold e, weekday, add_days in *. simpl.
    set (o := toordinal d) in *. Z.div_mod_to_equations. lia. }
  destruct (decide ((weekday d + k) mod 6 = 5)) as [H5 | H5].
  - rewrite pular_domingos_sunday by lia.
    unfold e. rewrite add_days_add_days. f_equal.
    Z.div_mod_to_equations. lia.
  - rewrite pular_domingos_allowed
      by (pose proof (Z.mod_pos_bound (weekday d + k) 6); lia).
    unfold e. f_equal. Z.div_mod_to_equations. lia.
Qed.

Lemma gerar_parcelas_closed_form cobranca_id valor_parcela n i next_id d (k : nat) p :
  weekday d <> 6 ->
  gerar_parcelas n i next_id cobranca_id valor_parcela d !! k = Some p ->
  Installment.data_vencimento p
  = add_days d (Z.of_nat k + (weekday d + Z.of_nat k) / 6).
Proof.
  intros Hd. revert p. induction k as [| k IH]; intros p Hk.
  - apply gerar_parcelas_first in Hk. rewrite Hk, pular_domingos_allowed by exact Hd.
    pose proof (weekday_range d).
    replace (Z.of_nat 0 + (weekday d + Z.of_nat 0) / 6) with 0
      by (Z.div_mod_to_equations; lia).
    symmetry. apply add_days_0.
  - destruct (gerar_parcelas n i next_id cobranca_id valor_parcela d !! k)
      as [q |] eqn:Hq.
    + rewrite (gerar_parcelas_next _ _ _ _ _ _ _ _ _ Hq Hk), (IH q eq_refl).
      rewrite pular_domingos_working_day by (exact Hd || lia).
      f_equal. replace (Z.of_nat (S k)) with (Z.of_nat k + 1) by lia. reflexivity.
    + apply lookup_ge_None in Hq. apply lookup_lt_Some in Hk. lia.
Qed.

(** What an accepted form of [adicionar_cobranca] is. *)
Lemma adicionar_cobranca_Success form db db' :
  adicionar_cobranca form db = (Success, db') ->
  weekday (form_data_vencimento form) <> 6 /\
  exists N, (form_taxa_juros form = of_int 30 /\ N = 10
             \/ form_taxa_juros form = of_int 60 /\ N = 15).
Proof.
  unfold adicionar_cobranca.
  destruct (decide (weekday (form_data_vencimento form) = 6)); [discriminate |].
  destruct (decide (form_taxa_juros form = of_int 30)); [intros _; eauto |].
  destruct (decide (form_taxa_juros form = of_int 60)); [intros _; eauto |].
  discriminate.
Qed.

(** X1.  The installments that [adicionar_cobranca] generates fall on the
    consecutive days from the start date with the Sundays left out: the
    installment of number [k + 1] is due [k + (w + k) / 6] days after the
    start date, [w] being the weekday of the start date (Monday is 0) and the
    division the integer one. *)
Theorem adicionar_cobranca_due_date_closed_form form db db' (k : nat) p :
  adicionar_cobranca form db = (Success, db') ->
  parcelas db' !! (length (parcelas db) + k)%nat = Some p ->
  let start := form_data_vencimento form in
  Installment.numero_parcela p = Z.of_nat k + 1 /\
  Installment.data_vencimento p
  = add_days start (Z.of_nat k + (weekday start + Z.of_nat k) / 6).
Proof.
  intros Hok Hk start.
  destruct (adicionar_cobranca_Success _ _ _ Hok) as (Hday & N & Htaxa).
  destruct (adicionar_cobranca_accepted form db N Hday Htaxa) as (loan & Heq & _).
  rewrite Heq in Hok. injection Hok as <-. cbn [parcelas] in Hk.
  rewrite lookup_app_r in Hk by lia.
  replace (length (parcelas db) + k - length (parcelas db))%nat with k in Hk by lia.
  split.
  - apply gerar_parcelas_lookup in Hk. lia.
  - eapply gerar_parcelas_closed_form; eassumption.
Qed.

Lemma adicionar_cobranca_due_date_closed_form_witness :
  exists p,
    parcelas db_emprestimo !! 7%nat = Some p /\
    Installment.numero_parcela p = 8 /\
    Installment.data_vencimento p = add_days sabado 9.
Proof.
  eexists. split; [vm_compute; reflexivity |].
  apply (adicionar_cobranca_due_date_closed_form form_1000_30 db_cliente db_emprestimo 7);
    reflexivity.
Defined.

(** ** No due date on a Sunday, in any store *)

(** A row of the new store comes from a row of the old store with the same
    key, or the schedule loop generated it. *)
Lemma handle_installment_source req op db p' :
  p' ∈ parcelas (handle req op db).2 ->
  (exists p0, p0 ∈ parcelas db /\ evolves op p0 p')
  \/ (exists n i cid v d, p' ∈ gerar_parcelas n i (parcelas_id_seq db) cid v d).
Proof.
  assert (Hsame : p' ∈ parcelas db ->
            (exists p0, p0 ∈ parcelas db /\ evolves op p0 p')
            \/ (exists n i cid v d,
                  p' ∈ gerar_parcelas n i (parcelas_id_seq db) cid v d))
    by (intros H; left; exists p'; split; [exact H | apply evolves_refl]).
  assert (Hnew : forall n i cid v d,
            p' ∈ gerar_parcelas n i (parcelas_id_seq db) cid v d ->
            (exists p0, p0 ∈ parcelas db /\ evolves op p0 p')
            \/ (exists n i cid v d,
                  p' ∈ gerar_parcelas n i (parcelas_id_seq db) cid v d))
    by (intros n i cid v d H; right; eauto 6).
  assert (Hfilter : forall f, p' ∈ List.filter f (parcelas db) -> p' ∈ parcelas db)
    by (intros f H; apply elem_of_filter_bool in H; tauto).
  destruct op; simpl.
  - unfold adicionar_cobranca.
    destruct (decide (weekday (form_data_vencimento form) = 6)); [auto |].
    destruct (decide (form_taxa_juros form = of_int 30));
      [cbn [snd parcelas]; intros Hel; apply elem_of_app in Hel as [Hel | Hel]; eauto |].
    destruct (decide (form_taxa_juros form = of_int 60));
      [cbn [snd parcelas]; intros Hel; apply elem_of_app in Hel as [Hel | Hel]; eauto | auto].
  - unfold editar_cobranca.
    destruct (get_loan db id); [| auto].
    destruct (List.find _ (clientes db)); [| auto].
    destruct (edit_valor_emprestimo form); [| auto].
    case_decide; [auto |].
    destruct (edit_data_vencimento form); [| auto].
    case_decide; [auto |]. case_decide; [auto |]. simpl.
    intros Hel; apply elem_of_app in Hel as [Hel | Hel]; eauto.
  - unfold cancelar_cobranca. destruct (get_loan db cobranca_id); simpl; eauto.
  - unfold registrar_pagamento. destruct (get_loan db id); [| auto].
    case_decide; auto.
  - unfold marcar_parcela_paga.
    destruct (get_installment db id) as [parcela |] eqn:Hp; [| auto].
    destruct (get_loan db _); [| auto]. case_decide as Hst; [auto |].
    destruct (Loan.valor_total _); [| auto]. simpl. intros Hel.
    apply get_installment_Some in Hp as [_ Hin].
    apply elem_of_update_installment in Hel as [[-> _] | [Hel _]]; [| auto].
    left. exists parcela. split; [exact Hin |]. unfold evolves; simpl. tauto.
  - unfold editar_multa_parcela.
    destruct (get_installment db id) as [parcela |] eqn:Hp; [| auto].
    apply get_installment_Some in Hp as [_ Hin].
    destruct multa_input as [m |]; [case_decide as Hm; [auto |] |]; simpl; intros Hel;
      (apply elem_of_update_installment in Hel as [[-> _] | [Hel _]]; [| auto]);
      left; exists parcela; (split; [exact Hin |]); unfold evolves; simpl;
      repeat split; try tauto; right; intros m0 [= <-].
    apply Qcnot_lt_le. exact Hm.
  - unfold editar_data_parcela.
    destruct (get_installment db id) as [parcela |] eqn:Hp; [| auto].
    apply get_installment_Some in Hp as [Hid Hin].
    destruct nova_data as [d |]; [| auto]. case_decide as Hd; [auto |]. simpl. intros Hel.
    apply elem_of_update_installment in Hel as [[-> _] | [Hel _]]; [| auto].
    left. exists parcela. split; [exact Hin |]. unfold evolves; simpl.
    repeat split; try tauto. right. exists d. rewrite Hid. auto.
  - unfold deletar_cliente. destruct (List.find _ (clientes db)); simpl; eauto.
Qed.
Lemma handle_loan_no_sunday req op db :
  (forall l, l ∈ cobrancas db -> weekday (Loan.data_vencimento l) <> 6) ->
  forall l', l' ∈ cobrancas (handle req op db).2 ->
    weekday (Loan.data_vencimento l') <> 6.
Proof.
  intros IH l'.
  assert (Hfilter : forall f, l' ∈ List.filter f (cobrancas db) ->
                      weekday (Loan.data_vencimento l') <> 6)
    by (intros f H; apply elem_of_filter_bool in H; apply IH; tauto).
  destruct op; simpl.
  - unfold adicionar_cobranca.
    destruct (decide (weekday (form_data_vencimento form) = 6)) as [| Hday]; [auto |].
    assert (Hnew : forall l, Loan.data_vencimento l = form_data_vencimento form ->
              l' ∈ cobrancas db ++ [l] -> weekday (Loan.data_vencimento l') <> 6).
    { intros l Hd Hel. apply elem_of_app in Hel as [Hel | Hel]; [auto |].
      apply list_elem_of_singleton in Hel. subst. rewrite Hd. exact Hday. }
    destruct (decide (form_taxa_juros form = of_int 30));
      [cbn [snd cobrancas]; apply Hnew; reflexivity |].
    destruct (decide (form_taxa_juros form = of_int 60));
      [cbn [snd cobrancas]; apply Hnew; reflexivity | auto].
  - unfold editar_cobranca.
    destruct (get_loan db id) as [cobranca |] eqn:Hloan; [| auto].
    destruct (List.find _ (clientes db)); [| auto].
    destruct (edit_valor_emprestimo form); [| auto].
    case_decide; [auto |].
    destruct (edit_data_vencimento form); [| auto].
    case_decide as Hday; [auto |]. case_decide; [auto |]. cbn [snd cobrancas]. intros Hel.
    apply elem_of_update_loan in Hel as [[-> _] | [Hel _]]; [| auto].
    exact Hday.
  - unfold cancelar_cobranca. destruct (get_loan db cobranca_id); simpl; eauto.
  - unfold registrar_pagamento.
    destruct (get_loan db id) as [cobranca |] eqn:Hloan; [| auto].
    case_decide; [auto |]. cbn [snd cobrancas]. intros Hel.
    apply get_loan_Some in Hloan as [Hid Hin].
    apply elem_of_update_loan in Hel as [[-> _] | [Hel _]]; [| auto].
    simpl. auto.
  - unfold marcar_parcela_paga.
    destruct (get_installment db id) as [parcela |]; [| auto].
    destruct (get_loan db _) as [cobranca |] eqn:Hloan; [| auto].
    case_decide; [auto |].
    destruct (Loan.valor_total _); [| auto]. cbn [snd cobrancas]. intros Hel.
    apply get_loan_Some in Hloan as [Hid Hin].
    apply elem_of_update_loan in Hel as [[-> _] | [Hel _]]; [| auto].
    simpl. auto.
  - unfold editar_multa_parcela. destruct (get_installment db id); [| auto].
    destruct multa_input; [case_decide |]; auto.
  - unfold editar_data_parcela. destruct (get_installment db id); [| auto].
    destruct nova_data; [case_decide |]; auto.
  - unfold deletar_cliente. destruct (List.find _ (clientes db)); simpl; eauto.
Qed.

(** X2.  In every store that the requests produce from the empty one, no
    installment and no loan is due on a Sunday: the generators skip the
    Sundays, and the handlers that take a due date from a form
    ([adicionar_cobranca], [editar_cobranca], [editar_data_parcela]) reject a
    Sunday. *)
Theorem reachable_no_sunday db :
  reachable db ->
  (forall p, p ∈ parcelas db -> weekday (Installment.data_vencimento p) <> 6) /\
  (forall l, l ∈ cobrancas db -> weekday (Loan.data_vencimento l) <> 6).
Proof.
  induction 1 as [| db req op _ [IHp IHl] | db cs cfg _ IH].
  - split; intros x Hx; inversion Hx.
  - split.
    + intros p Hp.
      apply handle_installment_source in Hp
        as [(p0 & Hin0 & Hev) | (n & i & cid & v & d & Hgen)].
      * destruct Hev as (_ & _ & _ & _ & _ & [Heq | (d & _ & Hd & Heq)] & _).
        -- rewrite Heq. auto.
        -- rewrite Heq. exact Hd.
      * eapply gerar_parcelas_no_sunday. exact Hgen.
    + apply handle_loan_no_sunday. exact IHl.
  - exact IH.
Qed.

Lemma reachable_no_sunday_witness :
  Forall (fun p => weekday (Installment.data_vencimento p) <> 6)
    (parcelas db_parcela_paga).
Proof.
  apply Forall_forall.
  apply (reachable_no_sunday db_parcela_paga).
  exact (reach_handle db_emprestimo requisicao (MarcarParcelaPaga 1)
           (reach_handle db_cliente requisicao (AdicionarCobranca form_1000_30)
              (reach_clientes empty_db [Customer.mk 1 "FH1" None] [] reach_empty))).
Defined.

(** ** The payment history and the paid amount *)

Lemma historico_de_app db db' hs id :
  historico_pagamentos db' = historico_pagamentos db ++ hs ->
  historico_de db' id
  = historico_de db id
    ++ List.filter (fun h => bool_decide (PaymentHistory.cobranca_id h = id)) hs.
Proof. unfold historico_de. intros ->. apply List.filter_app. Qed.

(** The invariant under a request that changes one loan in place and
    appends rows for it. *)
Lemma livro_update db db' l0 l' hs pgs :
  NoDup (List.map Loan.id (cobrancas db)) ->
  l0 ∈ cobrancas db ->
  Loan.id l' = Loan.id l0 -> Loan.cliente_id l' = Loan.cliente_id l0 ->
  cobrancas db' = update_loan l' (cobrancas db) ->
  historico_pagamentos db' = historico_pagamentos db ++ hs ->
  pagamentos db' = pagamentos db ++ pgs ->
  Forall (fun h => PaymentHistory.cobranca_id h = Loan.id l0 /\
                   PaymentHistory.cliente_id h = Loan.cliente_id l0) hs ->
  Forall (fun p => Payment.cobranca_id p = Loan.id l0) pgs ->
  Loan.valor_pago l'
  = (Loan.valor_pago l0 + sum_money (List.map PaymentHistory.valor_pago hs))%Qc ->
  refs db /\ historico_soma db -> refs db' /\ historico_soma db'.
Proof.
  intros Hnd Hl0 Hid Hcli Hls Hhs Hpgs Hnew Hnewp Hpago [[Hrh Hrp] Hsoma].
  assert (Hkeep : forall l, l ∈ cobrancas db ->
            exists l2, l2 ∈ cobrancas db' /\ Loan.id l2 = Loan.id l
                       /\ Loan.cliente_id l2 = Loan.cliente_id l).
  { intros l Hl. rewrite Hls.
    exists (if decide (Loan.id l = Loan.id l') then l' else l).
    split; [apply elem_of_update_loan_intro; exact Hl |].
    case_decide as Heq; [| auto].
    assert (l = l0) as -> by (eapply loan_id_inj; eauto; congruence). auto. }
  split; [split |].
  - intros h Hh. rewrite Hhs in Hh. apply elem_of_app in Hh as [Hh | Hh].
    + destruct (Hrh h Hh) as (l & Hl & Hlid & Hlcli).
      destruct (Hkeep l Hl) as (l2 & ? & ? & ?). exists l2. repeat split; congruence.
    + rewrite Forall_forall in Hnew. destruct (Hnew h Hh) as [Hhid Hhcli].
      destruct (Hkeep l0 Hl0) as (l2 & ? & ? & ?). exists l2. repeat split; congruence.
  - intros p Hp. rewrite Hpgs in Hp. apply elem_of_app in Hp as [Hp | Hp].
    + destruct (Hrp p Hp) as (l & Hl & Hlid).
      destruct (Hkeep l Hl) as (l2 & ? & ? & ?). exists l2. split; congruence.
    + rewrite Forall_forall in Hnewp.
      destruct (Hkeep l0 Hl0) as (l2 & ? & ? & ?). exists l2. split; [assumption |].
      rewrite (Hnewp p Hp). assumption.
  - intros l Hl. rewrite Hls in Hl. rewrite (historico_de_app db db' hs) by exact Hhs.
    rewrite List.map_app, sum_money_app.
    apply elem_of_update_loan in Hl as [[-> _] | [Hl Hne]].
    + rewrite Hid, <- (Hsoma l0 Hl0), filter_all_true; [exact Hpago |].
      intros h Hh. rewrite Forall_forall in Hnew.
      apply bool_decide_eq_true. apply (Hnew h Hh).
    + rewrite <- (Hsoma l Hl), filter_all_false; [cbn [List.map]; rewrite sum_money_nil; ring |].
      intros h Hh. rewrite Forall_forall in Hnew.
      apply bool_decide_eq_false. destruct (Hnew h Hh) as [Hhid _]. congruence.
Qed.

(** The invariant under a request that deletes loans with their rows. *)
Lemma livro_filter db db' (fl : Loan.t -> bool) (fh : PaymentHistory.t -> bool)
    (fp : Payment.t -> bool) :
  cobrancas db' = List.filter fl (cobrancas db) ->
  historico_pagamentos db' = List.filter fh (historico_pagamentos db) ->
  pagamentos db' = List.filter fp (pagamentos db) ->
  (forall l h, l ∈ cobrancas db -> h ∈ historico_pagamentos db ->
     Loan.id l = PaymentHistory.cobranca_id h ->
     Loan.cliente_id l = PaymentHistory.cliente_id h -> fh h = fl l) ->
  (forall l p, l ∈ cobrancas db -> p ∈ pagamentos db ->
     Loan.id l = Payment.cobranca_id p -> fp p = true -> fl l = true) ->
  NoDup (List.map Loan.id (cobrancas db)) ->
  refs db /\ historico_soma db -> refs db' /\ historico_soma db'.
Proof.
  intros Hls Hhs Hpgs Hfh Hfp Hnd [[Hrh Hrp] Hsoma].
  split; [split |].
  - intros h Hh. rewrite Hhs in Hh. apply elem_of_filter_bool in Hh as [Hh Hkeep].
    destruct (Hrh h Hh) as (l & Hl & Hlid & Hlcli). exists l.
    split; [| auto]. rewrite Hls. apply elem_of_filter_bool. split; [exact Hl |].
    rewrite <- (Hfh l h) by assumption. exact Hkeep.
  - intros p Hp. rewrite Hpgs in Hp. apply elem_of_filter_bool in Hp as [Hp Hkeep].
    destruct (Hrp p Hp) as (l & Hl & Hlid). exists l.
    split; [| auto]. rewrite Hls. apply elem_of_filter_bool. split; [exact Hl |].
    eapply Hfp; eauto.
  - intros l Hl. rewrite Hls in Hl. apply elem_of_filter_bool in Hl as [Hl Hkeep].
    rewrite (Hsoma l Hl). unfold historico_de. rewrite Hhs.
    rewrite filter_filter_keep; [reflexivity |].
    intros h Hh Hhid. apply bool_decide_eq_true in Hhid.
    destruct (Hrh h Hh) as (l2 & Hl2 & Hl2id & Hl2cli).
    assert (l2 = l) as -> by (eapply loan_id_inj; eauto; congruence).
    rewrite (Hfh l h) by auto. exact Hkeep.
Qed.

(** The invariant when a loan with a new key and nothing paid is added. *)
Lemma livro_add db db' l :
  cobrancas db' = cobrancas db ++ [l] ->
  historico_pagamentos db' = historico_pagamentos db ->
  pagamentos db' = pagamentos db ->
  (forall l0, l0 ∈ cobrancas db -> Loan.id l0 <> Loan.id l) ->
  Loan.valor_pago l = 0%Qc ->
  refs db /\ historico_soma db -> refs db' /\ historico_soma db'.
Proof.
  intros Hls Hhs Hpgs Hfresh Hpago [[Hrh Hrp] Hsoma].
  split; [split |].
  - intros h Hh. rewrite Hhs in Hh. destruct (Hrh h Hh) as (l0 & Hl0 & ?).
    exists l0. split; [rewrite Hls; apply elem_of_app; auto | assumption].
  - intros p Hp. rewrite Hpgs in Hp. destruct (Hrp p Hp) as (l0 & Hl0 & ?).
    exists l0. split; [rewrite Hls; apply elem_of_app; auto | assumption].
  - intros l1 Hl1. rewrite Hls in Hl1. unfold historico_de. rewrite Hhs.
    apply elem_of_app in Hl1 as [Hl1 | Hl1]; [exact (Hsoma l1 Hl1) |].
    apply list_elem_of_singleton in Hl1 as ->.
    rewrite Hpago, filter_all_false; [reflexivity |].
    intros h Hh. apply bool_decide_eq_false. intros Heq.
    destruct (Hrh h Hh) as (l0 & Hl0 & Hid & _). apply (Hfresh l0 Hl0). congruence.
Qed.

(** The invariant when a loan is reset and its history deleted. *)
Lemma livro_reset db db' l0 l' :
  NoDup (List.map Loan.id (cobrancas db)) ->
  l0 ∈ cobrancas db ->
  Loan.id l' = Loan.id l0 -> Loan.cliente_id l' = Loan.cliente_id l0 ->
  Loan.valor_pago l' = 0%Qc ->
  cobrancas db' = update_loan l' (cobrancas db) ->
  historico_pagamentos db'
  = List.filter (fun h => negb (bool_decide (PaymentHistory.cobranca_id h = Loan.id l0)))
      (historico_pagamentos db) ->
  pagamentos db' = pagamentos db ->
  refs db /\ historico_soma db -> refs db' /\ historico_soma db'.
Proof.
  intros Hnd Hl0 Hid Hcli Hpago Hls Hhs Hpgs [[Hrh Hrp] Hsoma].
  assert (Hkeep : forall l, l ∈ cobrancas db ->
            exists l2, l2 ∈ cobrancas db' /\ Loan.id l2 = Loan.id l
                       /\ Loan.cliente_id l2 = Loan.cliente_id l).
  { intros l Hl. rewrite Hls.
    exists (if decide (Loan.id l = Loan.id l') then l' else l).
    split; [apply elem_of_update_loan_intro; exact Hl |].
    case_decide as Heq; [| auto].
    assert (l = l0) as -> by (eapply loan_id_inj; eauto; congruence). auto. }
  split; [split |].
  - intros h Hh. rewrite Hhs in Hh. apply elem_of_filter_bool in Hh as [Hh _].
    destruct (Hrh h Hh) as (l & Hl & Hlid & Hlcli).
    destruct (Hkeep l Hl) as (l2 & ? & ? & ?). exists l2. repeat split; congruence.
  - intros p Hp. rewrite Hpgs in Hp. destruct (Hrp p Hp) as (l & Hl & Hlid).
    destruct (Hkeep l Hl) as (l2 & ? & ? & ?). exists l2. split; congruence.
  - intros l Hl. rewrite Hls in Hl. unfold historico_de. rewrite Hhs.
    apply elem_of_update_loan in Hl as [[-> _] | [Hl Hne]].
    + rewrite Hpago, filter_all_false; [reflexivity |].
      intros h Hh. apply elem_of_filter_bool in Hh as [_ Hh].
      apply negb_true_iff, bool_decide_eq_false in Hh.
      apply bool_decide_eq_false. congruence.
    + rewrite (Hsoma l Hl). unfold historico_de.
      rewrite filter_filter_keep; [reflexivity |].
      intros h Hh Hhid. apply bool_decide_eq_true in Hhid.
      apply negb_true_iff, bool_decide_eq_false. congruence.
Qed.

(** Which loans [deletar_cliente] counts as the customer's. *)
Lemma do_cliente_spec db (cliente : Customer.t) l :
  NoDup (List.map Loan.id (cobrancas db)) -> l ∈ cobrancas db ->
  existsb (fun l0 => bool_decide (Loan.id l0 = Loan.id l)) (loans_of db cliente)
  = bool_decide (Loan.cliente_id l = Customer.id cliente).
Proof.
  intros Hnd Hl. apply eq_true_iff_eq. rewrite bool_decide_eq_true.
  split.
  - intros Hex. apply List.existsb_exists in Hex as (l0 & Hl0 & Hid0).
    apply bool_decide_eq_true in Hid0. apply list_elem_of_In in Hl0.
    apply elem_of_filter_bool in Hl0 as [Hl0 Hcli0]. apply bool_decide_eq_true in Hcli0.
    assert (l0 = l) as -> by (eapply loan_id_inj; eauto). exact Hcli0.
  - intros Hcli. apply List.existsb_exists. exists l.
    split; [| apply bool_decide_eq_true; reflexivity].
    apply list_elem_of_In. apply elem_of_filter_bool.
    split; [exact Hl | apply bool_decide_eq_true; exact Hcli].
Qed.

Lemma livro_handle req op db :
  wf db -> refs db /\ historico_soma db ->
  refs (handle req op db).2 /\ historico_soma (handle req op db).2.
Proof.
  intros Hwf Hinv. pose proof Hwf as (Hnd & _ & Hlt & _).
  destruct op; simpl.
  - unfold adicionar_cobranca.
    destruct (decide (weekday (form_data_vencimento form) = 6)); [exact Hinv |].
    assert (Hfresh : forall l0, l0 ∈ cobrancas db -> Loan.id l0 <> cobrancas_id_seq db)
      by (intros l0 Hl0; specialize (Hlt l0 Hl0); lia).
    destruct (decide (form_taxa_juros form = of_int 30));
      [eapply livro_add;
         [reflexivity | reflexivity | reflexivity | exact Hfresh | reflexivity
         | exact Hinv] |].
    destruct (decide (form_taxa_juros form = of_int 60));
      [eapply livro_add;
         [reflexivity | reflexivity | reflexivity | exact Hfresh | reflexivity
         | exact Hinv]
      | exact Hinv].
  - unfold editar_cobranca.
    destruct (get_loan db id) as [cobranca |] eqn:Hloan; [| exact Hinv].
    destruct (List.find _ (clientes db)); [| exact Hinv].
    destruct (edit_valor_emprestimo form) as [valor |]; [| exact Hinv].
    destruct (decide (valor ≤ 0)%Qc); [exact Hinv |].
    destruct (edit_data_vencimento form) as [data |]; [| exact Hinv].
    destruct (decide (weekday data = 6)); [exact Hinv |].
    match goal with |- context [decide (?n = 0)] => set (N := n) end.
    destruct (decide (N = 0)); [exact Hinv |].
    apply get_loan_Some in Hloan as [Hid Hin]. subst id.
    eapply (livro_reset db _ cobranca); cycle 5;
      [reflexivity | reflexivity | reflexivity | exact Hinv | exact Hnd | exact Hin
      | reflexivity | reflexivity | reflexivity].
  - unfold cancelar_cobranca. destruct (get_loan db cobranca_id); [| exact Hinv].
    eapply livro_filter; eauto; try reflexivity; cbn beta.
    + intros l h _ _ Hid _. rewrite Hid. reflexivity.
    + intros l p _ _ Hid Hp. rewrite Hid. exact Hp.
  - unfold registrar_pagamento.
    destruct (get_loan db id) as [cobranca |] eqn:Hloan; [| exact Hinv].
    destruct (decide (valor_a_pagar ≤ 0)%Qc) as [| Hpos]; [exact Hinv |].
    apply get_loan_Some in Hloan as [_ Hin].
    eapply (livro_update db _ cobranca); cycle 4;
      [reflexivity | reflexivity | reflexivity | | | | exact Hinv | exact Hnd
      | exact Hin | reflexivity | reflexivity].
    + repeat constructor.
    + repeat constructor.
    + simpl. rewrite sum_money_cons, sum_money_nil. ring.
  - unfold marcar_parcela_paga.
    destruct (get_installment db id) as [parcela |] eqn:Hp; [| exact Hinv].
    destruct (get_loan db (Installment.cobranca_id parcela)) as [cobranca |] eqn:Hloan;
      [| exact Hinv].
    destruct (decide (Installment.status parcela = Pago)) as [| Hst]; [exact Hinv |].
    destruct (Loan.valor_total cobranca) as [total |] eqn:Ht; [| exact Hinv].
    apply get_loan_Some in Hloan as [Hlid Hlin].
    eapply (livro_update db _ cobranca _ _ []); cycle 4;
      [reflexivity | reflexivity | symmetry; apply app_nil_r | | | | exact Hinv
      | exact Hnd | exact Hlin | reflexivity | reflexivity].
    + repeat constructor.
    + constructor.
    + simpl. rewrite sum_money_cons, sum_money_nil. ring.
  - unfold editar_multa_parcela.
    destruct (get_installment db id) as [parcela |]; [| exact Hinv].
    destruct multa_input as [m |]; [destruct (decide (m < 0)%Qc) |]; exact Hinv.
  - unfold editar_data_parcela.
    destruct (get_installment db id) as [parcela |]; [| exact Hinv].
    destruct nova_data as [d |]; [| exact Hinv].
    destruct (decide (weekday d = 6)); exact Hinv.
  - unfold deletar_cliente.
    destruct (List.find _ (clientes db)) as [cliente |] eqn:Hcli; [| exact Hinv].
    apply List.find_some in Hcli as [_ Hcid]. apply bool_decide_eq_true in Hcid.
    eapply livro_filter; eauto; try reflexivity; cbn beta.
    + intros l h Hl _ Hid Hcliente. rewrite <- Hid, <- Hcliente.
      rewrite (do_cliente_spec db cliente l Hnd Hl), Hcid.
      destruct (bool_decide (Loan.cliente_id l = cliente_id)); reflexivity.
    + intros l p Hl _ Hid Hp. rewrite <- Hid in Hp.
      rewrite (do_cliente_spec db cliente l Hnd Hl), Hcid in Hp. exact Hp.
Qed.

Lemma reachable_livro db : reachable db -> refs db /\ historico_soma db.
Proof.
  induction 1 as [| db req op Hreach IH | db cs cfg _ IH].
  - split; [split |]; intros x Hx; inversion Hx.
  - apply livro_handle; [apply reachable_wf; exact Hreach | exact IH].
  - exact IH.
Qed.



(** X4.  Referential integrity is kept without the help of the database:
    in every store that the requests produce from the empty one, each
    installment, each payment row and each history row references a loan of
    the store, and a history row carries the customer of its loan.  The
    cascades of [cancelar_cobranca] and [deletar_cliente] leave no orphan
    row. *)
Theorem reachable_no_orphan_rows db :
  reachable db ->
  (forall p, p ∈ parcelas db -> is_Some (get_loan db (Installment.cobranca_id p))) /\
  (forall p, p ∈ pagamentos db -> is_Some (get_loan db (Payment.cobranca_id p))) /\
  (forall h, h ∈ historico_pagamentos db ->
     exists l, get_loan db (PaymentHistory.cobranca_id h) = Some l /\
               Loan.cliente_id l = PaymentHistory.cliente_id h).
Proof.
  intros Hreach. pose proof (reachable_wf db Hreach) as Hwf.
  destruct (reachable_livro db Hreach) as [[Hrh Hrp] _].
  pose proof Hwf as (Hnd & _).
  split; [| split].
  - intros p Hp. destruct (wf_loan_of_installment db p Hwf Hp) as (l & _ & -> & _).
    eauto.
  - intros p Hp. destruct (Hrp p Hp) as (l & Hl & <-).
    rewrite (get_loan_elem db l Hnd Hl). eauto.
  - intros h Hh. destruct (Hrh h Hh) as (l & Hl & <- & Hcli).
    exists l. split; [apply get_loan_elem; assumption | exact Hcli].
Qed.

Lemma reachable_no_orphan_rows_witness :
  Forall (fun h => exists l,
            get_loan db_parcela_paga (PaymentHistory.cobranca_id h) = Some l /\
            Loan.cliente_id l = PaymentHistory.cliente_id h)
    (historico_pagamentos db_parcela_paga) /\
  historico_pagamentos db_parcela_paga <> [].
Proof.
  split; [| discriminate].
  apply Forall_forall.
  apply (reachable_no_orphan_rows db_parcela_paga).
  exact (reach_handle db_emprestimo requisicao (MarcarParcelaPaga 1)
           (reach_handle db_cliente requisicao (AdicionarCobranca form_1000_30)
              (reach_clientes empty_db [Customer.mk 1 "FH1" None] [] reach_empty))).
Defined.

(** ** Creating and cancelling a loan *)

Lemma find_app_none {A} (f : A -> bool) (xs ys : list A) :
  (forall x, x ∈ xs -> f x = false) -> List.find f (xs ++ ys) = List.find f ys.
Proof.
  induction xs as [| x xs IH]; intros H; simpl; [reflexivity |].
  rewrite (H x) by left. apply IH. intros y Hy. apply H. right. exact Hy.
Qed.

(** X5.  Cancelling a loan that was just created restores every table: on a
    store that the requests produce from the empty one, [adicionar_cobranca]
    followed by [cancelar_cobranca] of the new loan leaves the rows as they
    were; only the two sequences have advanced, so the keys are not given
    out again. *)
Theorem cancelar_cobranca_undoes_adicionar_cobranca form db db1 :
  reachable db ->
  adicionar_cobranca form db = (Success, db1) ->
  cancelar_cobranca (cobrancas_id_seq db) db1
  = (Success,
     {| clientes := clientes db;
        cobrancas := cobrancas db;
        parcelas := parcelas db;
        pagamentos := pagamentos db;
        historico_pagamentos := historico_pagamentos db;
        configuracoes := configuracoes db;
        cobrancas_id_seq := cobrancas_id_seq db + 1;
        parcelas_id_seq := parcelas_id_seq db1 |}).
Proof.
  intros Hreach Hok. pose proof (reachable_wf db Hreach) as Hwf.
  destruct (reachable_livro db Hreach) as [[Hrh Hrp] _].
  pose proof Hwf as (Hnd & _ & Hlt & _ & Hfk & _).
  destruct (adicionar_cobranca_Success _ _ _ Hok) as (Hday & N & Htaxa).
  destruct (adicionar_cobranca_accepted form db N Hday Htaxa)
    as (loan & Heq & Hid & _).
  rewrite Heq in Hok. injection Hok as <-.
  assert (Hold : forall l0, l0 ∈ cobrancas db ->
            bool_decide (Loan.id l0 = cobrancas_id_seq db) = false).
  { intros l0 Hl0. apply bool_decide_eq_false. specialize (Hlt l0 Hl0). lia. }
  unfold cancelar_cobranca, get_loan. cbn [cobrancas parcelas pagamentos
    historico_pagamentos clientes configuracoes cobrancas_id_seq parcelas_id_seq].
  assert (Hfind : List.find (fun l => bool_decide (Loan.id l = cobrancas_id_seq db))
                    (cobrancas db ++ [loan]) = Some loan).
  { rewrite find_app_none by exact Hold.
    simpl. rewrite bool_decide_eq_true_2 by exact Hid. reflexivity. }
  rewrite Hfind. f_equal. f_equal.
  - rewrite List.filter_app. simpl. rewrite bool_decide_eq_true_2 by exact Hid. simpl.
    rewrite app_nil_r. apply filter_all_true. intros l0 Hl0. rewrite Hold; auto.
  - rewrite List.filter_app, filter_all_true, filter_all_false; [apply app_nil_r | |].
    + intros p Hp. apply list_elem_of_lookup in Hp as [k Hk].
      apply gerar_parcelas_lookup in Hk as (_ & -> & _).
      rewrite bool_decide_eq_true_2; reflexivity.
    + intros p Hp. destruct (Hfk p Hp) as (l0 & Hl0 & <-). rewrite Hold; auto.
  - apply filter_all_true. intros p Hp. destruct (Hrp p Hp) as (l0 & Hl0 & <-).
    rewrite Hold; auto.
  - apply filter_all_true. intros h Hh. destruct (Hrh h Hh) as (l0 & Hl0 & <- & _).
    rewrite Hold; auto.
Qed.

Lemma cancelar_cobranca_undoes_adicionar_cobranca_witness :
  exists db2,
    cancelar_cobranca 1 db_emprestimo = (Success, db2) /\
    cobrancas db2 = [] /\ parcelas db2 = [] /\
    clientes db2 = clientes db_cliente /\
    cobrancas_id_seq db2 = 2 /\ parcelas_id_seq db2 = 11.
Proof.
  eexists. split.
  - apply (cancelar_cobranca_undoes_adicionar_cobranca form_1000_30 db_cliente).
    + exact (reach_clientes empty_db [Customer.mk 1 "FH1" None] [] reach_empty).
    + reflexivity.
  - repeat split; reflexivity.
Defined.

(** ** Regenerating a schedule *)

(** The schedule loop gives the same numbers, amounts and dates whatever
    the keys. *)
Lemma escalonamento_gerar_parcelas n i next_id next_id' cid cid' v d :
  escalonamento (gerar_parcelas n i next_id cid v d)
  = escalonamento (gerar_parcelas n i next_id' cid' v d).
Proof.
  revert i next_id next_id' d.
  induction n as [| n IH]; intros i next_id next_id' d; [reflexivity |].
  simpl. f_equal. apply IH.
Qed.

(** What an accepted edit is, and the store that it leaves. *)
Lemma editar_cobranca_Success id form db db1 :
  editar_cobranca id form db = (Success, db1) ->
  exists cobranca valor data l',
    get_loan db id = Some cobranca /\
    edit_valor_emprestimo form = Some valor /\ (0 < valor)%Qc /\
    edit_data_vencimento form = Some data /\ weekday data <> 6 /\
    let taxa := default (Loan.taxa_juros cobranca) (edit_taxa_juros form) in
    let N := editar_numero_parcelas form cobranca in
    let total := (valor * (1 + taxa / of_int 100))%Qc in
    N <> 0 /\
    Loan.id l' = id /\ Loan.cliente_id l' = Loan.cliente_id cobranca /\
    Loan.valor_original l' = valor /\ Loan.valor_total l' = Some total /\
    Loan.taxa_juros l' = taxa /\ Loan.numero_parcelas l' = N /\
    Loan.data_vencimento l' = data /\ Loan.valor_pago l' = 0%Qc /\
    Loan.status l' = Pendente /\
    cobrancas db1 = update_loan l' (cobrancas db) /\
    parcelas db1
    = List.filter (fun p => negb (bool_decide (Installment.cobranca_id p = id)))
        (parcelas db)
      ++ gerar_parcelas (Z.to_nat N) 0 (parcelas_id_seq db) id
           (total / of_int N)%Qc data /\
    historico_pagamentos db1
    = List.filter (fun h => negb (bool_decide (PaymentHistory.cobranca_id h = id)))
        (historico_pagamentos db) /\
    pagamentos db1 = pagamentos db /\
    clientes db1 = clientes db /\
    configuracoes db1 = configuracoes db.
Proof.
  unfold editar_cobranca.
  destruct (get_loan db id) as [cobranca |] eqn:Hloan; [| discriminate].
  destruct (List.find _ (clientes db)); [| discriminate].
  destruct (edit_valor_emprestimo form) as [valor |]; [| discriminate].
  destruct (decide (valor ≤ 0)%Qc) as [| Hpos]; [discriminate |].
  destruct (edit_data_vencimento form) as [data |]; [| discriminate].
  destruct (decide (weekday data = 6)) as [| Hday]; [discriminate |].
  assert (Hn : (if decide (match edit_taxa_juros form with
                           | Some t => t | None => Loan.taxa_juros cobranca end
                           = of_int 30) then 10
                else if decide (match edit_taxa_juros form with
                                | Some t => t | None => Loan.taxa_juros cobranca end
                                = of_int 60) then 15
                else match edit_numero_parcelas form with
                     | Some k => k | None => Loan.numero_parcelas cobranca end)
               = editar_numero_parcelas form cobranca).
  { unfold editar_numero_parcelas.
    destruct (edit_taxa_juros form), (edit_numero_parcelas form); reflexivity. }
  assert (Ht : match edit_taxa_juros form with
               | Some t => t | None => Loan.taxa_juros cobranca end
               = default (Loan.taxa_juros cobranca) (edit_taxa_juros form))
    by (destruct (edit_taxa_juros form); reflexivity).
  rewrite Hn, Ht.
  destruct (decide (editar_numero_parcelas form cobranca = 0)) as [| HN]; [discriminate |].
  intros Heq. apply (f_equal snd) in Heq. cbn [snd] in Heq. subst db1.
  apply get_loan_Some in Hloan as Hid. destruct Hid as [Hid _].
  match goal with
  | |- context [update_loan ?l (cobrancas db)] => exists cobranca, valor, data, l
  end.
  split; [reflexivity |]. split; [reflexivity |].
  split; [apply Qcnot_le_lt; exact Hpos |].
  split; [reflexivity |]. split; [exact Hday |].
  cbn zeta. split; [exact HN |].
  cbn [cobrancas parcelas historico_pagamentos pagamentos clientes configuracoes].
  split; [exact Hid |]. repeat (split; [reflexivity |]). reflexivity.
Qed.

(** The loan that [adicionar_cobranca] adds, and its installments. *)
Lemma adicionar_cobranca_new_loan form db db2 :
  wf db -> adicionar_cobranca form db = (Success, db2) ->
  exists N loan,
    (form_taxa_juros form = of_int 30 /\ N = 10
     \/ form_taxa_juros form = of_int 60 /\ N = 15) /\
    weekday (form_data_vencimento form) <> 6 /\
    let total := (form_valor_emprestimo form
                  * (1 + form_taxa_juros form / of_int 100))%Qc in
    get_loan db2 (cobrancas_id_seq db) = Some loan /\
    Loan.id loan = cobrancas_id_seq db /\
    Loan.cliente_id loan = form_cliente_id form /\
    Loan.valor_original loan = form_valor_emprestimo form /\
    Loan.valor_total loan = Some total /\
    Loan.taxa_juros loan = form_taxa_juros form /\
    Loan.numero_parcelas loan = N /\
    Loan.data_vencimento loan = form_data_vencimento form /\
    Loan.valor_pago loan = 0%Qc /\
    Loan.status loan = Pendente /\
    installments_of db2 loan
    = gerar_parcelas (Z.to_nat N) 0 (parcelas_id_seq db) (cobrancas_id_seq db)
        (total / of_int N)%Qc (form_data_vencimento form).
Proof.
  intros Hwf Hadd. pose proof Hwf as (_ & _ & Hlt & _ & Hfk & _).
  assert (Hfresh : forall l0, l0 ∈ cobrancas db ->
            bool_decide (Loan.id l0 = cobrancas_id_seq db) = false).
  { intros l0 Hl0. apply bool_decide_eq_false. specialize (Hlt l0 Hl0). lia. }
  unfold adicionar_cobranca in Hadd.
  destruct (decide (weekday (form_data_vencimento form) = 6)) as [| Hday];
    [discriminate |].
  set (total := (form_valor_emprestimo form
                 * (1 + form_taxa_juros form / of_int 100))%Qc) in *.
  assert (Hgen : forall N loan,
            db2 = {| clientes := clientes db;
                     cobrancas := cobrancas db ++ [loan];
                     parcelas :=
                       parcelas db
                       ++ gerar_parcelas (Z.to_nat N) 0 (parcelas_id_seq db)
                            (Loan.id loan) (total / of_int N)%Qc
                            (form_data_vencimento form);
                     pagamentos := pagamentos db;
                     historico_pagamentos := historico_pagamentos db;
                     configuracoes := configuracoes db;
                     cobrancas_id_seq := cobrancas_id_seq db + 1;
                     parcelas_id_seq := parcelas_id_seq db + N |} ->
            Loan.id loan = cobrancas_id_seq db ->
            get_loan db2 (cobrancas_id_seq db) = Some loan /\
            installments_of db2 loan
            = gerar_parcelas (Z.to_nat N) 0 (parcelas_id_seq db) (cobrancas_id_seq db)
                (total / of_int N)%Qc (form_data_vencimento form)).
  { intros N loan -> Hid. split.
    - unfold get_loan. cbn [cobrancas]. rewrite find_app_none by exact Hfresh.
      simpl. rewrite bool_decide_eq_true_2 by exact Hid. reflexivity.
    - unfold installments_of. cbn [parcelas]. rewrite Hid, List.filter_app.
      rewrite filter_all_false, filter_all_true; [reflexivity | |].
      + intros p Hp. apply list_elem_of_lookup in Hp as [k Hk].
        apply gerar_parcelas_lookup in Hk as (_ & -> & _).
        apply bool_decide_eq_true. reflexivity.
      + intros p Hp. destruct (Hfk p Hp) as (l0 & Hl0 & <-). apply Hfresh, Hl0. }
  destruct (decide (form_taxa_juros form = of_int 30)) as [Ht | Ht].
  - apply (f_equal snd) in Hadd. cbn [snd] in Hadd. symmetry in Hadd.
    destruct (Hgen 10 _ Hadd eq_refl) as [Hget Hinst].
    eexists 10, _. split; [left; auto |]. split; [exact Hday |].
    cbn zeta. split; [exact Hget |]. split; [reflexivity |].
    repeat (split; [reflexivity |]). exact Hinst.
  - destruct (decide (form_taxa_juros form = of_int 60)) as [Ht' | Ht'];
      [| discriminate].
    apply (f_equal snd) in Hadd. cbn [snd] in Hadd. symmetry in Hadd.
    destruct (Hgen 15 _ Hadd eq_refl) as [Hget Hinst].
    eexists 15, _. split; [right; auto |]. split; [exact Hday |].
    cbn zeta. split; [exact Hget |]. split; [reflexivity |].
    repeat (split; [reflexivity |]). exact Hinst.
Qed.

(** X6.  [editar_cobranca] regenerates the schedule that [adicionar_cobranca]
    generates: for the same principal, rate and first due date, accepted by
    both, the edited loan has the total, the rate and the count of a new
    loan, and its installments have the numbers, amounts, due dates and
    statuses of those of a new loan.  The edit starts the loan afresh:
    nothing is paid, the loan is pending, and no row of its payment history
    is left; the rows of the table of payments, however, are kept. *)
Theorem editar_cobranca_regenerates_schedule id eform db db1 cform db0 db2 :
  wf db -> wf db0 ->
  editar_cobranca id eform db = (Success, db1) ->
  adicionar_cobranca cform db0 = (Success, db2) ->
  edit_valor_emprestimo eform = Some (form_valor_emprestimo cform) ->
  edit_data_vencimento eform = Some (form_data_vencimento cform) ->
  edit_taxa_juros eform = Some (form_taxa_juros cform) ->
  exists l1 l2,
    get_loan db1 id = Some l1 /\
    get_loan db2 (cobrancas_id_seq db0) = Some l2 /\
    Loan.valor_original l1 = Loan.valor_original l2 /\
    Loan.valor_total l1 = Loan.valor_total l2 /\
    Loan.taxa_juros l1 = Loan.taxa_juros l2 /\
    Loan.numero_parcelas l1 = Loan.numero_parcelas l2 /\
    Loan.data_vencimento l1 = Loan.data_vencimento l2 /\
    Loan.valor_pago l1 = 0%Qc /\
    Loan.status l1 = Pendente /\
    escalonamento (installments_of db1 l1) = escalonamento (installments_of db2 l2) /\
    historico_de db1 id = [] /\
    pagamentos_de db1 id = pagamentos_de db id.
Proof.
  intros Hwf Hwf0 Hedit Hadd Hvalor Hdata Htaxa.
  destruct (adicionar_cobranca_new_loan _ _ _ Hwf0 Hadd)
    as (N & l2 & HN & Hday & Hget2 & Hid2 & _ & Ho2 & Ht2 & Hj2 & Hn2 & Hd2 & _ & _ & Hi2).
  destruct (editar_cobranca_Success _ _ _ _ Hedit)
    as (cobranca & valor & data & l1 & Hloan & Hv & _ & Hd & _ & HN1 & Hid1 & _
        & Ho1 & Ht1 & Hj1 & Hn1 & Hd1 & Hp1 & Hs1 & Hls & Hps & Hhs & Hpg & _).
  rewrite Hvalor in Hv. injection Hv as <-.
  rewrite Hdata in Hd. injection Hd as <-.
  rewrite Htaxa in Ht1, Hj1, Hps. simpl default in Ht1, Hj1, Hps.
  assert (HNeq : editar_numero_parcelas eform cobranca = N).
  { unfold editar_numero_parcelas. rewrite Htaxa. simpl default.
    destruct HN as [[Ht ->] | [Ht ->]]; rewrite Ht.
    - rewrite decide_True by reflexivity. reflexivity.
    - rewrite decide_False by (intros Heq; discriminate Heq).
      rewrite decide_True by reflexivity. reflexivity. }
  rewrite HNeq in Hn1, Hps.
  exists l1, l2. split.
  { unfold get_loan. rewrite Hls. eapply get_loan_update; [exact Hid1 | exact Hloan]. }
  split; [exact Hget2 |].
  split; [congruence |]. split; [congruence |]. split; [congruence |].
  split; [congruence |]. split; [congruence |]. split; [exact Hp1 |].
  split; [exact Hs1 |]. split; [| split].
  - rewrite Hi2. unfold installments_of. rewrite Hps, Hid1.
    rewrite installments_after_regeneration.
    + apply escalonamento_gerar_parcelas.
    + intros p Hp. apply list_elem_of_lookup in Hp as [k Hk].
      apply gerar_parcelas_lookup in Hk. tauto.
  - unfold historico_de. rewrite Hhs.
    apply filter_all_false. intros h Hh. apply elem_of_filter_bool in Hh as [_ Hh].
    apply negb_true_iff in Hh. exact Hh.
  - unfold pagamentos_de. rewrite Hpg. reflexivity.
Qed.

Lemma editar_cobranca_regenerates_schedule_witness :
  exists l1 l2,
    get_loan (editar_cobranca 1 form_editar_30 db_parcela_paga).2 1 = Some l1 /\
    get_loan db_emprestimo 1 = Some l2 /\
    Loan.valor_original l1 = Loan.valor_original l2 /\
    Loan.valor_total l1 = Loan.valor_total l2 /\
    Loan.taxa_juros l1 = Loan.taxa_juros l2 /\
    Loan.numero_parcelas l1 = Loan.numero_parcelas l2 /\
    Loan.data_vencimento l1 = Loan.data_vencimento l2 /\
    Loan.valor_pago l1 = 0%Qc /\
    Loan.status l1 = Pendente /\
    escalonamento
      (installments_of (editar_cobranca 1 form_editar_30 db_parcela_paga).2 l1)
    = escalonamento (installments_of db_emprestimo l2) /\
    historico_de (editar_cobranca 1 form_editar_30 db_parcela_paga).2 1 = [] /\
    pagamentos_de (editar_cobranca 1 form_editar_30 db_parcela_paga).2 1
    = pagamentos_de db_parcela_paga 1.
Proof.
  apply (editar_cobranca_regenerates_schedule 1 form_editar_30 db_parcela_paga
           (editar_cobranca 1 form_editar_30 db_parcela_paga).2
           form_1000_30 db_cliente db_emprestimo).
  - apply reachable_wf.
    exact (reach_handle db_emprestimo requisicao (MarcarParcelaPaga 1)
             (reach_handle db_cliente requisicao (AdicionarCobranca form_1000_30)
                (reach_clientes empty_db [Customer.mk 1 "FH1" None] [] reach_empty))).
  - apply reachable_wf.
    exact (reach_clientes empty_db [Customer.mk 1 "FH1" None] [] reach_empty).
  - vm_compute. reflexivity.
  - reflexivity.
  - reflexivity.
  - reflexivity.
  - reflexivity.
Defined.

(** ** What the requests do to the balances *)

(** The balance of a loan as a sum over the whole table. *)
Lemma saldo_cob_as_sum db l :
  saldo_cob db l
  = sum_money
      (List.map
         (fun p => if bool_decide (Installment.cobranca_id p = Loan.id l) && is_pendente p
                   then (Installment.valor p + multa_or_0 p)%Qc else 0%Qc)
         (parcelas db)).
Proof.
  unfold saldo_cob, installments_of. rewrite !sum_money_filter.
  f_equal. apply List.map_ext. intros p.
  destruct (bool_decide _), (is_pendente p); reflexivity.
Qed.

(** The balance of a loan reads the installments and the key of the loan. *)
Lemma saldo_cob_ext db db' l l' :
  parcelas db' = parcelas db -> Loan.id l' = Loan.id l ->
  saldo_cob db' l' = saldo_cob db l.
Proof. unfold saldo_cob, installments_of. intros -> ->. reflexivity. Qed.

(** A sum over the table after one row was written back. *)
Lemma sum_update_installment (h : Installment.t -> money) p p' ps :
  NoDup (List.map Installment.id ps) -> p ∈ ps ->
  Installment.id p' = Installment.id p ->
  sum_money (List.map h (update_installment p' ps))
  = (sum_money (List.map h ps) - h p + h p')%Qc.
Proof.
  intros Hnd Hin Hid. induction ps as [| q qs IH]; [inversion Hin |].
  simpl in Hnd. apply NoDup_cons in Hnd as [Hnotin Hnd].
  cbn [update_installment List.map]. fold (update_installment p' qs).
  rewrite !sum_money_cons.
  apply elem_of_cons in Hin as [-> | Hin].
  - rewrite decide_True by congruence.
    rewrite update_installment_absent; [ring |].
    intros r Hr Heq. apply Hnotin. rewrite <- Hid, <- Heq.
    apply elem_of_map_list. eauto.
  - rewrite decide_False.
    + rewrite (IH Hnd Hin). ring.
    + intros Heq. apply Hnotin. rewrite Heq, Hid. apply elem_of_map_list. eauto.
Qed.

(** Writing a loan back with its key and its status leaves the total of the
    dashboard as it was. *)
Lemma saldo_devedor_total_update_loan db db' l0 l' :
  NoDup (List.map Loan.id (cobrancas db)) ->
  l0 ∈ cobrancas db ->
  Loan.id l' = Loan.id l0 -> Loan.status l' = Loan.status l0 ->
  cobrancas db' = update_loan l' (cobrancas db) ->
  parcelas db' = parcelas db ->
  saldo_devedor_total db' = saldo_devedor_total db.
Proof.
  intros Hnd Hl0 Hid Hst Hls Hps.
  rewrite !saldo_devedor_total_per_loan, Hls. unfold update_loan.
  rewrite (map_filter_map _ loan_pendente (saldo_cob db')).
  - f_equal. apply List.map_ext. intros l. apply saldo_cob_ext; [exact Hps | reflexivity].
  - intros l Hl. case_decide as Heq; [| auto].
    assert (l = l0) as -> by (eapply loan_id_inj; eauto; congruence).
    split.
    + unfold loan_pendente. rewrite Hst. reflexivity.
    + apply saldo_cob_ext; [reflexivity | exact Hid].
Qed.

(** What an accepted payment is, and the store that it leaves. *)
Lemma registrar_pagamento_Success req id v obs db db' :
  registrar_pagamento req id v obs db = (Success, db') ->
  exists cobranca l',
    get_loan db id = Some cobranca /\ (0 < v)%Qc /\
    get_loan db' id = Some l' /\
    Loan.id l' = Loan.id cobranca /\
    Loan.status l' = Loan.status cobranca /\
    Loan.valor_pago l' = (Loan.valor_pago cobranca + v)%Qc /\
    cobrancas db' = update_loan l' (cobrancas db) /\
    parcelas db' = parcelas db /\
    length (pagamentos db') = S (length (pagamentos db)) /\
    length (historico_pagamentos db') = S (length (historico_pagamentos db)).
Proof.
  unfold registrar_pagamento.
  destruct (get_loan db id) as [cobranca |] eqn:Hloan; [| discriminate].
  destruct (decide (v ≤ 0)%Qc) as [| Hpos]; [discriminate |].
  intros Heq. apply (f_equal snd) in Heq. cbn [snd] in Heq. subst db'.
  pose proof (get_loan_Some _ _ _ Hloan) as [Hid _].
  match goal with
  | |- context [update_loan ?l (cobrancas db)] => exists cobranca, l
  end.
  split; [reflexivity |]. split; [apply Qcnot_le_lt; exact Hpos |].
  split; [unfold get_loan; cbn [cobrancas]; eapply get_loan_update; [exact Hid | exact Hloan] |].
  cbn [cobrancas parcelas pagamentos historico_pagamentos].
  repeat (split; [reflexivity |]).
  rewrite !length_app. simpl. split; lia.
Qed.



(** What an accepted settlement is, and the store that it leaves. *)
Lemma marcar_parcela_paga_Success req id db db' :
  marcar_parcela_paga req id db = (Success, db') ->
  exists parcela cobranca parcela' cobranca',
    get_installment db id = Some parcela /\
    get_loan db (Installment.cobranca_id parcela) = Some cobranca /\
    Installment.status parcela = Pendente /\
    Installment.id parcela' = Installment.id parcela /\
    Installment.cobranca_id parcela' = Installment.cobranca_id parcela /\
    Installment.status parcela' = Pago /\
    Loan.id cobranca' = Loan.id cobranca /\
    Loan.valor_pago cobranca'
    = (Loan.valor_pago cobranca + Installment.valor parcela)%Qc /\
    parcelas db' = update_installment parcela' (parcelas db) /\
    cobrancas db' = update_loan cobranca' (cobrancas db).
Proof.
  unfold marcar_parcela_paga.
  destruct (get_installment db id) as [parcela |] eqn:Hp; [| discriminate].
  destruct (get_loan db (Installment.cobranca_id parcela)) as [cobranca |] eqn:Hloan;
    [| discriminate].
  destruct (decide (Installment.status parcela = Pago)) as [| Hst]; [discriminate |].
  destruct (Loan.valor_total cobranca) as [total |]; [| discriminate].
  intros Heq. apply (f_equal snd) in Heq. cbn [snd] in Heq. subst db'.
  match goal with
  | |- context [update_installment ?p (parcelas db)] =>
      match goal with
      | |- context [update_loan ?l (cobrancas db)] => exists parcela, cobranca, p, l
      end
  end.
  split; [reflexivity |]. split; [exact Hloan |].
  split; [destruct (Installment.status parcela); [reflexivity | contradiction] |].
  cbn [cobrancas parcelas]. repeat (split; [reflexivity |]). reflexivity.
Qed.



(** What an accepted edit of a manual penalty is. *)
Lemma editar_multa_parcela_Success id multa_input db db' :
  editar_multa_parcela id multa_input db = (Success, db') ->
  exists parcela parcela',
    get_installment db id = Some parcela /\
    (forall m, multa_input = Some m -> (0 ≤ m)%Qc) /\
    Installment.id parcela' = Installment.id parcela /\
    Installment.cobranca_id parcela' = Installment.cobranca_id parcela /\
    Installment.status parcela' = Installment.status parcela /\
    Installment.valor parcela' = Installment.valor parcela /\
    Installment.multa_manual parcela' = multa_input /\
    parcelas db' = update_installment parcela' (parcelas db) /\
    cobrancas db' = cobrancas db.
Proof.
  unfold editar_multa_parcela.
  destruct (get_installment db id) as [parcela |] eqn:Hp; [| discriminate].
  destruct multa_input as [m |].
  - destruct (decide (m < 0)%Qc) as [| Hm]; [discriminate |].
    intros Heq. apply (f_equal snd) in Heq. cbn [snd] in Heq. subst db'.
    match goal with
    | |- context [update_installment ?p (parcelas db)] => exists parcela, p
    end.
    split; [reflexivity |].
    split; [intros m0 [= <-]; apply Qcnot_lt_le; exact Hm |].
    cbn [cobrancas parcelas]. repeat (split; [reflexivity |]). reflexivity.
  - intros Heq. apply (f_equal snd) in Heq. cbn [snd] in Heq. subst db'.
    match goal with
    | |- context [update_installment ?p (parcelas db)] => exists parcela, p
    end.
    split; [reflexivity |]. split; [discriminate |].
    cbn [cobrancas parcelas]. repeat (split; [reflexivity |]). reflexivity.
Qed.



(** A sum splits along a test. *)
Lemma sum_money_partition {A} (g : A -> bool) (f : A -> money) xs :
  sum_money (List.map f xs)
  = (sum_money (List.map f (List.filter g xs))
     + sum_money (List.map f (List.filter (fun x => negb (g x)) xs)))%Qc.
Proof.
  induction xs as [| x xs IH]; simpl.
  - rewrite sum_money_nil. ring.
  - rewrite sum_money_cons, IH. destruct (g x); simpl; rewrite sum_money_cons; ring.
Qed.

(** Keys are unique: the rows with the key of a loan are that loan. *)
Lemma filter_loan_id ls l :
  NoDup (List.map Loan.id ls) -> l ∈ ls ->
  List.filter (fun l0 => bool_decide (Loan.id l0 = Loan.id l)) ls = [l].
Proof.
  intros Hnd Hin. induction ls as [| x xs IH]; [inversion Hin |].
  simpl in Hnd. apply NoDup_cons in Hnd as [Hnotin Hnd]. simpl.
  apply elem_of_cons in Hin as [-> | Hin].
  - rewrite bool_decide_eq_true_2 by reflexivity. f_equal.
    apply filter_all_false. intros y Hy. apply bool_decide_eq_false. intros Heq.
    apply Hnotin. rewrite <- Heq. apply elem_of_map_list. eauto.
  - rewrite bool_decide_eq_false_2; [apply IH; assumption |].
    intros Heq. apply Hnotin. rewrite Heq. apply elem_of_map_list. eauto.
Qed.

(** What an accepted cancellation leaves. *)
Lemma cancelar_cobranca_Success id db db' :
  cancelar_cobranca id db = (Success, db') ->
  exists l,
    get_loan db id = Some l /\
    cobrancas db'
    = List.filter (fun l => negb (bool_decide (Loan.id l = id))) (cobrancas db) /\
    parcelas db'
    = List.filter (fun p => negb (bool_decide (Installment.cobranca_id p = id)))
        (parcelas db) /\
    pagamentos db'
    = List.filter (fun p => negb (bool_decide (Payment.cobranca_id p = id)))
        (pagamentos db) /\
    historico_pagamentos db'
    = List.filter (fun h => negb (bool_decide (PaymentHistory.cobranca_id h = id)))
        (historico_pagamentos db) /\
    clientes db' = clientes db.
Proof.
  unfold cancelar_cobranca.
  destruct (get_loan db id) as [l |]; [| discriminate].
  intros Heq. apply (f_equal snd) in Heq. cbn [snd] in Heq. subst db'.
  exists l. repeat split; reflexivity.
Qed.

Lemma filter_comm {A} (f g : A -> bool) (xs : list A) :
  List.filter f (List.filter g xs) = List.filter g (List.filter f xs).
Proof.
  induction xs as [| x xs IH]; [reflexivity |]. simpl.
  destruct (f x) eqn:Hf, (g x) eqn:Hg; simpl; rewrite ?Hf, ?Hg, IH; reflexivity.
Qed.



(** ** Moving a due date *)

Lemma update_installment_twice p1 p2 ps :
  Installment.id p2 = Installment.id p1 ->
  update_installment p2 (update_installment p1 ps) = update_installment p2 ps.
Proof.
  intros Hid. unfold update_installment. rewrite List.map_map.
  apply List.map_ext. intros q.
  destruct (decide (Installment.id q = Installment.id p1)) as [Hq | Hq].
  - rewrite !decide_True by congruence. reflexivity.
  - rewrite decide_False by congruence. reflexivity.
Qed.

Lemma update_installment_self p ps :
  NoDup (List.map Installment.id ps) -> p ∈ ps -> update_installment p ps = ps.
Proof.
  intros Hnd Hin. unfold update_installment. rewrite <- (List.map_id ps) at 2.
  apply List.map_ext_in. intros q Hq. apply list_elem_of_In in Hq.
  case_decide as Heq; [| reflexivity]. eapply installment_id_inj; eauto.
Qed.



(** ** Deleting a customer *)

(** What an accepted deletion leaves. *)
Lemma deletar_cliente_Success cliente_id db db' :
  deletar_cliente cliente_id db = (Success, db') ->
  exists cliente,
    cliente ∈ clientes db /\ Customer.id cliente = cliente_id /\
    clientes db'
    = List.filter (fun c => negb (bool_decide (Customer.id c = cliente_id)))
        (clientes db) /\
    cobrancas db'
    = List.filter (fun l => negb (bool_decide (Loan.cliente_id l = cliente_id)))
        (cobrancas db) /\
    parcelas db'
    = List.filter
        (fun p => negb (existsb (fun l => bool_decide (Loan.id l = Installment.cobranca_id p))
                          (loans_of db cliente)))
        (parcelas db) /\
    pagamentos db'
    = List.filter
        (fun p => negb (existsb (fun l => bool_decide (Loan.id l = Payment.cobranca_id p))
                          (loans_of db cliente)))
        (pagamentos db) /\
    historico_pagamentos db'
    = List.filter
        (fun h => negb (existsb
                          (fun l => bool_decide (Loan.id l = PaymentHistory.cobranca_id h))
                          (loans_of db cliente)
                        || bool_decide (PaymentHistory.cliente_id h = cliente_id)))
        (historico_pagamentos db).
Proof.
  unfold deletar_cliente.
  destruct (List.find _ (clientes db)) as [cliente |] eqn:Hfind; [| discriminate].
  intros Heq. apply (f_equal snd) in Heq. cbn [snd] in Heq. subst db'.
  apply List.find_some in Hfind as [Hin Hid]. apply bool_decide_eq_true in Hid.
  apply list_elem_of_In in Hin.
  exists cliente. repeat split; assumption || reflexivity.
Qed.



(** ** The payment fields of an installment *)

Lemma gerar_parcelas_coerente n i next_id cid v d p :
  p ∈ gerar_parcelas n i next_id cid v d -> parcela_coerente p.
Proof.
  intros Hp. apply list_elem_of_lookup in Hp as [k Hk].
  assert (Hnone : Installment.data_pagamento p = None
                  /\ Installment.forma_pagamento p = None).
  { revert i next_id d k Hk. induction n as [| n IH]; intros i next_id d k Hk;
      [discriminate |].
    destruct k as [| k]; simpl in Hk; [injection Hk as <-; auto | eauto]. }
  apply gerar_parcelas_lookup in Hk as (_ & _ & _ & _ & Hst & Hpago & Hm).
  unfold parcela_coerente. rewrite Hst, Hm. split; [tauto | discriminate].
Qed.

Lemma handle_parcela_coerente req op db :
  (forall p, p ∈ parcelas db -> parcela_coerente p) ->
  forall p', p' ∈ parcelas (handle req op db).2 -> parcela_coerente p'.
Proof.
  intros IH p'.
  assert (Hfilter : forall f, p' ∈ List.filter f (parcelas db) -> parcela_coerente p')
    by (intros f H; apply elem_of_filter_bool in H; apply IH; tauto).
  assert (Hnew : forall n i s cid v d,
            p' ∈ gerar_parcelas n i s cid v d -> parcela_coerente p')
    by (intros; eapply gerar_parcelas_coerente; eassumption).
  destruct op; simpl.
  - unfold adicionar_cobranca.
    destruct (decide (weekday (form_data_vencimento form) = 6)); [auto |].
    destruct (decide (form_taxa_juros form = of_int 30));
      [cbn [snd parcelas]; intros Hel; apply elem_of_app in Hel as [Hel | Hel]; eauto |].
    destruct (decide (form_taxa_juros form = of_int 60));
      [cbn [snd parcelas]; intros Hel; apply elem_of_app in Hel as [Hel | Hel]; eauto | auto].
  - unfold editar_cobranca.
    destruct (get_loan db id); [| auto].
    destruct (List.find _ (clientes db)); [| auto].
    destruct (edit_valor_emprestimo form); [| auto].
    case_decide; [auto |].
    destruct (edit_data_vencimento form); [| auto].
    case_decide; [auto |]. case_decide; [auto |]. cbn [snd parcelas].
    intros Hel; apply elem_of_app in Hel as [Hel | Hel]; eauto.
  - unfold cancelar_cobranca. destruct (get_loan db cobranca_id); simpl; eauto.
  - unfold registrar_pagamento. destruct (get_loan db id); [| auto].
    case_decide; auto.
  - unfold marcar_parcela_paga.
    destruct (get_installment db id) as [parcela |] eqn:Hp; [| auto].
    destruct (get_loan db _); [| auto]. case_decide as Hst; [auto |].
    destruct (Loan.valor_total _); [| auto]. cbn [snd parcelas]. intros Hel.
    apply get_installment_Some in Hp as [_ Hin].
    apply elem_of_update_installment in Hel as [[-> _] | [Hel _]]; [| auto].
    destruct (IH parcela Hin) as [_ Hm].
    unfold parcela_coerente. simpl. split; [| exact Hm]. repeat split. eauto.
  - unfold editar_multa_parcela.
    destruct (get_installment db id) as [parcela |] eqn:Hp; [| auto].
    apply get_installment_Some in Hp as [_ Hin].
    destruct (IH parcela Hin) as [Hfields _].
    destruct multa_input as [m |]; [case_decide as Hm; [auto |] |];
      cbn [snd parcelas]; intros Hel;
      (apply elem_of_update_installment in Hel as [[-> _] | [Hel _]]; [| auto]);
      unfold parcela_coerente; simpl; (split; [exact Hfields |]).
    + intros m0 [= <-]. apply Qcnot_lt_le. exact Hm.
    + discriminate.
  - unfold editar_data_parcela.
    destruct (get_installment db id) as [parcela |] eqn:Hp; [| auto].
    apply get_installment_Some in Hp as [_ Hin].
    destruct nova_data as [d |]; [| auto]. case_decide as Hd; [auto |].
    cbn [snd parcelas]. intros Hel.
    apply elem_of_update_installment in Hel as [[-> _] | [Hel _]]; [| auto].
    exact (IH parcela Hin).
  - unfold deletar_cliente. destruct (List.find _ (clientes db)); simpl; eauto.
Qed.

(** X13.  In every store that the requests produce from the empty one, the
    payment fields of an installment agree with its status: a pending
    installment has nothing paid, no payment date and no payment method; a
    paid installment has exactly its amount paid, a payment date and the
    method 'Dinheiro'.  No manual penalty is negative. *)
Theorem reachable_parcela_coerente db p :
  reachable db -> p ∈ parcelas db ->
  match Installment.status p with
  | Pendente =>
      Installment.valor_pago p = 0%Qc /\
      Installment.data_pagamento p = None /\
      Installment.forma_pagamento p = None
  | Pago =>
      Installment.valor_pago p = Installment.valor p /\
      is_Some (Installment.data_pagamento p) /\
      Installment.forma_pagamento p = Some "Dinheiro"
  end /\
  forall m, Installment.multa_manual p = Some m -> (0 ≤ m)%Qc.
Proof.
  intros Hreach. revert p.
  induction Hreach as [| db req op _ IH | db cs cfg _ IH]; intros p Hp.
  - inversion Hp.
  - exact (handle_parcela_coerente req op db IH p Hp).
  - exact (IH p Hp).
Qed.

Lemma reachable_parcela_coerente_witness :
  Installment.status parcela_1_paga = Pago /\
  Installment.valor_pago parcela_1_paga = Installment.valor parcela_1_paga /\
  is_Some (Installment.data_pagamento parcela_1_paga) /\
  Installment.forma_pagamento parcela_1_paga = Some "Dinheiro".
Proof.
  split; [reflexivity |].
  destruct (reachable_parcela_coerente db_parcela_paga parcela_1_paga) as [H _].
  - exact (reach_handle db_emprestimo requisicao (MarcarParcelaPaga 1)
             (reach_handle db_cliente requisicao (AdicionarCobranca form_1000_30)
                (reach_clientes empty_db [Customer.mk 1 "FH1" None] [] reach_empty))).
  - vm_compute. left.
  - exact H.
Defined.

(** ** The totals of the dashboard and the balances of the customers *)

(** The balance of a customer as a sum over all the loans. *)
Lemma saldo_devedor_cliente_as_sum db c :
  saldo_devedor_cliente db c
  = sum_money
      (List.map
         (fun l => if bool_decide (Loan.cliente_id l = Customer.id c)
                   then (if loan_pendente l then saldo_cob db l else 0%Qc)
                   else 0%Qc)
         (cobrancas db)).
Proof. unfold saldo_devedor_cliente, loans_of. rewrite !sum_money_filter. reflexivity. Qed.

(** Keys are unique: one customer has a given key. *)
Lemma sum_money_one_customer (k : Z) (v : money) cs :
  NoDup (List.map Customer.id cs) ->
  (exists c, c ∈ cs /\ Customer.id c = k) ->
  sum_money
    (List.map (fun c => if bool_decide (k = Customer.id c) then v else 0%Qc) cs)
  = v.
Proof.
  intros Hnd (c & Hin & Hid). induction cs as [| x xs IH]; [inversion Hin |].
  simpl in Hnd. apply NoDup_cons in Hnd as [Hnotin Hnd].
  cbn [List.map]. rewrite sum_money_cons.
  apply elem_of_cons in Hin as [<- | Hin].
  - rewrite bool_decide_eq_true_2 by congruence.
    rewrite (List.map_ext_in _ (fun _ => 0%Qc)); [rewrite sum_money_map_0; ring |].
    intros y Hy. apply list_elem_of_In in Hy.
    rewrite bool_decide_eq_false_2; [reflexivity |].
    intros Heq. apply Hnotin. rewrite Hid, Heq. apply elem_of_map_list. eauto.
  - rewrite bool_decide_eq_false_2.
    + rewrite (IH Hnd Hin). ring.
    + intros Heq. apply Hnotin. rewrite <- Heq, <- Hid. apply elem_of_map_list. eauto.
Qed.

(** With every loan's customer in the table under one key, the total is
    the sum of the balances of the customers. *)
Lemma saldo_devedor_total_per_customer db :
  NoDup (List.map Customer.id (clientes db)) ->
  (forall l, l ∈ cobrancas db ->
     exists c, c ∈ clientes db /\ Customer.id c = Loan.cliente_id l) ->
  saldo_devedor_total db
  = sum_money (List.map (saldo_devedor_cliente db) (clientes db)).
Proof.
  intros Hnd Hfk.
  rewrite saldo_devedor_total_per_loan, sum_money_filter.
  rewrite (List.map_ext _ _ (saldo_devedor_cliente_as_sum db)).
  rewrite (sum_money_swap
             (fun c l => if bool_decide (Loan.cliente_id l = Customer.id c)
                         then (if loan_pendente l then saldo_cob db l else 0%Qc)
                         else 0%Qc)).
  f_equal. apply List.map_ext_in. intros l Hl. apply list_elem_of_In in Hl.
  symmetry. apply sum_money_one_customer; auto.
Qed.



(** A test that does not depend on the row moves out of the sum. *)
Lemma sum_money_if {A} (b : bool) (f : A -> money) xs :
  (if b then sum_money (List.map f xs) else 0%Qc)
  = sum_money (List.map (fun x => if b then f x else 0%Qc) xs).
Proof. destruct b; [reflexivity |]. symmetry. apply sum_money_map_0. Qed.

Lemma bool_decide_sym (a b : Z) : bool_decide (a = b) = bool_decide (b = a).
Proof. apply bool_decide_ext. split; congruence. Qed.

(** The balance of a company as a sum over the three tables. *)
Lemma kpi_saldo_devedor_as_sum db emp :
  kpi_saldo_devedor db emp
  = sum_money
      (List.map
         (fun p =>
            sum_money
              (List.map
                 (fun l =>
                    sum_money
                      (List.map
                         (fun c =>
                            if bool_decide (Loan.id l = Installment.cobranca_id p)
                               && bool_decide (Customer.id c = Loan.cliente_id l)
                               && (bool_decide (Customer.empresa c = emp)
                                   && loan_pendente l && is_pendente p)
                            then (Installment.valor p + multa_or_0 p)%Qc else 0%Qc)
                         (clientes db)))
                 (cobrancas db)))
         (parcelas db)).
Proof.
  rewrite kpi_saldo_devedor_rows. unfold join_loan_customer, join_loan.
  rewrite sum_money_filter, sum_money_flat_map, sum_money_flat_map.
  f_equal. apply List.map_ext. intros p.
  rewrite !List.map_map, sum_money_filter.
  f_equal. apply List.map_ext. intros l. cbn [fst snd].
  rewrite List.map_map, sum_money_filter. cbn [fst snd].
  rewrite sum_money_if. f_equal. apply List.map_ext. intros c.
  destruct (bool_decide (Loan.id l = Installment.cobranca_id p)),
    (bool_decide (Customer.id c = Loan.cliente_id l)),
    (bool_decide (Customer.empresa c = emp)), (loan_pendente l), (is_pendente p);
    reflexivity.
Qed.

(** The balance of a company, customer by customer. *)
Lemma kpi_saldo_devedor_per_customer db emp :
  kpi_saldo_devedor db emp
  = sum_money
      (List.map (saldo_devedor_cliente db)
         (List.filter (fun c => bool_decide (Customer.empresa c = emp)) (clientes db))).
Proof.
  rewrite kpi_saldo_devedor_as_sum, sum_money_filter.
  (* bring the sum over the customers to the front *)
  rewrite (sum_money_swap
             (fun p l =>
                sum_money
                  (List.map
                     (fun c =>
                        if bool_decide (Loan.id l = Installment.cobranca_id p)
                           && bool_decide (Customer.id c = Loan.cliente_id l)
                           && (bool_decide (Customer.empresa c = emp)
                               && loan_pendente l && is_pendente p)
                        then (Installment.valor p + multa_or_0 p)%Qc else 0%Qc)
                     (clientes db)))).
  rewrite (List.map_ext _ _
             (fun l =>
                sum_money_swap
                  (fun p c =>
                     if bool_decide (Loan.id l = Installment.cobranca_id p)
                        && bool_decide (Customer.id c = Loan.cliente_id l)
                        && (bool_decide (Customer.empresa c = emp)
                            && loan_pendente l && is_pendente p)
                     then (Installment.valor p + multa_or_0 p)%Qc else 0%Qc)
                  (parcelas db) (clientes db))).
  rewrite (sum_money_swap
             (fun l c =>
                sum_money
                  (List.map
                     (fun p =>
                        if bool_decide (Loan.id l = Installment.cobranca_id p)
                           && bool_decide (Customer.id c = Loan.cliente_id l)
                           && (bool_decide (Customer.empresa c = emp)
                               && loan_pendente l && is_pendente p)
                        then (Installment.valor p + multa_or_0 p)%Qc else 0%Qc)
                     (parcelas db)))).
  f_equal. apply List.map_ext. intros c.
  rewrite saldo_devedor_cliente_as_sum, sum_money_if.
  f_equal. apply List.map_ext. intros l.
  rewrite saldo_cob_as_sum, !sum_money_if.
  f_equal. apply List.map_ext. intros p.
  rewrite (bool_decide_sym (Loan.id l)), (bool_decide_sym (Customer.id c)).
  destruct (bool_decide (Installment.cobranca_id p = Loan.id l)),
    (bool_decide (Loan.cliente_id l = Customer.id c)),
    (bool_decide (Customer.empresa c = emp)), (loan_pendente l), (is_pendente p);
    reflexivity.
Qed.


(** One of the listed companies is the company of the customer. *)
Lemma sum_money_one_empresa (e : string) (v : money) :
  e ∈ empresas ->
  sum_money (List.map (fun emp => if bool_decide (e = emp) then v else 0%Qc) empresas)
  = v.
Proof.
  intros He. unfold empresas in *.
  repeat (apply elem_of_cons in He as [-> | He]);
    [| | | | inversion He];
    cbn [List.map]; rewrite !sum_money_cons, sum_money_nil;
    repeat case_bool_decide; try discriminate; try congruence; ring.
Qed.




(** * Users, sessions and access control *)

(** ** The decorators *)

(** X17.  The guards are ordered: a request that [adm_required] lets through
    is let through by [gerente_required] and by [login_required] as well.
    Under [login_required], as the routes stack them, [adm_required] and
    [gerente_required] answer a request without a logged-in user with the
    redirect and the 'warning' flash of [login_required]: the 'critical'
    flash of [gerente_required] is never sent. *)
Theorem adm_required_implies_gerente_required session contas :
  adm_required (fun _ _ => Retorno tt) session contas = Retorno tt ->
  forall A (f : View A),
    adm_required f session contas = f session contas /\
    gerente_required f session contas = f session contas /\
    login_required f session contas = f session contas /\
    login_required (adm_required f) session contas = f session contas /\
    login_required (gerente_required f) session contas = f session contas /\
    (forall session0 contas0,
       usuario_id session0 = None ->
       login_required (gerente_required f) session0 contas0 = RedirectLogin "warning" /\
       login_required (adm_required f) session0 contas0 = RedirectLogin "warning").
Proof.
  unfold adm_required, gerente_required, login_required.
  destruct (usuario_id session) as [id |]; [| discriminate].
  destruct (get_user contas id) as [usuario |]; [| discriminate].
  destruct (decide (User.nivel usuario <> "ADM")) as [| Hadm]; [discriminate |].
  intros _ A f.
  assert (Hnivel : User.nivel usuario = "ADM")
    by (destruct (decide (User.nivel usuario = "ADM")); [assumption | contradiction]).
  rewrite decide_False by (rewrite Hnivel; intros Hn; apply Hn; set_solver).
  repeat (split; [reflexivity |]).
  intros session0 contas0 ->. split; reflexivity.
Qed.

Lemma adm_required_implies_gerente_required_witness :
  usuario_id session_admin = Some 1 /\
  gerente_required (fun _ _ => Retorno tt) session_admin contas_iniciais = Retorno tt.
Proof.
  split; [reflexivity |].
  apply (adm_required_implies_gerente_required session_admin contas_iniciais).
  reflexivity.
Defined.

(** ** The table of the users *)

Section Contas.
Variable generate_password_hash : string -> string -> string.

Lemma map_id_update_user u' us :
  List.map User.id (update_user u' us) = List.map User.id us.
Proof.
  unfold update_user. rewrite List.map_map. apply List.map_ext.
  intros u. case_decide; congruence.
Qed.

Lemma get_user_Some contas id u :
  get_user contas id = Some u -> User.id u = id /\ u ∈ usuarios contas.
Proof.
  unfold get_user. intros H. apply List.find_some in H as [Hin Hid].
  apply bool_decide_eq_true in Hid. split; [exact Hid |].
  apply list_elem_of_In. exact Hin.
Qed.

(** Keys are unique and below the sequence. *)
Lemma contas_reachable_keys contas :
  contas_reachable generate_password_hash contas ->
  NoDup (List.map User.id (usuarios contas)) /\
  forall u, u ∈ usuarios contas -> User.id u < usuarios_id_seq contas.
Proof.
  assert (Hadd : forall us seq u,
            NoDup (List.map User.id us) ->
            (forall u0, u0 ∈ us -> User.id u0 < seq) ->
            User.id u = seq ->
            NoDup (List.map User.id (us ++ [u])) /\
            forall u0, u0 ∈ us ++ [u] -> User.id u0 < seq + 1).
  { intros us seq u Hnd Hlt Hid. split.
    - rewrite List.map_app. apply NoDup_app. split; [exact Hnd |].
      split; [| apply NoDup_singleton].
      intros x Hx Hx'. apply list_elem_of_singleton in Hx'. subst x.
      apply elem_of_map_list in Hx as (u0 & Hu0 & Hin). specialize (Hlt u0 Hin). lia.
    - intros u0 Hu0. apply elem_of_app in Hu0 as [Hu0 | Hu0].
      + specialize (Hlt u0 Hu0). lia.
      + apply list_elem_of_singleton in Hu0. subst. lia. }
  induction 1 as [| contas op _ [Hnd Hlt]].
  - split; [constructor | intros u Hu; inversion Hu].
  - destruct op; simpl.
    + unfold criar_dados_iniciais. destruct (clients contas); [| auto].
      cbn [usuarios usuarios_id_seq]. apply Hadd; auto.
    + unfold adicionar_usuario.
      destruct (form !! "nome"); [| auto]. destruct (form !! "email"); [| auto].
      destruct (form !! "senha"); [| auto].
      destruct commit; cbn [snd usuarios usuarios_id_seq].
      * apply Hadd; auto.
      * split; [exact Hnd |]. intros u Hu. specialize (Hlt u Hu). lia.
    + unfold editar_usuario.
      destruct (get_user contas usuario_id0) as [usuario |] eqn:Hu; [| auto].
      destruct (form !! "nome"); [| auto]. destruct (form !! "email"); [| auto].
      destruct commit; [| auto]. cbn [snd usuarios usuarios_id_seq].
      rewrite map_id_update_user. split; [exact Hnd |].
      intros u Hin. unfold update_user in Hin.
      apply elem_of_map_list in Hin as (u0 & Heq & Hin0).
      apply get_user_Some in Hu as [_ Huin].
      case_decide as Hid; subst u; [rewrite <- Hid |]; auto.
    + unfold excluir_usuario.
      destruct (get_user contas usuario_id0); [| auto].
      destruct commit; [| auto]. cbn [snd usuarios usuarios_id_seq]. split.
      * apply NoDup_map_filter. exact Hnd.
      * intros u Hu. apply elem_of_filter_bool in Hu as [Hu _]. auto.
Qed.

Lemma contas_reachable_tipo contas u :
  contas_reachable generate_password_hash contas -> u ∈ usuarios contas ->
  User.tipo u = if decide (User.nivel u = "ADM") then "admin" else "operador".
Proof.
  intros Hreach. revert u.
  induction Hreach as [| contas op _ IH]; intros u Hu; [inversion Hu |].
  destruct op; simpl in Hu.
  - unfold criar_dados_iniciais in Hu. destruct (clients contas); [| auto].
    cbn [usuarios] in Hu. apply elem_of_app in Hu as [Hu | Hu]; [auto |].
    apply list_elem_of_singleton in Hu. subst u. reflexivity.
  - unfold adicionar_usuario in Hu.
    destruct (form !! "nome"); [| auto]. destruct (form !! "email"); [| auto].
    destruct (form !! "senha"); [| auto].
    destruct commit; cbn [snd usuarios] in Hu; [| auto].
    apply elem_of_app in Hu as [Hu | Hu]; [auto |].
    apply list_elem_of_singleton in Hu. subst u. reflexivity.
  - unfold editar_usuario in Hu.
    destruct (get_user contas usuario_id0) as [usuario |]; [| auto].
    destruct (form !! "nome"); [| auto]. destruct (form !! "email"); [| auto].
    destruct commit; [| auto]. cbn [snd usuarios] in Hu.
    unfold update_user in Hu. apply elem_of_map_list in Hu as (u0 & Heq & Hin0).
    case_decide; subst u; [reflexivity | auto].
  - unfold excluir_usuario in Hu.
    destruct (get_user contas usuario_id0); [| auto].
    destruct commit; [| auto]. cbn [snd usuarios] in Hu.
    apply elem_of_filter_bool in Hu as [Hu _]. auto.
Qed.
End Contas.

Lemma user_id_inj us u1 u2 :
  NoDup (List.map User.id us) -> u1 ∈ us -> u2 ∈ us -> User.id u1 = User.id u2 -> u1 = u2.
Proof.
  induction us as [| u us IH]; intros Hnd H1 H2 Heq; [inversion H1 |].
  simpl in Hnd. apply NoDup_cons in Hnd as [Hnotin Hnd].
  apply elem_of_cons in H1 as [-> | H1]; apply elem_of_cons in H2 as [-> | H2].
  - reflexivity.
  - exfalso. apply Hnotin. rewrite Heq. apply elem_of_map_list. eauto.
  - exfalso. apply Hnotin. rewrite <- Heq. apply elem_of_map_list. eauto.
  - apply IH; assumption.
Qed.

Lemma get_user_elem contas u :
  NoDup (List.map User.id (usuarios contas)) -> u ∈ usuarios contas ->
  get_user contas (User.id u) = Some u.
Proof.
  intros Hnd Hin. unfold get_user.
  destruct (List.find _ (usuarios contas)) as [u0 |] eqn:Hfind.
  - apply List.find_some in Hfind as [Hin0 Hid]. apply bool_decide_eq_true in Hid.
    apply list_elem_of_In in Hin0. f_equal. eapply user_id_inj; eauto.
  - apply list_elem_of_In in Hin. eapply List.find_none in Hfind; [| exact Hin].
    apply bool_decide_eq_false in Hfind. contradiction.
Qed.

(** X18.  The column [tipo] of a user is derived from the column [nivel] in
    every store that [criar_dados_iniciais], [adicionar_usuario],
    [editar_usuario] and [excluir_usuario] produce from empty tables: it is
    'admin' for the level 'ADM' and 'operador' for any other level. *)
Theorem usuario_tipo_follows_nivel generate_password_hash contas u :
  contas_reachable generate_password_hash contas -> u ∈ usuarios contas ->
  User.tipo u = if decide (User.nivel u = "ADM") then "admin" else "operador".
Proof. apply contas_reachable_tipo. Qed.

Lemma usuario_tipo_follows_nivel_witness :
  Forall (fun u => User.tipo u
                   = if decide (User.nivel u = "ADM") then "admin" else "operador")
    (usuarios contas_operador) /\
  List.map User.nivel (usuarios contas_operador) = ["ADM"; "Operador"].
Proof.
  split; [| reflexivity].
  apply Forall_forall. intros u Hu.
  apply (usuario_tipo_follows_nivel hash_exemplo contas_operador u); [| exact Hu].
  exact (contas_step hash_exemplo _ (AdicionarUsuario form_operador "sal" true)
           (contas_step hash_exemplo _ (CriarDadosIniciais "sal")
              (contas_empty hash_exemplo))).
Defined.

(** X19.  After a successful [login] the session agrees with the store: it
    holds the key, the name and the [tipo] of the first user with the given
    email, whose stored hash the password matches; and what the templates
    read from the session ([can_access_admin], [can_access_reports]) and the
    session-based [admin_required] decide then as the guards that read the
    store ([adm_required], [gerente_required]) do. *)
Theorem login_session_agrees_with_store check_password_hash generate_password_hash
    email senha contas session session' :
  contas_reachable generate_password_hash contas ->
  login check_password_hash email senha contas session = (BemVindo, session') ->
  exists u,
    get_user contas (User.id u) = Some u /\
    User.email u = email /\
    check_password_hash (User.senha u) senha = true /\
    usuario_id session' = Some (User.id u) /\
    usuario_nome session' = Some (User.nome u) /\
    usuario_tipo session' = Some (User.tipo u) /\
    (can_access_admin session' = true
     <-> adm_required (fun _ _ => Retorno tt) session' contas = Retorno tt) /\
    (can_access_reports session' = true
     <-> gerente_required (fun _ _ => Retorno tt) session' contas = Retorno tt) /\
    (admin_required (fun _ _ => Retorno tt) session' contas = Retorno tt
     <-> adm_required (fun _ _ => Retorno tt) session' contas = Retorno tt).
Proof.
  intros Hreach Hlogin.
  destruct (contas_reachable_keys _ _ Hreach) as [Hnd _].
  unfold login in Hlogin.
  destruct (List.find _ (usuarios contas)) as [u |] eqn:Hfind; [| discriminate].
  destruct (check_password_hash (User.senha u) senha) eqn:Hcheck; [| discriminate].
  injection Hlogin as <-.
  apply List.find_some in Hfind as [Hin Hemail].
  apply bool_decide_eq_true in Hemail. apply list_elem_of_In in Hin.
  pose proof (get_user_elem contas u Hnd Hin) as Hget.
  pose proof (contas_reachable_tipo _ _ _ Hreach Hin) as Htipo.
  exists u. split; [exact Hget |]. split; [exact Hemail |]. split; [exact Hcheck |].
  split; [reflexivity |]. split; [reflexivity |].
  unfold can_access_admin, can_access_reports, adm_required, gerente_required,
    admin_required.
  cbn [usuario_id usuario_tipo usuario_nivel]. rewrite Hget, Htipo.
  destruct (decide (User.nivel u = "")) as [He | He].
  - rewrite He. split; [reflexivity |].
    rewrite !bool_decide_eq_false_2
      by (intros H; repeat (apply elem_of_cons in H as [H | H]);
          try congruence; inversion H).
    repeat split; intros H; try discriminate H; exfalso;
      repeat case_decide; try discriminate; set_solver.
  - destruct (decide (User.nivel u = "ADM")) as [Ha | Ha].
    + rewrite Ha. split; [reflexivity |].
      repeat split; intros _; try reflexivity;
        repeat case_decide; try reflexivity; try congruence; set_solver.
    + split; [reflexivity |].
      rewrite (bool_decide_eq_false_2 (Some (User.nivel u) = Some "ADM")) by congruence.
      split; [| split].
      * split; intros H; [discriminate H |].
        rewrite decide_True in H by exact Ha. discriminate H.
      * destruct (decide (User.nivel u = "Gerente")) as [Hg | Hg].
        -- rewrite Hg. split; intros _; [| apply bool_decide_eq_true; set_solver].
           rewrite decide_False by set_solver. reflexivity.
        -- rewrite bool_decide_eq_false_2
             by (intros H; repeat (apply elem_of_cons in H as [H | H]);
                 try congruence; inversion H).
           rewrite decide_True
             by (intros H; repeat (apply elem_of_cons in H as [H | H]);
                 try congruence; inversion H).
           split; intros H; discriminate H.
      * rewrite decide_True by discriminate. rewrite decide_True by exact Ha.
        split; intros H; discriminate H.
Qed.

Lemma login_session_agrees_with_store_witness :
  can_access_admin session_admin = true /\
  adm_required (fun _ _ => Retorno tt) session_admin contas_iniciais = Retorno tt /\
  usuario_tipo session_admin = Some "admin".
Proof.
  destruct (login_session_agrees_with_store check_exemplo hash_exemplo
              "admin@teste.com" "123456" contas_iniciais session_clear session_admin)
    as (u & _ & _ & _ & _ & _ & _ & [H _] & _).
  - exact (contas_step hash_exemplo _ (CriarDadosIniciais "sal")
             (contas_empty hash_exemplo)).
  - reflexivity.
  - split; [reflexivity |]. split; [apply H; reflexivity | reflexivity].
Defined.

Lemma get_user_update_user u' contas id u :
  User.id u' = id -> get_user contas id = Some u ->
  List.find (fun q => bool_decide (User.id q = id)) (update_user u' (usuarios contas))
  = Some u'.
Proof.
  unfold get_user. intros Hid.
  induction (usuarios contas) as [| q qs IH]; simpl; [discriminate |].
  destruct (bool_decide (User.id q = id)) eqn:Hq.
  - intros _. apply bool_decide_eq_true in Hq.
    rewrite decide_True by congruence. rewrite bool_decide_eq_true_2 by exact Hid.
    reflexivity.
  - apply bool_decide_eq_false in Hq. rewrite decide_False by congruence.
    rewrite bool_decide_eq_false_2 by exact Hq. exact IH.
Qed.

(** X20.  [adm_required] and [gerente_required] follow the store, not the
    session.  Once a user is deleted, a session of that user is refused by
    both, with any view, while [login_required] still lets it through; and
    once a user is edited, a session of that user passes [adm_required]
    exactly when the form gave the level 'ADM', and [gerente_required]
    exactly when it gave 'Gerente' or 'ADM' (no level in the form counting
    as 'Operador'), whatever level the session holds. *)
Theorem guards_follow_the_store generate_password_hash id contas session :
  usuario_id session = Some id ->
  (forall contas',
     excluir_usuario id true contas = (UsuarioExcluido, contas') ->
     forall A (f : View A),
       adm_required f session contas'
       = RedirectIndex AcessoNaoAutorizadoApenasAdministradores /\
       gerente_required f session contas' = RedirectIndex AcessoNaoAutorizado /\
       login_required f session contas' = f session contas') /\
  (forall form salt contas',
     editar_usuario generate_password_hash id form salt true contas
     = (UsuarioSalvo, contas') ->
     (adm_required (fun _ _ => Retorno tt) session contas' = Retorno tt
      <-> default "Operador" (form !! "nivel") = "ADM") /\
     (gerente_required (fun _ _ => Retorno tt) session contas' = Retorno tt
      <-> default "Operador" (form !! "nivel") ∈ ["Gerente"; "ADM"])).
Proof.
  intros Hsession. split.
  - intros contas' Hdel A f. unfold excluir_usuario in Hdel.
    destruct (get_user contas id); [| discriminate].
    injection Hdel as <-.
    unfold adm_required, gerente_required, login_required. rewrite Hsession.
    assert (Hgone : get_user
                      {| clients := clients contas;
                         usuarios :=
                           List.filter (fun u => negb (bool_decide (User.id u = id)))
                             (usuarios contas);
                         clients_id_seq := clients_id_seq contas;
                         usuarios_id_seq := usuarios_id_seq contas |} id = None).
    { unfold get_user. cbn [usuarios].
      destruct (List.find _ _) as [u |] eqn:Hfind; [| reflexivity].
      apply List.find_some in Hfind as [Hin Hid]. apply list_elem_of_In in Hin.
      apply elem_of_filter_bool in Hin as [_ Hne]. apply negb_true_iff in Hne.
      congruence. }
    rewrite Hgone. repeat split.
  - intros form salt contas' Hedit. unfold editar_usuario in Hedit.
    destruct (get_user contas id) as [usuario |] eqn:Hu; [| discriminate].
    destruct (form !! "nome") as [nome |]; [| discriminate].
    destruct (form !! "email") as [email |]; [| discriminate].
    pose proof (get_user_Some _ _ _ Hu) as [Hid _].
    match type of Hedit with
    | context [update_user ?u' _] =>
        pose proof (get_user_update_user u' contas id usuario Hid Hu) as Hget
    end.
    injection Hedit as <-.
    unfold adm_required, gerente_required. rewrite Hsession.
    unfold get_user at 1 2. cbn [usuarios]. rewrite Hget. cbn [User.nivel].
    split; split; intros H.
    + destruct (decide (default "Operador" (form !! "nivel") <> "ADM")) as [| Hn];
        [discriminate H |].
      destruct (decide (default "Operador" (form !! "nivel") = "ADM"));
        [assumption | contradiction].
    + rewrite decide_False by (intros Hn; contradiction). reflexivity.
    + destruct (decide (default "Operador" (form !! "nivel") ∉ ["Gerente"; "ADM"]))
        as [| Hn]; [discriminate H |].
      destruct (decide (default "Operador" (form !! "nivel") ∈ ["Gerente"; "ADM"]));
        [assumption | contradiction].
    + rewrite decide_False by (intros Hn; contradiction). reflexivity.
Qed.

Lemma guards_follow_the_store_witness :
  can_access_admin session_admin = true /\
  adm_required (fun _ _ => Retorno tt) session_admin
    (editar_usuario hash_exemplo 1 form_rebaixar "sal" true contas_iniciais).2
  <> Retorno tt /\
  gerente_required (fun _ _ => Retorno tt) session_admin
    (excluir_usuario 1 true contas_iniciais).2
  = RedirectIndex AcessoNaoAutorizado.
Proof.
  destruct (guards_follow_the_store hash_exemplo 1 contas_iniciais session_admin)
    as [Hdel Hedit]; [reflexivity |].
  split; [reflexivity |]. split.
  - intros H.
    apply (Hedit form_rebaixar "sal"
             (editar_usuario hash_exemplo 1 form_rebaixar "sal" true contas_iniciais).2)
      in H; [discriminate H | reflexivity].
  - apply (Hdel (excluir_usuario 1 true contas_iniciais).2); reflexivity.
Defined.

(** ** The first tenant and its administrator *)

(** X21.  [criar_dados_iniciais] runs once: on a store with a tenant it
    changes nothing, so a second run leaves what the first run made; on a
    store without tenants it adds one tenant and one user, of level 'ADM'
    and tipo 'admin', that belongs to that tenant. *)
Theorem criar_dados_iniciais_once generate_password_hash salt salt' contas :
  criar_dados_iniciais generate_password_hash salt'
    (criar_dados_iniciais generate_password_hash salt contas)
  = criar_dados_iniciais generate_password_hash salt contas /\
  (clients contas <> [] ->
   criar_dados_iniciais generate_password_hash salt contas = contas) /\
  (clients contas = [] ->
   exists empresa admin,
     clients (criar_dados_iniciais generate_password_hash salt contas) = [empresa] /\
     usuarios (criar_dados_iniciais generate_password_hash salt contas)
     = usuarios contas ++ [admin] /\
     User.email admin = "admin@teste.com" /\
     User.senha admin = generate_password_hash salt "123456" /\
     User.nivel admin = "ADM" /\ User.tipo admin = "admin" /\
     User.client_id admin = Some (Client.id empresa)).
Proof.
  unfold criar_dados_iniciais.
  destruct (clients contas) as [| c cs] eqn:Hc.
  - cbn [clients]. rewrite app_nil_l. split; [reflexivity |].
    split; [intros H; contradiction |]. intros _. eexists _, _.
    cbn [clients usuarios]. repeat split; reflexivity.
  - rewrite Hc. split; [reflexivity |]. split; [reflexivity | discriminate].
Qed.

(** ** Registering a user and logging in *)

Lemma find_app_some {A} (f : A -> bool) (xs ys : list A) x :
  List.find f xs = Some x -> List.find f (xs ++ ys) = Some x.
Proof.
  induction xs as [| y xs IH]; simpl; [discriminate |].
  destruct (f y); [auto | exact IH].
Qed.

(** X22.  A user that [adicionar_usuario] has stored can log in with the
    password of the form, provided that no earlier user has the same email:
    the session then holds the key drawn for the new user and the level of
    the form ('Operador' when the form has none or an empty one).  When an
    earlier user has the email, [login] goes on checking the password of
    that user: the new row does not change the outcome of any login with
    this email. *)
Theorem adicionar_usuario_then_login check_password_hash generate_password_hash
    form salt contas contas' email senha :
  (forall salt senha,
     check_password_hash (generate_password_hash salt senha) senha = true) ->
  adicionar_usuario generate_password_hash form salt true contas
  = (UsuarioSalvo, contas') ->
  form !! "email" = Some email ->
  form !! "senha" = Some senha ->
  ((forall u, u ∈ usuarios contas -> User.email u <> email) ->
   forall session,
   exists session',
     login check_password_hash email senha contas' session = (BemVindo, session') /\
     usuario_id session' = Some (usuarios_id_seq contas) /\
     usuario_nivel session'
     = Some (let nivel := default "Operador" (form !! "nivel") in
             if decide (nivel = "") then "Operador" else nivel)) /\
  ((exists u, u ∈ usuarios contas /\ User.email u = email) ->
   forall tentativa session,
     login check_password_hash email tentativa contas' session
     = login check_password_hash email tentativa contas session).
Proof.
  intros Hhash Hadd Hemail Hsenha. unfold adicionar_usuario in Hadd.
  rewrite Hemail, Hsenha in Hadd.
  destruct (form !! "nome") as [nome |]; [| discriminate].
  injection Hadd as <-. split.
  - intros Hnew session. unfold login. cbn [usuarios].
    rewrite find_app_none
      by (intros u Hu; apply bool_decide_eq_false; apply Hnew, Hu).
    simpl List.find. rewrite bool_decide_eq_true_2 by reflexivity.
    cbn [User.senha User.nivel User.id User.nome]. rewrite Hhash.
    eexists. split; [reflexivity |]. split; reflexivity.
  - intros (u & Hin & Hu) tentativa session. unfold login. cbn [usuarios].
    destruct (List.find (fun u0 => bool_decide (User.email u0 = email)) (usuarios contas))
      as [u0 |] eqn:Hfind.
    + rewrite (find_app_some _ _ _ _ Hfind). reflexivity.
    + apply list_elem_of_In in Hin. eapply List.find_none in Hfind; [| exact Hin].
      apply bool_decide_eq_false in Hfind. contradiction.
Qed.

Lemma adicionar_usuario_then_login_witness :
  exists session',
    login check_exemplo "ana@teste.com" "segredo" contas_operador session_clear
    = (BemVindo, session') /\
    usuario_id session' = Some 2 /\
    usuario_nivel session' = Some "Operador".
Proof.
  destruct (adicionar_usuario_then_login check_exemplo hash_exemplo form_operador "sal"
              contas_iniciais contas_operador "ana@teste.com" "segredo")
    as [H _].
  - intros salt senha. unfold check_exemplo, hash_exemplo.
    apply bool_decide_eq_true. reflexivity.
  - reflexivity.
  - reflexivity.
  - reflexivity.
  - apply (H ltac:(intros u Hu; vm_compute in Hu;
                   apply list_elem_of_singleton in Hu; subst u; discriminate)
             session_clear).
Defined.

(** * Customers: registration and editing *)

Section CadastroProps.
Variable isdecimal : N -> bool.

(** ** The check of the document number *)

Lemma validar_cpf_cnpj_length documento :
  validar_cpf_cnpj isdecimal documento = true
  <-> length (List.filter isdecimal documento) = 11%nat
      \/ length (List.filter isdecimal documento) = 14%nat.
Proof.
  unfold validar_cpf_cnpj.
  destruct (decide (length (List.filter isdecimal documento) = 11%nat)) as [H11 | H11].
  - rewrite bool_decide_eq_true. tauto.
  - destruct (decide (length (List.filter isdecimal documento) = 14%nat)) as [H14 | H14].
    + rewrite bool_decide_eq_true. tauto.
    + split; [discriminate | tauto].
Qed.

Lemma filter_Permutation_length {A} (f : A -> bool) xs ys :
  xs ≡ₚ ys -> length (List.filter f xs) = length (List.filter f ys).
Proof.
  induction 1 as [| x xs ys _ IH | x y xs | xs ys zs _ IH1 _ IH2]; simpl.
  - reflexivity.
  - destruct (f x); simpl; rewrite IH; reflexivity.
  - destruct (f x), (f y); reflexivity.
  - congruence.
Qed.
End CadastroProps.

(** X23.  [validar_cpf_cnpj] counts the decimal digits of the text and
    nothing else: it accepts exactly the texts with 11 or with 14 digits.
    So it gives the same answer for a text and for any rearrangement of its
    characters (no check digit is verified), and a character that is not a
    digit can be put in or left out anywhere. *)
Theorem validar_cpf_cnpj_counts_digits (isdecimal : N -> bool) :
  (forall documento,
     validar_cpf_cnpj isdecimal documento = true
     <-> length (List.filter isdecimal documento) = 11%nat
         \/ length (List.filter isdecimal documento) = 14%nat) /\
  (forall documento documento',
     documento ≡ₚ documento' ->
     validar_cpf_cnpj isdecimal documento = validar_cpf_cnpj isdecimal documento') /\
  (forall antes c depois,
     isdecimal c = false ->
     validar_cpf_cnpj isdecimal (antes ++ c :: depois)
     = validar_cpf_cnpj isdecimal (antes ++ depois)).
Proof.
  split; [intros documento; apply validar_cpf_cnpj_length |].
  split.
  - intros documento documento' Hperm. unfold validar_cpf_cnpj.
    rewrite (filter_Permutation_length isdecimal _ _ Hperm). reflexivity.
  - intros antes c depois Hc. unfold validar_cpf_cnpj.
    rewrite !List.filter_app. simpl. rewrite Hc. reflexivity.
Qed.

(** ** The two forms of a customer *)



(** ** What is stored about a customer *)

Section CadastroInvariant.
Variable isdecimal : N -> bool.
Variable secure_filename : str -> str.

Lemma vazio_false s : vazio s = false -> s <> [].
Proof. unfold vazio. apply bool_decide_eq_false. Qed.

Ltac validacoes :=
  repeat (match goal with
          | |- context [if vazio ?s then _ else _] =>
              let H := fresh "Hv" in
              destruct (vazio s) eqn:H;
                [cbn [snd]; solve [auto] | apply vazio_false in H]
          end).

(** A customer of the new store is one of the old store, or it passed the
    validations. *)
Lemma handle_cadastro_clientes op cad c :
  c ∈ cad_clientes (handle_cadastro isdecimal secure_filename op cad) ->
  c ∈ cad_clientes cad \/ cliente_valido isdecimal c.
Proof.
  destruct op as [form files commit | id form files commit | id]; simpl.
  - unfold adicionar_cliente.
    destruct (ler_dados form) as [dados |]; [| auto].
    validacoes.
    destruct (validar_cpf_cnpj isdecimal (Dados.cpf_cnpj dados)) eqn:Hcpf;
      [| cbn [snd]; solve [auto]].
    cbn [negb andb]. validacoes.
    destruct commit; cbn [snd cad_clientes]; [| auto].
    intros Hc. apply elem_of_app in Hc as [Hc | Hc]; [auto |].
    apply list_elem_of_singleton in Hc. subst c. right.
    unfold cliente_valido. cbn. tauto.
  - unfold editar_cliente.
    destruct (get_cliente cad id) as [cliente |]; [| auto].
    destruct (ler_dados form) as [dados |]; [| auto].
    validacoes.
    destruct (validar_cpf_cnpj isdecimal (Dados.cpf_cnpj dados)) eqn:Hcpf;
      [| cbn [snd]; solve [auto]].
    cbn [negb andb]. validacoes.
    destruct commit; cbn [snd cad_clientes]; [| auto].
    intros Hc. unfold update_cliente in Hc.
    apply elem_of_map_list in Hc as (c0 & Heq & Hin).
    case_decide; subst c; [| auto]. right.
    unfold cliente_valido. cbn. tauto.
  - destruct (get_cliente cad id); [| auto]. cbn [cad_clientes].
    intros Hc. apply elem_of_filter_bool in Hc. tauto.
Qed.

(** A document of the new store is one of the old store, or it is a new
    one for a customer of the old or of the new store. *)
Lemma handle_cadastro_documentos op cad :
  (forall d, d ∈ cad_documentos cad ->
     exists c, c ∈ cad_clientes cad /\ Cliente.id c = Document.cliente_id d) ->
  (forall c, c ∈ cad_clientes cad -> Cliente.id c < cad_clientes_id_seq cad) ->
  (forall d, d ∈ cad_documentos (handle_cadastro isdecimal secure_filename op cad) ->
     exists c, c ∈ cad_clientes (handle_cadastro isdecimal secure_filename op cad)
               /\ Cliente.id c = Document.cliente_id d) /\
  (forall c, c ∈ cad_clientes (handle_cadastro isdecimal secure_filename op cad) ->
     Cliente.id c < cad_clientes_id_seq (handle_cadastro isdecimal secure_filename op cad)).
Proof.
  intros Hdoc Hlt.
  assert (Hnovos : forall id files d,
            d ∈ novos_documentos secure_filename id files -> Document.cliente_id d = id).
  { intros id files d Hd. unfold novos_documentos in Hd.
    apply elem_of_map_list in Hd as (f & Heq & _). subst d. reflexivity. }
  destruct op as [form files commit | id form files commit | id]; simpl.
  - unfold adicionar_cliente.
    destruct (ler_dados form) as [dados |]; [| auto].
    validacoes.
    destruct (validar_cpf_cnpj isdecimal (Dados.cpf_cnpj dados)) eqn:Hcpf;
      [| cbn [snd]; solve [auto]].
    cbn [negb andb]. validacoes.
    destruct commit; cbn [snd cad_clientes cad_documentos cad_clientes_id_seq].
    + split.
      * intros d Hd. apply elem_of_app in Hd as [Hd | Hd].
        -- destruct (Hdoc d Hd) as (c & Hc & Hid). exists c.
           split; [apply elem_of_app; auto | exact Hid].
        -- eexists. split; [apply elem_of_app; right; left |].
           rewrite (Hnovos _ _ _ Hd). reflexivity.
      * intros c Hc. apply elem_of_app in Hc as [Hc | Hc].
        -- specialize (Hlt c Hc). lia.
        -- apply list_elem_of_singleton in Hc. subst c. cbn. lia.
    + split; [exact Hdoc |]. intros c Hc. specialize (Hlt c Hc). lia.
  - unfold editar_cliente.
    destruct (get_cliente cad id) as [cliente |] eqn:Hget; [| auto].
    destruct (ler_dados form) as [dados |]; [| auto].
    validacoes.
    destruct (validar_cpf_cnpj isdecimal (Dados.cpf_cnpj dados)) eqn:Hcpf;
      [| cbn [snd]; solve [auto]].
    cbn [negb andb]. validacoes.
    unfold get_cliente in Hget. apply List.find_some in Hget as [Hin Hid].
    apply bool_decide_eq_true in Hid. apply list_elem_of_In in Hin.
    destruct commit; cbn [snd cad_clientes cad_documentos cad_clientes_id_seq].
    + assert (Hkeep : forall c, c ∈ cad_clientes cad ->
                exists c', c' ∈ update_cliente
                                  {| Cliente.id := Cliente.id cliente;
                                     Cliente.nome := Dados.nome dados;
                                     Cliente.cpf_cnpj := Dados.cpf_cnpj dados;
                                     Cliente.rg := Dados.rg dados;
                                     Cliente.email := Dados.email dados;
                                     Cliente.telefone := Dados.telefone dados;
                                     Cliente.telefone_secundario :=
                                       Dados.telefone_secundario dados;
                                     Cliente.chave_pix := Dados.chave_pix dados;
                                     Cliente.endereco := Dados.endereco dados;
                                     Cliente.cidade := Dados.cidade dados;
                                     Cliente.estado := Dados.estado dados;
                                     Cliente.cep := Dados.cep dados;
                                     Cliente.referencia := Dados.referencia dados;
                                     Cliente.telefone_referencia :=
                                       Dados.telefone_referencia dados;
                                     Cliente.endereco_referencia :=
                                       Dados.endereco_referencia dados;
                                     Cliente.observacoes := Dados.observacoes dados;
                                     Cliente.empresa := Dados.empresa dados |}
                                  (cad_clientes cad)
                           /\ Cliente.id c' = Cliente.id c).
      { intros c Hc. eexists. split.
        - unfold update_cliente. apply elem_of_map_list. exists c.
          split; [reflexivity | exact Hc].
        - cbn [Cliente.id]. case_decide as Heq; [cbn; congruence | reflexivity]. }
      split.
      * intros d Hd. apply elem_of_app in Hd as [Hd | Hd].
        -- destruct (Hdoc d Hd) as (c & Hc & Hcid).
           destruct (Hkeep c Hc) as (c' & Hc' & Hid'). exists c'.
           split; [exact Hc' | congruence].
        -- destruct (Hkeep cliente Hin) as (c' & Hc' & Hid'). exists c'.
           split; [exact Hc' |]. rewrite (Hnovos _ _ _ Hd). congruence.
      * intros c Hc. unfold update_cliente in Hc.
        apply elem_of_map_list in Hc as (c0 & Heq & Hin0).
        case_decide as Hcid; subst c; [cbn; apply Hlt; exact Hin | auto].
    + split; [| exact Hlt].
      intros d Hd. apply elem_of_app in Hd as [Hd | Hd]; [auto |].
      exists cliente. split; [exact Hin |]. rewrite (Hnovos _ _ _ Hd). exact Hid.
  - destruct (get_cliente cad id); [| auto].
    cbn [cad_clientes cad_documentos cad_clientes_id_seq]. split.
    + intros d Hd. apply elem_of_filter_bool in Hd as [Hd Hne].
      destruct (Hdoc d Hd) as (c & Hc & Hcid). exists c. split; [| exact Hcid].
      apply elem_of_filter_bool. split; [exact Hc |]. rewrite Hcid. exact Hne.
    + intros c Hc. apply elem_of_filter_bool in Hc as [Hc _]. auto.
Qed.
End CadastroInvariant.

(** X25.  Every customer in a store that [adicionar_cliente],
    [editar_cliente] and the deletion produce from empty tables has passed
    the validations of the forms: the document number, RG, Pix key,
    reference with its telephone and address, address, city, state, postal
    code and company are not empty, and the document number has 11 or 14
    decimal digits.  The name, the telephone and the email are not checked. *)
Theorem cadastro_reachable_cliente_valido (isdecimal : N -> bool)
    (secure_filename : str -> str) cad c :
  cadastro_reachable isdecimal secure_filename cad ->
  c ∈ cad_clientes cad ->
  Cliente.cpf_cnpj c <> [] /\ Cliente.rg c <> [] /\ Cliente.chave_pix c <> [] /\
  Cliente.referencia c <> [] /\ Cliente.telefone_referencia c <> [] /\
  Cliente.endereco_referencia c <> [] /\ Cliente.endereco c <> [] /\
  Cliente.cidade c <> [] /\ Cliente.estado c <> [] /\ Cliente.cep c <> [] /\
  Cliente.empresa c <> [] /\
  (length (List.filter isdecimal (Cliente.cpf_cnpj c)) = 11%nat
   \/ length (List.filter isdecimal (Cliente.cpf_cnpj c)) = 14%nat).
Proof.
  intros Hreach Hc.
  assert (Hvalid : cliente_valido isdecimal c).
  { revert c Hc. induction Hreach as [| cad op _ IH]; intros c Hc; [inversion Hc |].
    apply handle_cadastro_clientes in Hc as [Hc | Hc]; auto. }
  unfold cliente_valido in Hvalid.
  rewrite validar_cpf_cnpj_length in Hvalid. tauto.
Qed.

Lemma cadastro_reachable_cliente_valido_witness :
  exists c,
    cad_clientes cadastro_ana = [c] /\
    Cliente.empresa c = fh1 /\
    length (List.filter isdecimal_ascii (Cliente.cpf_cnpj c)) = 11%nat.
Proof.
  eexists. split; [vm_compute; reflexivity |]. split; [reflexivity |].
  destruct (cadastro_reachable_cliente_valido isdecimal_ascii secure_filename_exemplo
              cadastro_ana
              (default (Cliente.mk 0 [] [] [] [] [] [] [] [] [] [] [] [] [] [] [] [])
                 (get_cliente cadastro_ana 1)))
    as (_ & _ & _ & _ & _ & _ & _ & _ & _ & _ & _ & [H | H]).
  - exact (cadastro_step isdecimal_ascii secure_filename_exemplo _
             (AdicionarCliente form_cliente [[97%N]] true)
             (cadastro_empty isdecimal_ascii secure_filename_exemplo)).
  - vm_compute. left.
  - exact H.
  - vm_compute in H. discriminate H.
Defined.

(** ** The documents of a customer *)


